(** * Ripapp: the commitment-and-claim engine, embedded in Rocq

    A shallow embedding of the TypeScript sources of the price-protection
    front end:

    - [src/lib/zk/commitment.ts]   tier table and commitment construction
    - the claim-proof helper        [toHex32], [toFieldString], [formatMerkleRoot]
    - the oracle client             [normalizeOracleProductId], [checkEligibility]
    - the policy manager            [savePolicyForAddress], [updatePolicyForAddress],
                                    [mergePolicyForAddress]
    - the invoice widget            [handleSubmitClaim]

    Conventions of the embedding.
    - A JavaScript string is a Rocq [string], read as the bytes of its
      UTF-8 form: an ASCII character is one byte, every other character a
      sequence of bytes from 128 up.  The white-space class of [trim] and of
      [BigInt] is the one of the language, with its characters outside ASCII.
      Case conversion is written out for ASCII text, the form in which the
      code applies it to addresses, roots and numerals; where it is applied
      to free-form identifiers it is the conversion of the engine, which the
      embedding takes from outside ([CaseConversion]).
    - A [bigint] is a [Z].  A [number] is an IEEE-754 binary64 value, taken
      from [SpecFloat] with precision 53 and maximal exponent 1024.
    - A thrown exception is the [Throw] branch of [result]; [await] of a
      rejected promise is the same branch.
    - [localStorage] is a finite map from keys to stored arrays; the JSON
      encoding of the arrays is kept abstract (what is written is what is
      read back).  The code runs in the browser ([window] is defined) and
      the storage itself does not fail. *)

From Stdlib Require Import ZArith NArith String Ascii List Bool Lia.
From Stdlib Require Import Strings.Byte.
From Stdlib Require Import Floats.SpecFloat.
From stdpp Require Import base option list strings gmap.

Import ListNotations.
Local Open Scope string_scope.
Local Open Scope Z_scope.

(* ===================================================================== *)
(** * JavaScript values: exceptions, strings, bigints, numbers           *)
(* ===================================================================== *)

Module JS.

(** ** Exceptions *)

(** [Error m] is [throw new Error(m)] in the code under study; the three
    built-in kinds are raised by the language's own conversions; [Rejected m]
    is a failure raised inside an outside collaborator (prover, wallet,
    ledger). *)
Inductive exn : Type :=
| Error (message : string)
| RangeError
| SyntaxError
| TypeError
| Rejected (message : string).

Inductive result (A : Type) : Type :=
| Ok (a : A)
| Throw (e : exn).
Arguments Ok {A} a.
Arguments Throw {A} e.

Definition bind {A B : Type} (r : result A) (k : A -> result B) : result B :=
  match r with
  | Ok a => k a
  | Throw e => Throw e
  end.

Definition orThrow {A : Type} (e : exn) (o : option A) : result A :=
  match o with
  | Some a => Ok a
  | None => Throw e
  end.

(** [error instanceof Error ? error.message : fallback].  The texts of the
    built-in kinds are engine specific; a fixed tag stands for them. *)
Definition exn_message (e : exn) : string :=
  match e with
  | Error m => m
  | Rejected m => m
  | RangeError => "RangeError"
  | SyntaxError => "SyntaxError"
  | TypeError => "TypeError"
  end.

(** ** Strings *)

Definition code (c : ascii) : nat := nat_of_ascii c.

Definition inRange (lo hi : nat) (c : ascii) : bool :=
  Nat.leb lo (code c) && Nat.leb (code c) hi.

Definition isLower (c : ascii) : bool := inRange 97 122 c.
Definition isUpper (c : ascii) : bool := inRange 65 90 c.
Definition isDigit (c : ascii) : bool := inRange 48 57 c.

Definition isAscii (c : ascii) : bool := Nat.ltb (code c) 128.

(** The white-space characters of the language ([WhiteSpace] and
    [LineTerminator]), by the length of their UTF-8 form.  One byte: TAB, LF,
    VT, FF, CR and SPACE. *)
Definition isWhiteSpace (c : ascii) : bool :=
  inRange 9 13 c || Nat.eqb (code c) 32.

(** Two bytes: U+00A0 (C2 A0). *)
Definition isWhiteSpace2 (a b : ascii) : bool :=
  Nat.eqb (code a) 194 && Nat.eqb (code b) 160.

(** Three bytes: U+1680 (E1 9A 80), U+2000 to U+200A (E2 80 80 to E2 80 8A),
    U+2028 and U+2029 (E2 80 A8, E2 80 A9), U+202F (E2 80 AF),
    U+205F (E2 81 9F), U+3000 (E3 80 80) and U+FEFF (EF BB BF). *)
Definition isWhiteSpace3 (a b c : ascii) : bool :=
  (Nat.eqb (code a) 225 && Nat.eqb (code b) 154 && Nat.eqb (code c) 128)
  || (Nat.eqb (code a) 226 && Nat.eqb (code b) 128
      && (inRange 128 138 c || inRange 168 169 c || Nat.eqb (code c) 175))
  || (Nat.eqb (code a) 226 && Nat.eqb (code b) 129 && Nat.eqb (code c) 159)
  || (Nat.eqb (code a) 227 && Nat.eqb (code b) 128 && Nat.eqb (code c) 128)
  || (Nat.eqb (code a) 239 && Nat.eqb (code b) 187 && Nat.eqb (code c) 191).

(** The string is exactly one white-space character. *)
Definition isWhiteSpaceChar (s : string) : bool :=
  match s with
  | String a EmptyString => isWhiteSpace a
  | String a (String b EmptyString) => isWhiteSpace2 a b
  | String a (String b (String c EmptyString)) => isWhiteSpace3 a b c
  | _ => false
  end.

Definition upperChar (c : ascii) : ascii :=
  if isLower c then ascii_of_nat (code c - 32) else c.

Definition lowerChar (c : ascii) : ascii :=
  if isUpper c then ascii_of_nat (code c + 32) else c.

Fixpoint mapChars (f : ascii -> ascii) (s : string) : string :=
  match s with
  | EmptyString => EmptyString
  | String c r => String (f c) (mapChars f r)
  end.

Fixpoint filterChars (keep : ascii -> bool) (s : string) : string :=
  match s with
  | EmptyString => EmptyString
  | String c r => if keep c then String c (filterChars keep r) else filterChars keep r
  end.

Fixpoint allChars (p : ascii -> bool) (s : string) : bool :=
  match s with
  | EmptyString => true
  | String c r => p c && allChars p r
  end.

(** Case conversion of ASCII text: the letters a to z and A to Z are
    converted, every other byte is kept.  This is what [toUpperCase] and
    [toLowerCase] do on the texts of addresses, roots and numerals. *)
Definition toUpperCase : string -> string := mapChars upperChar.
Definition toLowerCase : string -> string := mapChars lowerChar.

(** Case conversion of arbitrary text follows the Unicode tables of the
    engine (one character may become several: sharp s becomes SS).  The
    embedding takes [String.prototype.toUpperCase] and
    [String.prototype.toLowerCase] from outside; what it relies on is that on
    ASCII text they are the conversions above. *)
Class CaseConversion : Type := {
  String_toUpperCase : string -> string;
  String_toLowerCase : string -> string;
  String_toUpperCase_ascii :
    forall s, allChars isAscii s = true -> String_toUpperCase s = toUpperCase s;
  String_toLowerCase_ascii :
    forall s, allChars isAscii s = true -> String_toLowerCase s = toLowerCase s
}.

(** [trimStart] removes the white-space characters at the front, of
    whatever length. *)
Fixpoint trimStart (s : string) : string :=
  match s with
  | EmptyString => EmptyString
  | String a r =>
      if isWhiteSpace a then trimStart r
      else
        match r with
        | EmptyString => s
        | String b r2 =>
            if isWhiteSpace2 a b then trimStart r2
            else
              match r2 with
              | EmptyString => s
              | String c r3 => if isWhiteSpace3 a b c then trimStart r3 else s
              end
        end
  end.

(** [trimEnd] removes them at the end: going from the end, what is left of
    the rest is dropped together with the first byte when the two make up one
    white-space character. *)
Fixpoint trimEnd (s : string) : string :=
  match s with
  | EmptyString => EmptyString
  | String c r =>
      let t := String c (trimEnd r) in
      if isWhiteSpaceChar t then EmptyString else t
  end.

Definition trim (s : string) : string := trimEnd (trimStart s).

(** A string of white-space characters only. *)
Fixpoint allWhiteSpace (s : string) : bool :=
  match s with
  | EmptyString => true
  | String a r =>
      if isWhiteSpace a then allWhiteSpace r
      else match r with
           | EmptyString => false
           | String b r2 =>
               if isWhiteSpace2 a b then allWhiteSpace r2
               else match r2 with
                    | EmptyString => false
                    | String c r3 => isWhiteSpace3 a b c && allWhiteSpace r3
                    end
           end
  end.

(** An ASCII character that is no white space. *)
Definition notSpace (c : ascii) : bool := isAscii c && negb (isWhiteSpace c).

(** Truthiness of a string: the empty string is falsy. *)
Definition nonEmpty (s : string) : bool :=
  match s with
  | EmptyString => false
  | String _ _ => true
  end.

Fixpoint startsWith (p s : string) : bool :=
  match p, s with
  | EmptyString, _ => true
  | String a p', String b s' => Ascii.eqb a b && startsWith p' s'
  | String _ _, EmptyString => false
  end.

Fixpoint drop (n : nat) (s : string) : string :=
  match n, s with
  | O, _ => s
  | S _, EmptyString => EmptyString
  | S n', String _ r => drop n' r
  end.

Fixpoint repeatChar (c : ascii) (n : nat) : string :=
  match n with
  | O => EmptyString
  | S n' => String c (repeatChar c n')
  end.

(** [s.padStart(n, '0')]. *)
Definition padStart0 (n : nat) (s : string) : string :=
  repeatChar "0"%char (n - String.length s) ++ s.

Definition hasHexPrefix (s : string) : bool := startsWith "0x" s || startsWith "0X" s.

Definition isAlnum (c : ascii) : bool := isUpper c || isLower c || isDigit c.

(** [/^[0-9]+$/.test(s)]. *)
Definition isDecimalDigits (s : string) : bool := nonEmpty s && allChars isDigit s.

(** ** BigInt *)

Definition digitChar (d : N) : ascii :=
  if (d <? 10)%N then ascii_of_N (48 + d) else ascii_of_N (87 + d).

(** The value of an alphanumeric character read as a digit. *)
Definition alnumValue (c : ascii) : option N :=
  if isDigit c then Some (N_of_ascii c - 48)%N
  else if isLower c then Some (N_of_ascii c - 87)%N
  else if isUpper c then Some (N_of_ascii c - 55)%N
  else None.

(** The value of a digit character in the given radix, if it is one. *)
Definition digitValue (radix : N) (c : ascii) : option N :=
  match alnumValue c with
  | Some d => if (d <? radix)%N then Some d else None
  | None => None
  end.

(** Digits of [n], most significant first, prepended to [acc]. *)
Fixpoint digitsAux (radix : N) (fuel : nat) (n : N) (acc : string) : string :=
  match fuel with
  | O => acc
  | S fuel' =>
      let acc' := String (digitChar (n mod radix)) acc in
      if (n / radix =? 0)%N then acc' else digitsAux radix fuel' (n / radix) acc'
  end.

Definition digitsOf (radix : N) (n : N) : string :=
  digitsAux radix (S (N.size_nat n)) n EmptyString.

(** [z.toString(radix)] for a bigint [z]. *)
Definition BigInt_toString (radix : N) (z : Z) : string :=
  match z with
  | Zneg p => String "-"%char (digitsOf radix (Npos p))
  | _ => digitsOf radix (Z.to_N z)
  end.

Fixpoint parseDigitsAux (radix : N) (s : string) (acc : N) : option N :=
  match s with
  | EmptyString => Some acc
  | String c r =>
      match digitValue radix c with
      | Some d => parseDigitsAux radix r (acc * radix + d)%N
      | None => None
      end
  end.

(** One or more digits of the radix. *)
Definition parseDigits (radix : N) (s : string) : option N :=
  if nonEmpty s then parseDigitsAux radix s 0%N else None.

(** [StringToBigInt]: white space is trimmed, the empty string is zero, a
    [0x], [0o] or [0b] prefix selects the radix (no sign allowed), otherwise
    an optionally signed decimal literal.  [None] is the [SyntaxError]. *)
Definition BigInt_ofString (s : string) : option Z :=
  let t := trim s in
  if negb (nonEmpty t) then Some 0
  else if startsWith "0x" t || startsWith "0X" t then
    Z.of_N <$> parseDigits 16 (drop 2 t)
  else if startsWith "0o" t || startsWith "0O" t then
    Z.of_N <$> parseDigits 8 (drop 2 t)
  else if startsWith "0b" t || startsWith "0B" t then
    Z.of_N <$> parseDigits 2 (drop 2 t)
  else if startsWith "-" t then
    (fun n => - Z.of_N n) <$> parseDigits 10 (drop 1 t)
  else if startsWith "+" t then
    Z.of_N <$> parseDigits 10 (drop 1 t)
  else Z.of_N <$> parseDigits 10 t.

Definition isHexDigit (c : ascii) : bool :=
  match digitValue 16 c with
  | Some _ => true
  | None => false
  end.

(** The text [0x] followed by the hexadecimal digits of [z], left-padded
    with zeros to 64 digits: the form that [toHex32], the commitment and the
    digests all produce. *)
Definition hex64 (z : Z) : string := "0x" ++ padStart0 64 (BigInt_toString 16 z).

(** ** Numbers (binary64) *)

Definition number : Type := spec_float.

Definition prec : Z := 53.
Definition emax : Z := 1024.

(** The number nearest to an integer (ties to even): integer literals,
    [Number(b)] for a bigint [b], and [Number(b.toString())]. *)
Definition Number_ofZ (z : Z) : number := binary_normalize prec emax z 0 false.

Definition mul : number -> number -> number := SFmul prec emax.
Definition div : number -> number -> number := SFdiv prec emax.

(** [a > b] and [a >= b]; both are false when an operand is NaN. *)
Definition gt (a b : number) : bool := SFltb b a.
Definition ge (a b : number) : bool := SFleb b a.

(** The numbers above zero, +infinity included. *)
Definition isPositive (x : number) : bool :=
  match x with
  | S754_finite false _ _ | S754_infinity false => true
  | _ => false
  end.

Definition signed (s : bool) (m : positive) : Z := if s then Zneg m else Zpos m.

(** [Math.round]: the nearest integer, ties towards +infinity. *)
Definition Math_round (x : number) : number :=
  match x with
  | S754_finite s m e =>
      if 0 <=? e then x
      else
        let k := - e in
        let r := (2 * signed s m + 2 ^ k) / 2 ^ (k + 1) in
        if r =? 0 then S754_zero s else binary_normalize prec emax r 0 false
  | _ => x
  end.

(** [Math.floor]. *)
Definition Math_floor (x : number) : number :=
  match x with
  | S754_finite s m e =>
      if 0 <=? e then x
      else
        let r := signed s m / 2 ^ (- e) in
        if r =? 0 then S754_zero false else binary_normalize prec emax r 0 false
  | _ => x
  end.

(** [BigInt(x)] for a number [x]: defined on the integral numbers only;
    [None] is the [RangeError]. *)
Definition BigInt_ofNumber (x : number) : option Z :=
  match x with
  | S754_zero _ => Some 0
  | S754_finite s m e =>
      if 0 <=? e then Some (signed s m * 2 ^ e)
      else if signed s m mod 2 ^ (- e) =? 0 then Some (signed s m / 2 ^ (- e))
      else None
  | _ => None
  end.

End JS.

Export JS.

#[export] Instance result_ret : MRet result := @Ok.
#[export] Instance result_bind : MBind result := fun A B k r => bind r k.

(* ===================================================================== *)
(** * src/lib/zk/commitment.ts                                           *)
(* ===================================================================== *)

Module Commitment.

Record InvoiceData : Type := {
  orderNumber : string;
  purchasePriceUsd : number;
  purchaseDate : string;
  productId : string
}.

Record PurchaseDetails : Type := {
  orderHash : string;
  invoicePrice : Z;
  invoiceDate : number;
  productHash : Z;
  salt : Z;
  selectedTier : Z
}.

Record TierBoundary : Type := {
  min : Z;
  max : Z;
  tier : Z;
  premium : Z
}.

(** Premium tiers (must match circuit and contract). *)
Definition TIER_BOUNDARIES : list TierBoundary := [
  {| min := 1000000;    max := 99999999;    tier := 1; premium := 1000000 |};
  {| min := 100000000;  max := 499000000;   tier := 2; premium := 3000000 |};
  {| min := 500000000;  max := 999000000;   tier := 3; premium := 7000000 |};
  {| min := 1000000000; max := 1999000000;  tier := 4; premium := 13000000 |};
  {| min := 2000000000; max := 10000000000; tier := 5; premium := 20000000 |}
].

Definition TOKEN_MULTIPLIER : Z := 1000000.

Definition contains (b : TierBoundary) (invoicePrice : Z) : bool :=
  (min b <=? invoicePrice) && (invoicePrice <=? max b).

Definition OutOfRangeError (invoicePrice : Z) : exn :=
  Error ("Invoice price " ++ BigInt_toString 10 invoicePrice ++ " outside valid tier ranges").

(** The [for ... of] loop over a table: the first boundary that contains
    the price decides; falling off the end throws. *)
Fixpoint classifyIn (table : list TierBoundary) (invoicePrice : Z) : result (Z * Z) :=
  match table with
  | [] => Throw (OutOfRangeError invoicePrice)
  | boundary :: rest =>
      if contains boundary invoicePrice
      then Ok (tier boundary, premium boundary)
      else classifyIn rest invoicePrice
  end.

Definition calculateTierAndPremium (invoicePrice : Z) : result (Z * Z) :=
  classifyIn TIER_BOUNDARIES invoicePrice.

Record CommitmentResult : Type := {
  commitment : string;
  details : PurchaseDetails;
  resultTier : Z;
  resultPremium : Z
}.

Section BuildCommitment.

(** The outside primitives: [keccak256 s] is the digest of the UTF-8 bytes of
    [s] as an integer, [poseidon xs] is [F.toObject(poseidon(xs))], and
    [Date_getTime s] is [new Date(s).getTime()] (NaN for an invalid date). *)
Variable keccak256 : string -> Z.
Variable poseidon : list Z -> Z.
Variable Date_getTime : string -> number.

(** [ethers.keccak256(ethers.toUtf8Bytes(s))]: a [0x] string of 64 digits. *)
Definition keccak256Hex (s : string) : string :=
  "0x" ++ padStart0 64 (BigInt_toString 16 (keccak256 s)).

(** [b.toString(16).padStart(2, '0')] for one byte of the salt array. *)
Definition byteHex (b : byte) : string :=
  padStart0 2 (digitsOf 16 (Byte.to_N b)).

(** The integer that a byte array writes, most significant byte first. *)
Definition bytesValue (bytes : list byte) : Z :=
  fold_left (fun acc b => acc * 256 + Z.of_N (Byte.to_N b)) bytes 0.

(** [saltArray] is the content of the [Uint8Array(32)] after
    [crypto.getRandomValues]. *)
Definition buildCommitment (invoiceData : InvoiceData) (saltArray : list byte)
  : result CommitmentResult :=
  let orderHash := keccak256Hex (orderNumber invoiceData) in
  invoicePrice ← orThrow RangeError
    (BigInt_ofNumber (Math_round (mul (purchasePriceUsd invoiceData) (Number_ofZ TOKEN_MULTIPLIER))));
  let invoiceDate :=
    Math_floor (div (Date_getTime (purchaseDate invoiceData)) (Number_ofZ 1000)) in
  let productIdHash := keccak256Hex (productId invoiceData) in
  productHashBigInt ← orThrow SyntaxError (BigInt_ofString productIdHash);
  let productHash := poseidon [productHashBigInt] in
  let saltHex := String.concat "" (map byteHex saltArray) in
  salt ← orThrow SyntaxError (BigInt_ofString ("0x" ++ saltHex));
  tp ← calculateTierAndPremium invoicePrice;
  let tier := fst tp in
  let purchaseDetails :=
    {| orderHash := orderHash;
       invoicePrice := invoicePrice;
       invoiceDate := invoiceDate;
       productHash := productHash;
       salt := salt;
       selectedTier := tier |} in
  orderHashBig ← orThrow SyntaxError (BigInt_ofString (Commitment.orderHash purchaseDetails));
  invoiceDateBig ← orThrow RangeError (BigInt_ofNumber (Commitment.invoiceDate purchaseDetails));
  let commitment :=
    poseidon [orderHashBig;
              Commitment.invoicePrice purchaseDetails;
              invoiceDateBig;
              Commitment.productHash purchaseDetails;
              Commitment.salt purchaseDetails;
              selectedTier purchaseDetails] in
  let commitmentHex := "0x" ++ padStart0 64 (BigInt_toString 16 commitment) in
  tp' ← calculateTierAndPremium invoicePrice;
  Ok {| commitment := commitmentHex;
        details := purchaseDetails;
        resultTier := tier;
        resultPremium := snd tp' |}.

End BuildCommitment.

End Commitment.

(* ===================================================================== *)
(** * The oracle client                                                  *)
(* ===================================================================== *)

Module OracleClient.

Module OraclePrice.
Record t : Type := {
  id : string;
  name : string;
  currentPrice : number;
  basePrice : number;
  change : number
}.
End OraclePrice.

Module OraclePricesResponse.
Record t : Type := {
  prices : list OraclePrice.t;
  merkleRoot : string;
  timestamp : number
}.
End OraclePricesResponse.

Inductive Position : Type := left | right.

Module OracleMerkleProof.
Record t : Type := {
  leaf : string;
  currentPrice : number;
  proof : list (Position * string);
  siblings : list string;
  pathIndices : list number;
  root : string;
  productName : string;
  leafBigInt : string;
  productHash : string;
  productId : string
}.
End OracleMerkleProof.

Module EligibilityResult.
Record t : Type := {
  eligible : bool;
  dropPercentage : number;
  dropAmount : string;
  currentPrice : string;
  merkleRoot : string;
  proof : OracleMerkleProof.t;
  payoutAmount : string
}.
End EligibilityResult.

Definition DEFAULT_DROP_THRESHOLD : number := Number_ofZ 10.

Definition isUpperAlnum (c : ascii) : bool := isUpper c || isDigit c.

Section Lookup.

(** Product identifiers are free-form text: their case is converted by the
    engine. *)
Context {engine : CaseConversion}.

(** [value.toUpperCase().replace(/[^A-Z0-9]/g, '').trim()].  Removing the
    bytes other than A to Z and 0 to 9 removes every character outside ASCII
    with all its bytes. *)
Definition normalizeOracleProductId (value : string) : string :=
  trim (filterChars isUpperAlnum (String_toUpperCase value)).

(** The same without the final [trim], which has nothing left to remove. *)
Definition key (s : string) : string := filterChars isUpperAlnum (String_toUpperCase s).

(** The callback given to [prices.find]. *)
Definition matchesProduct (productId : string) (price : OraclePrice.t) : bool :=
  let normalizedInputId := normalizeOracleProductId productId in
  let trimmedInputId := String_toLowerCase (trim productId) in
  let normalizedPriceId := normalizeOracleProductId (OraclePrice.id price) in
  if nonEmpty normalizedInputId
  then String.eqb normalizedPriceId normalizedInputId
  else String.eqb (String_toLowerCase (trim (OraclePrice.id price))) trimmedInputId.

Definition ProductNotFoundError (productId : string) : exn :=
  Error ("Product " ++ productId ++ " not found in oracle catalog.").

(** The oracle service as seen by one call: the answer of [GET /api/prices]
    and of [GET /api/merkle-proof/{id}]. *)
Record Oracle : Type := {
  getOraclePrices : result OraclePricesResponse.t;
  getMerkleProof : string -> result OracleMerkleProof.t
}.

Definition checkEligibility (oracle : Oracle) (productId : string) (originalPrice : Z)
    (dropThresholdPercent : number) : result EligibilityResult.t :=
  response ← getOraclePrices oracle;
  let prices := OraclePricesResponse.prices response in
  let merkleRoot := OraclePricesResponse.merkleRoot response in
  matchedProduct ← orThrow (ProductNotFoundError productId)
    (List.find (matchesProduct productId) prices);
  proof ← getMerkleProof oracle (OraclePrice.id matchedProduct);
  currentPrice ← orThrow RangeError (BigInt_ofNumber (OraclePrice.currentPrice matchedProduct));
  let dropAmount := if originalPrice >? currentPrice then originalPrice - currentPrice else 0 in
  let originalPriceNumber := Number_ofZ originalPrice in
  let dropAmountNumber := Number_ofZ dropAmount in
  let dropPercentage :=
    if gt originalPriceNumber (Number_ofZ 0)
    then mul (div dropAmountNumber originalPriceNumber) (Number_ofZ 100)
    else Number_ofZ 0 in
  let eligible := (dropAmount >? 0) && ge dropPercentage dropThresholdPercent in
  Ok {| EligibilityResult.eligible := eligible;
        EligibilityResult.dropPercentage :=
          div (Math_round (mul dropPercentage (Number_ofZ 100))) (Number_ofZ 100);
        EligibilityResult.dropAmount := BigInt_toString 10 dropAmount;
        EligibilityResult.currentPrice := BigInt_toString 10 currentPrice;
        EligibilityResult.merkleRoot := merkleRoot;
        EligibilityResult.proof := proof;
        EligibilityResult.payoutAmount := BigInt_toString 10 dropAmount |}.

End Lookup.

End OracleClient.

(* ===================================================================== *)
(** * The policy manager (src/utils/storage.ts, second half)             *)
(* ===================================================================== *)

Module PolicyManager.

Inductive PolicyStatus : Type := active | eligible | ineligible | claimed.

Module StoredPurchaseDetails.
Record t : Type := {
  orderHash : string;
  invoicePrice : string;
  invoiceDate : number;
  productHash : string;
  salt : string;
  selectedTier : number;
  productId : string
}.
End StoredPurchaseDetails.

Module Contracts.
Record t : Type := {
  vault : string;
  token : string;
  verifier : string
}.
End Contracts.

(** The optional members ([merkleRoot?], [proof?], [payoutAmount?]) are
    [None] when the key is absent. *)
Module Eligibility.
Record t : Type := {
  checkedAt : number;
  dropPercentage : number;
  dropAmount : string;
  currentPrice : string;
  merkleRoot : option string;
  proof : option OracleClient.OracleMerkleProof.t;
  payoutAmount : option string
}.
End Eligibility.

Record PolicyData : Type := {
  policyId : string;
  transactionHash : string;
  blockNumber : number;
  policyPurchaseDate : number;
  purchaseDetails : StoredPurchaseDetails.t;
  secretCommitment : string;
  premium : string;
  tier : number;
  contracts : Contracts.t;
  createdAt : string;
  network : string;
  status : option PolicyStatus;
  eligibility : option Eligibility.t;
  claimTxHash : option string;
  claimedAt : option number
}.

(** [Partial<PolicyData>]: a member is [None] when the key is absent from
    the object literal. *)
Module Updates.
Record t : Type := {
  policyId : option string;
  transactionHash : option string;
  blockNumber : option number;
  policyPurchaseDate : option number;
  purchaseDetails : option StoredPurchaseDetails.t;
  secretCommitment : option string;
  premium : option string;
  tier : option number;
  contracts : option Contracts.t;
  createdAt : option string;
  network : option string;
  status : option PolicyStatus;
  eligibility : option Eligibility.t;
  claimTxHash : option string;
  claimedAt : option number
}.

(** The empty object literal. *)
Definition none : t :=
  {| policyId := None; transactionHash := None; blockNumber := None;
     policyPurchaseDate := None; purchaseDetails := None; secretCommitment := None;
     premium := None; tier := None; contracts := None; createdAt := None;
     network := None; status := None; eligibility := None; claimTxHash := None;
     claimedAt := None |}.
End Updates.

(** [localStorage], restricted to the policy arrays. *)
Abbreviation Storage := (gmap string (list PolicyData)).

Definition policiesKey (walletAddress : string) : string :=
  "zkpp_policies_" ++ toLowerCase walletAddress.

Definition getPoliciesForAddress (storage : Storage) (walletAddress : string)
  : list PolicyData :=
  default [] (storage !! policiesKey walletAddress).

Definition savePolicyForAddress (storage : Storage) (walletAddress : string)
    (policyData : PolicyData) : Storage :=
  let key := policiesKey walletAddress in
  let existingPolicies := getPoliciesForAddress storage walletAddress in
  let exists_ :=
    existsb (fun p => String.eqb (transactionHash p) (transactionHash policyData))
            existingPolicies in
  if exists_ then storage
  else
    let updatedPolicies := (existingPolicies ++ [policyData])%list in
    <[key := updatedPolicies]> storage.

(** The dedup keys of a stored array, the number of records that carry a
    given key, the invariant that no key occurs twice under any address, and
    a run of saves. *)
Definition hashes (l : list PolicyData) : list string := map transactionHash l.


Definition uniqueHashes (storage : Storage) : Prop :=
  forall a, NoDup (hashes (getPoliciesForAddress storage a)).


(** [existingPolicies.findIndex(policy => policy.policyId === policyId)];
    [None] is the index -1. *)
Fixpoint findIndex (policyId0 : string) (policies : list PolicyData) : option nat :=
  match policies with
  | [] => None
  | policy :: rest =>
      if String.eqb (policyId policy) policyId0 then Some O
      else S <$> findIndex policyId0 rest
  end.

Definition updatePolicyForAddress (storage : Storage) (walletAddress : string)
    (policyId0 : string) (updater : PolicyData -> PolicyData)
  : Storage * option PolicyData :=
  let key := policiesKey walletAddress in
  let existingPolicies := getPoliciesForAddress storage walletAddress in
  match findIndex policyId0 existingPolicies with
  | None => (storage, None)
  | Some index =>
      match existingPolicies !! index with
      | None => (storage, None)
      | Some existing =>
          let updatedPolicy := updater existing in
          (<[key := <[index := updatedPolicy]> existingPolicies]> storage,
           Some updatedPolicy)
      end
  end.

(** [{ ...policy.eligibility, ...updates.eligibility }]. *)
Definition spreadEligibility (old : option Eligibility.t) (new : Eligibility.t)
  : Eligibility.t :=
  {| Eligibility.checkedAt := Eligibility.checkedAt new;
     Eligibility.dropPercentage := Eligibility.dropPercentage new;
     Eligibility.dropAmount := Eligibility.dropAmount new;
     Eligibility.currentPrice := Eligibility.currentPrice new;
     Eligibility.merkleRoot :=
       match Eligibility.merkleRoot new with
       | Some r => Some r
       | None => old ≫= Eligibility.merkleRoot
       end;
     Eligibility.proof :=
       match Eligibility.proof new with
       | Some p => Some p
       | None => old ≫= Eligibility.proof
       end;
     Eligibility.payoutAmount :=
       match Eligibility.payoutAmount new with
       | Some a => Some a
       | None => old ≫= Eligibility.payoutAmount
       end |}.

(** The updater of [mergePolicyForAddress]:
    [{ ...policy, ...updates, eligibility: updates.eligibility ? {...} : policy.eligibility }]. *)
Definition mergeUpdater (updates : Updates.t) (policy : PolicyData) : PolicyData :=
  {| policyId := default (policyId policy) (Updates.policyId updates);
     transactionHash := default (transactionHash policy) (Updates.transactionHash updates);
     blockNumber := default (blockNumber policy) (Updates.blockNumber updates);
     policyPurchaseDate := default (policyPurchaseDate policy) (Updates.policyPurchaseDate updates);
     purchaseDetails := default (purchaseDetails policy) (Updates.purchaseDetails updates);
     secretCommitment := default (secretCommitment policy) (Updates.secretCommitment updates);
     premium := default (premium policy) (Updates.premium updates);
     tier := default (tier policy) (Updates.tier updates);
     contracts := default (contracts policy) (Updates.contracts updates);
     createdAt := default (createdAt policy) (Updates.createdAt updates);
     network := default (network policy) (Updates.network updates);
     status :=
       match Updates.status updates with
       | Some s => Some s
       | None => status policy
       end;
     eligibility :=
       match Updates.eligibility updates with
       | Some e => Some (spreadEligibility (eligibility policy) e)
       | None => eligibility policy
       end;
     claimTxHash :=
       match Updates.claimTxHash updates with
       | Some h => Some h
       | None => claimTxHash policy
       end;
     claimedAt :=
       match Updates.claimedAt updates with
       | Some t => Some t
       | None => claimedAt policy
       end |}.

Definition mergePolicyForAddress (storage : Storage) (walletAddress : string)
    (policyId0 : string) (updates : Updates.t) : Storage * option PolicyData :=
  updatePolicyForAddress storage walletAddress policyId0 (mergeUpdater updates).

(** *** Commitments (same file)

    [details] is declared [any]; its one writer, the purchase handler, stores
    the opening with the integers printed as texts. *)
Module SerializableDetails.
Record t : Type := {
  orderHash : string;
  invoicePrice : string;
  invoiceDate : number;
  productHash : string;
  salt : string;
  selectedTier : number
}.
End SerializableDetails.

Module CommitmentData.
Record t : Type := {
  commitment : string;
  tier : number;
  premium : string;
  invoicePrice : string;
  details : SerializableDetails.t;
  salt : string;
  productHash : string;
  orderHash : string
}.
End CommitmentData.

(** [localStorage], restricted to the commitment arrays.  The two families of
    keys have different prefixes, so the two restrictions never overlap. *)
Abbreviation CommitmentStorage := (gmap string (list CommitmentData.t)).





(** The members of [invoiceData: any] that [generatePolicyData] reads; [None]
    is an absent member. *)
Module InvoiceDataForPolicy.
Record t : Type := {
  purchaseDate : option string;
  productId : option string
}.
End InvoiceDataForPolicy.

(** A string member used as a condition: absent and empty are both falsy. *)
Definition truthy (v : option string) : option string :=
  match v with
  | Some s => if nonEmpty s then Some s else None
  | None => None
  end.

(** [Date_getTime] is [new Date(s).getTime()]; [now] is [new Date()], read as
    [now.getTime()] and [now.toISOString()]; [chainId] is
    [process.env.NEXT_PUBLIC_CHAIN_ID]. *)
Definition generatePolicyData (Date_getTime : string -> number)
    (now : number) (nowISOString : string) (chainId : option string)
    (transactionHash0 : string) (blockNumber0 : number) (policyId0 : string)
    (commitmentData : CommitmentData.t) (invoiceData : InvoiceDataForPolicy.t)
    (contractAddresses : Contracts.t) : PolicyData :=
  let invoiceDate :=
    match truthy (InvoiceDataForPolicy.purchaseDate invoiceData) with
    | Some purchaseDate => div (Date_getTime purchaseDate) (Number_ofZ 1000)
    | None => Math_floor (div now (Number_ofZ 1000))
    end in
  {| policyId := policyId0;
     transactionHash := transactionHash0;
     blockNumber := blockNumber0;
     policyPurchaseDate := Math_floor (div now (Number_ofZ 1000));
     purchaseDetails :=
       {| StoredPurchaseDetails.orderHash := CommitmentData.orderHash commitmentData;
          StoredPurchaseDetails.invoicePrice := CommitmentData.invoicePrice commitmentData;
          StoredPurchaseDetails.invoiceDate := invoiceDate;
          StoredPurchaseDetails.productHash := CommitmentData.productHash commitmentData;
          StoredPurchaseDetails.salt := CommitmentData.salt commitmentData;
          StoredPurchaseDetails.selectedTier := CommitmentData.tier commitmentData;
          StoredPurchaseDetails.productId :=
            default "unknown" (truthy (InvoiceDataForPolicy.productId invoiceData)) |};
     secretCommitment := CommitmentData.commitment commitmentData;
     premium := CommitmentData.premium commitmentData;
     tier := CommitmentData.tier commitmentData;
     contracts := contractAddresses;
     createdAt := nowISOString;
     network :=
       match chainId with
       | Some c => if String.eqb c "31337" then "anvil-local" else "unknown"
       | None => "unknown"
       end;
     status := Some active;
     eligibility := None;
     claimTxHash := None;
     claimedAt := None |}.

End PolicyManager.

(* ===================================================================== *)
(** * The claim-proof helper                                             *)
(* ===================================================================== *)

Module ClaimProof.

Import PolicyManager.

(** A value of type [string | number | bigint]. *)
Inductive value : Type :=
| VString (s : string)
| VNumber (n : number)
| VBigInt (z : Z).

Module GeneratedClaimProof.
Record t : Type := {
  a : string * string;
  b : (string * string) * (string * string);
  c : string * string;
  publicSignals : list string
}.
End GeneratedClaimProof.

(** What [snarkjs.groth16.fullProve] returns, as far as it is read. *)
Module FullProof.
Record t : Type := {
  pi_a : string * string;
  pi_b : (string * string) * (string * string);
  pi_c : string * string;
  publicSignals : list string
}.
End FullProof.

Definition toHex32 (v : value) : result string :=
  asBigInt ← match v with
             | VBigInt z => Ok z
             | VString s => orThrow SyntaxError (BigInt_ofString s)
             | VNumber n => orThrow RangeError (BigInt_ofNumber n)
             end;
  let hex := BigInt_toString 16 asBigInt in
  Ok ("0x" ++ padStart0 64 hex).

Definition formatProof (fullProof : FullProof.t) : GeneratedClaimProof.t :=
  let pi_b := FullProof.pi_b fullProof in
  {| GeneratedClaimProof.a := FullProof.pi_a fullProof;
     GeneratedClaimProof.b :=
       ((snd (fst pi_b), fst (fst pi_b)), (snd (snd pi_b), fst (snd pi_b)));
     GeneratedClaimProof.c := FullProof.pi_c fullProof;
     GeneratedClaimProof.publicSignals := FullProof.publicSignals fullProof |}.

Definition toFieldString (v : value) : result string :=
  match v with
  | VBigInt z => Ok (BigInt_toString 10 z)
  | VNumber n => z ← orThrow RangeError (BigInt_ofNumber n); Ok (BigInt_toString 10 z)
  | VString s =>
      let trimmed := trim s in
      if negb (nonEmpty trimmed) then Ok "0"
      else if startsWith "0x" trimmed || startsWith "0X" trimmed then
        match BigInt_ofString trimmed with
        | Some z => Ok (BigInt_toString 10 z)
        | None => Ok trimmed
        end
      else Ok trimmed
  end.

Fixpoint mapResult {A B : Type} (f : A -> result B) (l : list A) : result (list B) :=
  match l with
  | [] => Ok []
  | x :: rest => y ← f x; ys ← mapResult f rest; Ok (y :: ys)
  end.

Module CircuitInputs.
Record t : Type := {
  orderHash : string;
  invoicePrice : string;
  invoiceDate : string;
  productHash : string;
  salt : string;
  selectedTier : string;
  currentPrice : string;
  leafHash : string;
  merkleProof : list string;
  leafIndex : list number;
  commitment : string;
  merkleRoot : string;
  policyStartDate : string;
  paidPremium : string
}.
End CircuitInputs.

Definition buildCircuitInputs (policy : PolicyData) (proof : OracleClient.OracleMerkleProof.t)
    (merkleRoot : string) : result CircuitInputs.t :=
  let details := purchaseDetails policy in
  orderHash ← toFieldString (VString (StoredPurchaseDetails.orderHash details));
  invoicePrice ← toFieldString (VString (StoredPurchaseDetails.invoicePrice details));
  invoiceDate ← toFieldString (VNumber (StoredPurchaseDetails.invoiceDate details));
  productHash ← toFieldString (VString (StoredPurchaseDetails.productHash details));
  salt ← toFieldString (VString (StoredPurchaseDetails.salt details));
  selectedTier ← toFieldString (VNumber (StoredPurchaseDetails.selectedTier details));
  currentPrice ← toFieldString (VNumber (OracleClient.OracleMerkleProof.currentPrice proof));
  leafHash ← toFieldString (VString
    (if nonEmpty (OracleClient.OracleMerkleProof.leafBigInt proof)
     then OracleClient.OracleMerkleProof.leafBigInt proof
     else OracleClient.OracleMerkleProof.leaf proof));
  merkleProof ← mapResult (fun s => toFieldString (VString s))
    (OracleClient.OracleMerkleProof.siblings proof);
  let leafIndex := OracleClient.OracleMerkleProof.pathIndices proof in
  commitment ← toFieldString (VString (secretCommitment policy));
  merkleRoot' ← toFieldString (VString merkleRoot);
  policyStartDate ← toFieldString (VNumber (policyPurchaseDate policy));
  paidPremium ← toFieldString (VString (premium policy));
  Ok {| CircuitInputs.orderHash := orderHash;
        CircuitInputs.invoicePrice := invoicePrice;
        CircuitInputs.invoiceDate := invoiceDate;
        CircuitInputs.productHash := productHash;
        CircuitInputs.salt := salt;
        CircuitInputs.selectedTier := selectedTier;
        CircuitInputs.currentPrice := currentPrice;
        CircuitInputs.leafHash := leafHash;
        CircuitInputs.merkleProof := merkleProof;
        CircuitInputs.leafIndex := leafIndex;
        CircuitInputs.commitment := commitment;
        CircuitInputs.merkleRoot := merkleRoot';
        CircuitInputs.policyStartDate := policyStartDate;
        CircuitInputs.paidPremium := paidPremium |}.

(** [fullProve] is the outside prover.  The local verification that follows
    it in the source only logs a warning and does not change the result. *)
Definition generateClaimProof (fullProve : CircuitInputs.t -> result FullProof.t)
    (policy : PolicyData) (proof : OracleClient.OracleMerkleProof.t) (merkleRoot : string)
  : result GeneratedClaimProof.t :=
  inputs ← buildCircuitInputs policy proof merkleRoot;
  fullProof ← fullProve inputs;
  Ok (formatProof fullProof).

Definition formatPublicSignals (publicSignals : list string) : result (list Z) :=
  mapResult (fun signal => orThrow SyntaxError (BigInt_ofString signal)) publicSignals.

Definition formatMerkleRoot (root : string) : string :=
  match toHex32 (VString root) with
  | Ok h => h
  | Throw _ => root
  end.

End ClaimProof.

(* ===================================================================== *)
(** * The invoice widget: claim submission                               *)
(* ===================================================================== *)

Module InvoiceWidget.

Inductive ClaimStatus : Type :=
| idle | active | checking | eligible | ineligible | claiming | claimed | error.

Module ClaimEligibilityState.
Record t : Type := {
  dropPercentage : number;
  dropAmountMicros : string;
  currentPriceMicros : string;
  formattedDrop : string;
  formattedCurrent : string;
  merkleRoot : string;
  proof : option OracleClient.OracleMerkleProof.t;
  payoutAmount : string;
  checkedAt : number
}.
End ClaimEligibilityState.

Module ClaimState.
Record t : Type := {
  status : ClaimStatus;
  eligibility : option ClaimEligibilityState.t;
  error : option string;
  txHash : option string
}.
End ClaimState.

(** [Partial<ClaimState>].  The callers write [error: undefined], a key that
    is present with no value: the outer option of [error] is the presence of
    the key. *)
Module ClaimStatePartial.
Record t : Type := {
  status : option ClaimStatus;
  eligibility : option ClaimEligibilityState.t;
  error : option (option string);
  txHash : option string
}.
End ClaimStatePartial.

(** The record returned by the vault's [policies(policyId)]. *)
Module LedgerPolicy.
Record t : Type := {
  buyer : string;
  commitment : string;
  premiumPaid : Z;
  purchaseDate : Z;
  alreadyClaimed : bool
}.
End LedgerPolicy.

Module ClaimPayoutArgs.
Record t : Type := {
  policyId : Z;
  commitment : string;
  merkleRoot : string;
  policyPurchaseDate : Z;
  premiumPaid : Z;
  proofA : string * string;
  proofB : (string * string) * (string * string);
  proofC : string * string;
  publicSignals : list Z
}.
End ClaimPayoutArgs.

Record Receipt : Type := { hash : string }.

(** The calls made on the vault contract, in the order of issue. *)
Inductive LedgerCall : Type :=
| CallPriceMerkleRoot
| CallPolicies (policyId : Z)
| CallClaimPayout (args : ClaimPayoutArgs.t).

(** The two views of the contract, as opposed to the payout transaction. *)
Definition isReadCall (c : LedgerCall) : bool :=
  match c with
  | CallClaimPayout _ => false
  | _ => true
  end.

Record Signer : Type := { getAddress : result string }.

(** The collaborators of one submission.  [claimPayout args] is the outcome
    of sending the transaction, and inside it the outcome of [tx.wait()]
    ([None] is the null receipt).  [now] is [Date.now()]. *)
Record Env : Type := {
  fullProve : ClaimProof.CircuitInputs.t -> result ClaimProof.FullProof.t;
  getInsuranceVaultContractWithSigner : result unit;
  priceMerkleRoot : result string;
  policies : Z -> result LedgerPolicy.t;
  zeroPadValue : string -> nat -> result string;
  claimPayout : ClaimPayoutArgs.t -> result (result (option Receipt));
  now : number
}.

(** The state the handler reads and writes: the component's [claimStates]
    and [policies], [localStorage], what was sent to the ledger, and the
    alerts shown. *)
Record World : Type := {
  claimStates : gmap string ClaimState.t;
  policiesView : list PolicyManager.PolicyData;
  localStorage : PolicyManager.Storage;
  ledgerCalls : list LedgerCall;
  alerts : list string
}.

Definition updateClaimState (policyId : string) (partial : ClaimStatePartial.t)
    (w : World) : World :=
  let prev := claimStates w in
  let existing := prev !! policyId in
  let nextStatus :=
    match ClaimStatePartial.status partial with
    | Some s => s
    | None => match existing with Some e => ClaimState.status e | None => active end
    end in
  let next :=
    {| ClaimState.status := nextStatus;
       ClaimState.eligibility :=
         match ClaimStatePartial.eligibility partial with
         | Some e => Some e
         | None => existing ≫= ClaimState.eligibility
         end;
       ClaimState.error :=
         match ClaimStatePartial.error partial with
         | Some v => v
         | None => existing ≫= ClaimState.error
         end;
       ClaimState.txHash :=
         match ClaimStatePartial.txHash partial with
         | Some h => Some h
         | None => existing ≫= ClaimState.txHash
         end |} in
  {| claimStates := <[policyId := next]> prev;
     policiesView := policiesView w;
     localStorage := localStorage w;
     ledgerCalls := ledgerCalls w;
     alerts := alerts w |}.

Definition alert (message : string) (w : World) : World :=
  {| claimStates := claimStates w;
     policiesView := policiesView w;
     localStorage := localStorage w;
     ledgerCalls := ledgerCalls w;
     alerts := (alerts w ++ [message])%list |}.

(** Computations of the [try] block: they append to the log of ledger calls
    and may throw. *)
Definition Eff (A : Type) : Type := list LedgerCall -> list LedgerCall * result A.

Definition ret {A : Type} (a : A) : Eff A := fun log => (log, Ok a).

Definition andThen {A B : Type} (m : Eff A) (k : A -> Eff B) : Eff B :=
  fun log =>
    match m log with
    | (log', Ok a) => k a log'
    | (log', Throw e) => (log', Throw e)
    end.

Definition lift {A : Type} (r : result A) : Eff A := fun log => (log, r).

Definition issue (c : LedgerCall) : Eff unit := fun log => ((log ++ [c])%list, Ok tt).

Definition throw {A : Type} (e : exn) : Eff A := lift (Throw e).

Definition guard (ok : bool) (e : exn) : Eff unit := if ok then ret tt else throw e.

Notation "'do' x <~ m ; k" := (andThen m (fun x => k))
  (at level 10, x name, m at level 100, k at level 200, only parsing).

Definition StaleRootError : exn :=
  Error "Latest on-chain Merkle root does not match oracle root.".
Definition OwnershipError : exn :=
  Error "This policy belongs to another wallet.".
Definition AlreadyClaimedError : exn :=
  Error "Policy is already claimed on-chain.".
Definition NoReceiptError : exn :=
  Error "Claim transaction did not return a receipt.".

(** The body of the [try] block of [handleSubmitClaim]. *)
Definition submitClaimTry (env : Env) (signer : Signer)
    (policy : PolicyManager.PolicyData) (eligibility : ClaimEligibilityState.t)
    (proof : OracleClient.OracleMerkleProof.t) : Eff Receipt :=
  let formattedRoot := ClaimProof.formatMerkleRoot (ClaimEligibilityState.merkleRoot eligibility) in
  do proofResult <~ lift (ClaimProof.generateClaimProof (fullProve env) policy proof
                            (ClaimEligibilityState.merkleRoot eligibility));
  do vault <~ lift (getInsuranceVaultContractWithSigner env);
  (* Promise.all([vault.priceMerkleRoot(), vault.policies(BigInt(policy.policyId))]) *)
  do _ <~ issue CallPriceMerkleRoot;
  do policyIdArg <~ lift (orThrow SyntaxError (BigInt_ofString (PolicyManager.policyId policy)));
  do _ <~ issue (CallPolicies policyIdArg);
  do onChainRoot <~ lift (priceMerkleRoot env);
  do storedPolicy <~ lift (policies env policyIdArg);
  do _ <~ guard (String.eqb (toLowerCase onChainRoot) (toLowerCase formattedRoot)) StaleRootError;
  do walletAddress <~ lift (getAddress signer);
  do _ <~ guard (String.eqb (toLowerCase (LedgerPolicy.buyer storedPolicy))
                            (toLowerCase walletAddress)) OwnershipError;
  do _ <~ guard (negb (LedgerPolicy.alreadyClaimed storedPolicy)) AlreadyClaimedError;
  do policyIdBig <~ lift (orThrow SyntaxError (BigInt_ofString (PolicyManager.policyId policy)));
  do commitmentHex <~ lift (zeroPadValue env (PolicyManager.secretCommitment policy) 32);
  do premiumBig <~ lift (orThrow SyntaxError (BigInt_ofString (PolicyManager.premium policy)));
  do publicSignals <~ lift (ClaimProof.formatPublicSignals
                              (ClaimProof.GeneratedClaimProof.publicSignals proofResult));
  do purchaseDateBig <~ lift (orThrow RangeError
                                (BigInt_ofNumber (PolicyManager.policyPurchaseDate policy)));
  let args :=
    {| ClaimPayoutArgs.policyId := policyIdBig;
       ClaimPayoutArgs.commitment := commitmentHex;
       ClaimPayoutArgs.merkleRoot := formattedRoot;
       ClaimPayoutArgs.policyPurchaseDate := purchaseDateBig;
       ClaimPayoutArgs.premiumPaid := premiumBig;
       ClaimPayoutArgs.proofA := ClaimProof.GeneratedClaimProof.a proofResult;
       ClaimPayoutArgs.proofB := ClaimProof.GeneratedClaimProof.b proofResult;
       ClaimPayoutArgs.proofC := ClaimProof.GeneratedClaimProof.c proofResult;
       ClaimPayoutArgs.publicSignals := publicSignals |} in
  do _ <~ issue (CallClaimPayout args);
  do tx <~ lift (claimPayout env args);
  do receiptNullable <~ lift tx;
  match receiptNullable with
  | None => throw NoReceiptError
  | Some receipt => ret receipt
  end.

(** The three checks against the ledger that stand before the payout call:
    the published root equals the formatted snapshot root, the registered
    buyer is the submitting wallet, and the record is not marked claimed. *)
Definition guardsPassed (env : Env) (signer : Signer) (policy : PolicyManager.PolicyData)
    (eligibility : ClaimEligibilityState.t) : Prop :=
  exists onChainRoot storedPolicy walletAddress policyIdBig,
    priceMerkleRoot env = Ok onChainRoot
    /\ BigInt_ofString (PolicyManager.policyId policy) = Some policyIdBig
    /\ policies env policyIdBig = Ok storedPolicy
    /\ getAddress signer = Ok walletAddress
    /\ toLowerCase onChainRoot
       = toLowerCase (ClaimProof.formatMerkleRoot (ClaimEligibilityState.merkleRoot eligibility))
    /\ toLowerCase (LedgerPolicy.buyer storedPolicy) = toLowerCase walletAddress
    /\ LedgerPolicy.alreadyClaimed storedPolicy = false.

(** What follows a successful [try] block: the claim state and the stored
    record become claimed. *)
Definition recordClaimed (env : Env) (address : string)
    (policy : PolicyManager.PolicyData) (eligibility : ClaimEligibilityState.t)
    (receipt : Receipt) (w : World) : World :=
  let policyId := PolicyManager.policyId policy in
  let w1 := updateClaimState policyId
    {| ClaimStatePartial.status := Some claimed;
       ClaimStatePartial.eligibility := None;
       ClaimStatePartial.error := None;
       ClaimStatePartial.txHash := Some (hash receipt) |} w in
  let updates :=
    {| PolicyManager.Updates.policyId := None;
       PolicyManager.Updates.transactionHash := None;
       PolicyManager.Updates.blockNumber := None;
       PolicyManager.Updates.policyPurchaseDate := None;
       PolicyManager.Updates.purchaseDetails := None;
       PolicyManager.Updates.secretCommitment := None;
       PolicyManager.Updates.premium := None;
       PolicyManager.Updates.tier := None;
       PolicyManager.Updates.contracts := None;
       PolicyManager.Updates.createdAt := None;
       PolicyManager.Updates.network := None;
       PolicyManager.Updates.status := Some PolicyManager.claimed;
       PolicyManager.Updates.claimTxHash := Some (hash receipt);
       PolicyManager.Updates.claimedAt :=
         Some (Math_floor (div (now env) (Number_ofZ 1000)));
       PolicyManager.Updates.eligibility := Some
         {| PolicyManager.Eligibility.checkedAt := now env;
            PolicyManager.Eligibility.dropPercentage :=
              ClaimEligibilityState.dropPercentage eligibility;
            PolicyManager.Eligibility.dropAmount :=
              ClaimEligibilityState.dropAmountMicros eligibility;
            PolicyManager.Eligibility.currentPrice :=
              ClaimEligibilityState.currentPriceMicros eligibility;
            PolicyManager.Eligibility.merkleRoot :=
              Some (ClaimEligibilityState.merkleRoot eligibility);
            PolicyManager.Eligibility.proof := ClaimEligibilityState.proof eligibility;
            PolicyManager.Eligibility.payoutAmount :=
              Some (ClaimEligibilityState.payoutAmount eligibility) |} |} in
  let merged := PolicyManager.mergePolicyForAddress (localStorage w1) address policyId updates in
  {| claimStates := claimStates w1;
     policiesView :=
       match snd merged with
       | Some updatedPolicy =>
           map (fun existing =>
                  if String.eqb (PolicyManager.policyId existing) policyId
                  then updatedPolicy else existing) (policiesView w1)
       | None => PolicyManager.getPoliciesForAddress (fst merged) address
       end;
     localStorage := fst merged;
     ledgerCalls := ledgerCalls w1;
     alerts := alerts w1 |}.

(** What the component shows for a policy. *)
Definition claimStatus (w : World) (policyId : string) : option ClaimStatus :=
  ClaimState.status <$> claimStates w !! policyId.

Definition claimError (w : World) (policyId : string) : option string :=
  claimStates w !! policyId ≫= ClaimState.error.

Definition handleSubmitClaim (env : Env) (address : option string) (signer : option Signer)
    (policy : PolicyManager.PolicyData) (w : World) : World :=
  match address, signer with
  | Some address', Some signer' =>
      if negb (nonEmpty address') then
        alert "Please connect your wallet to submit a claim." w
      else
      let policyId := PolicyManager.policyId policy in
      match claimStates w !! policyId ≫= ClaimState.eligibility with
      | None => alert "Please check claim eligibility before submitting." w
      | Some eligibility =>
          match ClaimEligibilityState.proof eligibility with
          | None => alert "Please check claim eligibility before submitting." w
          | Some proof =>
              if negb (isDecimalDigits policyId) then alert "Policy ID is invalid." w
              else
                let w1 := updateClaimState policyId
                  {| ClaimStatePartial.status := Some claiming;
                     ClaimStatePartial.eligibility := None;
                     ClaimStatePartial.error := Some None;
                     ClaimStatePartial.txHash := None |} w in
                let '(log, outcome) :=
                  submitClaimTry env signer' policy eligibility proof (ledgerCalls w1) in
                let w2 :=
                  {| claimStates := claimStates w1;
                     policiesView := policiesView w1;
                     localStorage := localStorage w1;
                     ledgerCalls := log;
                     alerts := alerts w1 |} in
                match outcome with
                | Ok receipt => recordClaimed env address' policy eligibility receipt w2
                | Throw e =>
                    updateClaimState policyId
                      {| ClaimStatePartial.status := Some error;
                         ClaimStatePartial.eligibility := None;
                         ClaimStatePartial.error := Some (Some (exn_message e));
                         ClaimStatePartial.txHash := None |} w2
                end
          end
      end
  | _, _ => alert "Please connect your wallet to submit a claim." w
  end.

(** ** The eligibility check and the purchase record (same component) *)

(** [formatUsdFromMicros] of the oracle client, on the texts it is given
    here.  [toFixed2 x] is [x.toFixed(2)]. *)
Definition formatUsdFromMicros (toFixed2 : number -> string) (value : string) : string :=
  match BigInt_ofString value with
  | Some bigValue =>
      let dollars := div (Number_ofZ bigValue) (Number_ofZ 1000000) in
      "$" ++ toFixed2 dollars
  | None => value
  end.

Section Check.

Context {engine : CaseConversion}.

Definition normalizeProductId (value : option string) : option string :=
  match PolicyManager.truthy value with
  | None => None
  | Some value' =>
      let uppercase := filterChars OracleClient.isUpperAlnum (String_toUpperCase value') in
      if nonEmpty uppercase then Some uppercase else None
  end.

(** The record the purchase handler assembles from a commitment.  The tier
    is one and the same JS number throughout; the commitment module carries
    its integer value. *)
Definition serializableDetails (details : Commitment.PurchaseDetails)
  : PolicyManager.SerializableDetails.t :=
  {| PolicyManager.SerializableDetails.orderHash := Commitment.orderHash details;
     PolicyManager.SerializableDetails.invoicePrice :=
       BigInt_toString 10 (Commitment.invoicePrice details);
     PolicyManager.SerializableDetails.invoiceDate := Commitment.invoiceDate details;
     PolicyManager.SerializableDetails.productHash :=
       "0x" ++ BigInt_toString 16 (Commitment.productHash details);
     PolicyManager.SerializableDetails.salt :=
       "0x" ++ BigInt_toString 16 (Commitment.salt details);
     PolicyManager.SerializableDetails.selectedTier :=
       Number_ofZ (Commitment.selectedTier details) |}.

Definition commitmentData (buildCommitmentResult : Commitment.CommitmentResult)
  : PolicyManager.CommitmentData.t :=
  let details := Commitment.details buildCommitmentResult in
  {| PolicyManager.CommitmentData.commitment := Commitment.commitment buildCommitmentResult;
     PolicyManager.CommitmentData.tier := Number_ofZ (Commitment.resultTier buildCommitmentResult);
     PolicyManager.CommitmentData.premium :=
       BigInt_toString 10 (Commitment.resultPremium buildCommitmentResult);
     PolicyManager.CommitmentData.invoicePrice :=
       BigInt_toString 10 (Commitment.invoicePrice details);
     PolicyManager.CommitmentData.details := serializableDetails details;
     PolicyManager.CommitmentData.salt := "0x" ++ BigInt_toString 16 (Commitment.salt details);
     PolicyManager.CommitmentData.productHash :=
       "0x" ++ BigInt_toString 16 (Commitment.productHash details);
     PolicyManager.CommitmentData.orderHash := Commitment.orderHash details |}.

(** The collaborators of one eligibility check: the oracle, the drop
    threshold of the deployment, [x.toFixed(2)], and the two readings of
    [Date.now()]. *)
Record CheckEnv : Type := {
  oracle : OracleClient.Oracle;
  dropThresholdPercent : number;
  toFixed2 : number -> string;
  nowForState : number;
  nowForStore : number
}.

Definition InvalidPriceError : exn :=
  Error "Invalid purchase price recorded for policy.".

(** The part of the [try] block of [handleCheckClaim] that can throw. *)
Definition checkClaimTry (env : CheckEnv) (policy : PolicyManager.PolicyData)
  : result (string * OracleClient.EligibilityResult.t) :=
  let productId :=
    PolicyManager.StoredPurchaseDetails.productId (PolicyManager.purchaseDetails policy) in
  originalPrice ← orThrow SyntaxError
    (BigInt_ofString
       (PolicyManager.StoredPurchaseDetails.invoicePrice (PolicyManager.purchaseDetails policy)));
  _ ← (if originalPrice <=? 0 then Throw InvalidPriceError else Ok tt);
  let normalizedPolicyProductId := default productId (normalizeProductId (Some productId)) in
  eligibility ← OracleClient.checkEligibility (oracle env) normalizedPolicyProductId
                  originalPrice (dropThresholdPercent env);
  Ok (normalizedPolicyProductId, eligibility).

(** What follows a successful check: the claim state and the stored record
    take the verdict and the snapshot. *)
Definition recordChecked (env : CheckEnv) (address : string)
    (policy : PolicyManager.PolicyData) (normalizedPolicyProductId : string)
    (eligibility : OracleClient.EligibilityResult.t) (w : World) : World :=
  let policyId := PolicyManager.policyId policy in
  let details := PolicyManager.purchaseDetails policy in
  let w1 := updateClaimState policyId
    {| ClaimStatePartial.status :=
         Some (if OracleClient.EligibilityResult.eligible eligibility
               then eligible else ineligible);
       ClaimStatePartial.eligibility := Some
         {| ClaimEligibilityState.dropPercentage :=
              OracleClient.EligibilityResult.dropPercentage eligibility;
            ClaimEligibilityState.dropAmountMicros :=
              OracleClient.EligibilityResult.dropAmount eligibility;
            ClaimEligibilityState.currentPriceMicros :=
              OracleClient.EligibilityResult.currentPrice eligibility;
            ClaimEligibilityState.formattedDrop :=
              formatUsdFromMicros (toFixed2 env)
                (OracleClient.EligibilityResult.dropAmount eligibility);
            ClaimEligibilityState.formattedCurrent :=
              formatUsdFromMicros (toFixed2 env)
                (OracleClient.EligibilityResult.currentPrice eligibility);
            ClaimEligibilityState.merkleRoot :=
              OracleClient.EligibilityResult.merkleRoot eligibility;
            ClaimEligibilityState.proof :=
              Some (OracleClient.EligibilityResult.proof eligibility);
            ClaimEligibilityState.payoutAmount :=
              OracleClient.EligibilityResult.payoutAmount eligibility;
            ClaimEligibilityState.checkedAt := nowForState env |};
       ClaimStatePartial.error := None;
       ClaimStatePartial.txHash := None |} w in
  let nextPurchaseDetails :=
    if negb (String.eqb normalizedPolicyProductId
               (PolicyManager.StoredPurchaseDetails.productId details))
    then
      {| PolicyManager.StoredPurchaseDetails.orderHash :=
           PolicyManager.StoredPurchaseDetails.orderHash details;
         PolicyManager.StoredPurchaseDetails.invoicePrice :=
           PolicyManager.StoredPurchaseDetails.invoicePrice details;
         PolicyManager.StoredPurchaseDetails.invoiceDate :=
           PolicyManager.StoredPurchaseDetails.invoiceDate details;
         PolicyManager.StoredPurchaseDetails.productHash :=
           PolicyManager.StoredPurchaseDetails.productHash details;
         PolicyManager.StoredPurchaseDetails.salt :=
           PolicyManager.StoredPurchaseDetails.salt details;
         PolicyManager.StoredPurchaseDetails.selectedTier :=
           PolicyManager.StoredPurchaseDetails.selectedTier details;
         PolicyManager.StoredPurchaseDetails.productId := normalizedPolicyProductId |}
    else details in
  let updates :=
    {| PolicyManager.Updates.policyId := None;
       PolicyManager.Updates.transactionHash := None;
       PolicyManager.Updates.blockNumber := None;
       PolicyManager.Updates.policyPurchaseDate := None;
       PolicyManager.Updates.purchaseDetails := Some nextPurchaseDetails;
       PolicyManager.Updates.secretCommitment := None;
       PolicyManager.Updates.premium := None;
       PolicyManager.Updates.tier := None;
       PolicyManager.Updates.contracts := None;
       PolicyManager.Updates.createdAt := None;
       PolicyManager.Updates.network := None;
       PolicyManager.Updates.status :=
         Some (if OracleClient.EligibilityResult.eligible eligibility
               then PolicyManager.eligible else PolicyManager.ineligible);
       PolicyManager.Updates.eligibility := Some
         {| PolicyManager.Eligibility.checkedAt := nowForStore env;
            PolicyManager.Eligibility.dropPercentage :=
              OracleClient.EligibilityResult.dropPercentage eligibility;
            PolicyManager.Eligibility.dropAmount :=
              OracleClient.EligibilityResult.dropAmount eligibility;
            PolicyManager.Eligibility.currentPrice :=
              OracleClient.EligibilityResult.currentPrice eligibility;
            PolicyManager.Eligibility.merkleRoot :=
              Some (OracleClient.EligibilityResult.merkleRoot eligibility);
            PolicyManager.Eligibility.proof :=
              Some (OracleClient.EligibilityResult.proof eligibility);
            PolicyManager.Eligibility.payoutAmount :=
              Some (OracleClient.EligibilityResult.payoutAmount eligibility) |};
       PolicyManager.Updates.claimTxHash := None;
       PolicyManager.Updates.claimedAt := None |} in
  let merged := PolicyManager.mergePolicyForAddress (localStorage w1) address policyId updates in
  {| claimStates := claimStates w1;
     policiesView :=
       match snd merged with
       | Some updatedPolicy =>
           map (fun existing =>
                  if String.eqb (PolicyManager.policyId existing) policyId
                  then updatedPolicy else existing) (policiesView w1)
       | None => policiesView w1
       end;
     localStorage := fst merged;
     ledgerCalls := ledgerCalls w1;
     alerts := alerts w1 |}.

Definition handleCheckClaim (env : CheckEnv) (address : option string)
    (policy : PolicyManager.PolicyData) (w : World) : World :=
  match PolicyManager.truthy address with
  | None => alert "Please connect your wallet to check claims." w
  | Some address' =>
      let policyId := PolicyManager.policyId policy in
      let productId :=
        PolicyManager.StoredPurchaseDetails.productId (PolicyManager.purchaseDetails policy) in
      if negb (nonEmpty productId) || String.eqb productId "unknown" then
        alert "Unable to determine product ID for this policy." w
      else if negb (isDecimalDigits policyId) then alert "Policy ID is invalid." w
      else
        let w1 := updateClaimState policyId
          {| ClaimStatePartial.status := Some checking;
             ClaimStatePartial.eligibility := None;
             ClaimStatePartial.error := Some None;
             ClaimStatePartial.txHash := None |} w in
        match checkClaimTry env policy with
        | Ok (normalizedPolicyProductId, eligibility) =>
            recordChecked env address' policy normalizedPolicyProductId eligibility w1
        | Throw e =>
            updateClaimState policyId
              {| ClaimStatePartial.status := Some error;
                 ClaimStatePartial.eligibility := None;
                 ClaimStatePartial.error := Some (Some (exn_message e));
                 ClaimStatePartial.txHash := None |} w1
        end
  end.

(** ** The action offered for a saved policy

    The status shown for a policy is the one of its claim state, and without
    a claim state the stored status, [active] when there is none. *)
Definition statusOfPolicy (s : PolicyManager.PolicyStatus) : ClaimStatus :=
  match s with
  | PolicyManager.active => active
  | PolicyManager.eligible => eligible
  | PolicyManager.ineligible => ineligible
  | PolicyManager.claimed => claimed
  end.

Definition shownStatus (w : World) (policy : PolicyManager.PolicyData) : ClaimStatus :=
  match claimStates w !! PolicyManager.policyId policy with
  | Some claimState => ClaimState.status claimState
  | None => default active (statusOfPolicy <$> PolicyManager.status policy)
  end.

Definition ClaimStatus_eqb (a b : ClaimStatus) : bool :=
  match a, b with
  | idle, idle | active, active | checking, checking | eligible, eligible
  | ineligible, ineligible | claiming, claiming | claimed, claimed | error, error => true
  | _, _ => false
  end.

Definition isEligible (w : World) (policy : PolicyManager.PolicyData) : bool :=
  ClaimStatus_eqb (shownStatus w policy) eligible.

Definition isClaimed (w : World) (policy : PolicyManager.PolicyData) : bool :=
  ClaimStatus_eqb (shownStatus w policy) claimed
  || match PolicyManager.status policy with
     | Some PolicyManager.claimed => true
     | _ => false
     end.

Definition isChecking (w : World) (policy : PolicyManager.PolicyData) : bool :=
  ClaimStatus_eqb (shownStatus w policy) checking.

Definition isClaiming (w : World) (policy : PolicyManager.PolicyData) : bool :=
  ClaimStatus_eqb (shownStatus w policy) claiming.

(** The one button of a policy card: which handler a click runs, if the
    button is not disabled. *)
Inductive PolicyAction : Type := SubmitClaim | CheckClaim | NoAction.

Definition policyActionButtons (w : World) (policy : PolicyManager.PolicyData) : PolicyAction :=
  if isEligible w policy && negb (isClaimed w policy) then
    (if isClaiming w policy then NoAction else SubmitClaim)
  else
    (if isChecking w policy || isClaimed w policy then NoAction else CheckClaim).

(** A click on the button of a policy card. *)
Definition clickPolicyAction (checkEnv : CheckEnv) (env : Env) (address : option string)
    (signer : option Signer) (policy : PolicyManager.PolicyData) (w : World) : World :=
  match policyActionButtons w policy with
  | SubmitClaim => handleSubmitClaim env address signer policy w
  | CheckClaim => handleCheckClaim checkEnv address policy w
  | NoAction => w
  end.

End Check.

End InvoiceWidget.

(* ===================================================================== *)
(** * Sample data                                                        *)
(* ===================================================================== *)

Module Examples.

(** NO-BREAK SPACE (U+00A0) and LATIN SMALL LETTER SHARP S (U+00DF), in
    their UTF-8 forms. *)
Definition nbsp : string :=
  String (ascii_of_nat 194) (String (ascii_of_nat 160) EmptyString).

Definition sharpS : string :=
  String (ascii_of_nat 195) (String (ascii_of_nat 159) EmptyString).

(** A stand-in for the case conversion of the engine: the ASCII one on every
    text. *)
Definition asciiCase : CaseConversion :=
  {| String_toUpperCase := toUpperCase;
     String_toLowerCase := toLowerCase;
     String_toUpperCase_ascii := fun _ _ => eq_refl;
     String_toLowerCase_ascii := fun _ _ => eq_refl |}.

(** A second stand-in, with one entry of the Unicode tables that changes the
    length of a text: in upper case the sharp s becomes SS.  In lower case it
    stays as it is. *)
Fixpoint upperWithSharpS (s : string) : string :=
  match s with
  | EmptyString => EmptyString
  | String a r =>
      match r with
      | EmptyString => String (upperChar a) EmptyString
      | String b r2 =>
          if Nat.eqb (code a) 195 && Nat.eqb (code b) 159
          then String "S" (String "S" (upperWithSharpS r2))
          else String (upperChar a) (upperWithSharpS r)
      end
  end.

Definition upperWithSharpS_ascii (s : string) :
  allChars isAscii s = true -> upperWithSharpS s = toUpperCase s.
Proof.
  induction s as [|a r IH]; [reflexivity|]. intros H.
  cbn [allChars] in H. apply andb_true_iff in H as [Ha Hr].
  cbn [upperWithSharpS]. destruct r as [|b r2]; [reflexivity|].
  assert (Hf : Nat.eqb (code a) 195 = false).
  { apply Nat.eqb_neq. unfold isAscii in Ha. apply Nat.ltb_lt in Ha. lia. }
  rewrite Hf. cbn [andb]. unfold toUpperCase. cbn [mapChars]. f_equal. apply IH, Hr.
Qed.

Definition sharpCase : CaseConversion :=
  {| String_toUpperCase := upperWithSharpS;
     String_toLowerCase := toLowerCase;
     String_toUpperCase_ascii := upperWithSharpS_ascii;
     String_toLowerCase_ascii := fun _ _ => eq_refl |}.

(** An oracle whose catalog lists product X1 at 99.99 USD. *)
Definition sampleProof : OracleClient.OracleMerkleProof.t :=
  {| OracleClient.OracleMerkleProof.leaf := "0x01";
     OracleClient.OracleMerkleProof.currentPrice := Number_ofZ 99990000;
     OracleClient.OracleMerkleProof.proof := [];
     OracleClient.OracleMerkleProof.siblings := ["0x02"];
     OracleClient.OracleMerkleProof.pathIndices := [Number_ofZ 0];
     OracleClient.OracleMerkleProof.root := "0x12";
     OracleClient.OracleMerkleProof.productName := "Widget";
     OracleClient.OracleMerkleProof.leafBigInt := "1";
     OracleClient.OracleMerkleProof.productHash := "0x03";
     OracleClient.OracleMerkleProof.productId := "X1" |}.

Definition sampleOracle : OracleClient.Oracle :=
  {| OracleClient.getOraclePrices :=
       Ok {| OracleClient.OraclePricesResponse.prices :=
               [ {| OracleClient.OraclePrice.id := "x-1";
                    OracleClient.OraclePrice.name := "Widget";
                    OracleClient.OraclePrice.currentPrice := Number_ofZ 99990000;
                    OracleClient.OraclePrice.basePrice := Number_ofZ 199990000;
                    OracleClient.OraclePrice.change := Number_ofZ 0 |} ];
             OracleClient.OraclePricesResponse.merkleRoot := "0x12";
             OracleClient.OraclePricesResponse.timestamp := Number_ofZ 1700000000000 |};
     OracleClient.getMerkleProof := fun _ => Ok sampleProof |}.

(** An oracle whose catalog lists the given identifiers at the given prices
    (micro-units), and which answers every proof request. *)
Definition oracleWith (catalog : list (string * Z)) : OracleClient.Oracle :=
  {| OracleClient.getOraclePrices :=
       Ok {| OracleClient.OraclePricesResponse.prices :=
               map (fun entry =>
                      {| OracleClient.OraclePrice.id := fst entry;
                         OracleClient.OraclePrice.name := "Widget";
                         OracleClient.OraclePrice.currentPrice := Number_ofZ (snd entry);
                         OracleClient.OraclePrice.basePrice := Number_ofZ (snd entry);
                         OracleClient.OraclePrice.change := Number_ofZ 0 |}) catalog;
             OracleClient.OraclePricesResponse.merkleRoot := "0x12";
             OracleClient.OraclePricesResponse.timestamp := Number_ofZ 1700000000000 |};
     OracleClient.getMerkleProof := fun _ => Ok sampleProof |}.

(** Policy number 7 with a given status. *)
Definition policyWithStatus (s : PolicyManager.PolicyStatus) : PolicyManager.PolicyData :=
  {| PolicyManager.policyId := "7";
     PolicyManager.transactionHash := "0xfeed";
     PolicyManager.blockNumber := Number_ofZ 12;
     PolicyManager.policyPurchaseDate := Number_ofZ 1700000000;
     PolicyManager.purchaseDetails :=
       {| PolicyManager.StoredPurchaseDetails.orderHash := "0x0a";
          PolicyManager.StoredPurchaseDetails.invoicePrice := "199990000";
          PolicyManager.StoredPurchaseDetails.invoiceDate := Number_ofZ 1700000000;
          PolicyManager.StoredPurchaseDetails.productHash := "0x0b";
          PolicyManager.StoredPurchaseDetails.salt := "0x0c";
          PolicyManager.StoredPurchaseDetails.selectedTier := Number_ofZ 2;
          PolicyManager.StoredPurchaseDetails.productId := "X1" |};
     PolicyManager.secretCommitment := "0x0d";
     PolicyManager.premium := "3000000";
     PolicyManager.tier := Number_ofZ 2;
     PolicyManager.contracts :=
       {| PolicyManager.Contracts.vault := "0xv";
          PolicyManager.Contracts.token := "0xt";
          PolicyManager.Contracts.verifier := "0xr" |};
     PolicyManager.createdAt := "2023-11-14T22:13:20.000Z";
     PolicyManager.network := "anvil-local";
     PolicyManager.status := Some s;
     PolicyManager.eligibility := None;
     PolicyManager.claimTxHash := None;
     PolicyManager.claimedAt := None |}.

(** The policy once claimed, stored under a wallet address. *)
Definition samplePolicy : PolicyManager.PolicyData :=
  policyWithStatus PolicyManager.claimed.

Definition sampleStorage : PolicyManager.Storage :=
  PolicyManager.savePolicyForAddress ∅ "0xAbC" samplePolicy.




(** A partial update that names the status, the commitment and the premium. *)
Definition overwriteUpdates : PolicyManager.Updates.t :=
  {| PolicyManager.Updates.policyId := None;
     PolicyManager.Updates.transactionHash := None;
     PolicyManager.Updates.blockNumber := None;
     PolicyManager.Updates.policyPurchaseDate := None;
     PolicyManager.Updates.purchaseDetails := None;
     PolicyManager.Updates.secretCommitment := Some "0x00";
     PolicyManager.Updates.premium := Some "0";
     PolicyManager.Updates.tier := None;
     PolicyManager.Updates.contracts := None;
     PolicyManager.Updates.createdAt := None;
     PolicyManager.Updates.network := None;
     PolicyManager.Updates.status := Some PolicyManager.active;
     PolicyManager.Updates.eligibility := None;
     PolicyManager.Updates.claimTxHash := None;
     PolicyManager.Updates.claimedAt := None |}.

(** A submission of policy 7 after a successful eligibility check whose
    snapshot root is 0x12, against a vault that publishes [root] and whose
    record of the policy has the given claimed flag. *)
Definition sampleSigner : InvoiceWidget.Signer :=
  {| InvoiceWidget.getAddress := Ok "0xAbC" |}.

Definition sampleEligibility : InvoiceWidget.ClaimEligibilityState.t :=
  {| InvoiceWidget.ClaimEligibilityState.dropPercentage := Number_ofZ 50;
     InvoiceWidget.ClaimEligibilityState.dropAmountMicros := "100000000";
     InvoiceWidget.ClaimEligibilityState.currentPriceMicros := "99990000";
     InvoiceWidget.ClaimEligibilityState.formattedDrop := "$100.00";
     InvoiceWidget.ClaimEligibilityState.formattedCurrent := "$99.99";
     InvoiceWidget.ClaimEligibilityState.merkleRoot := "0x12";
     InvoiceWidget.ClaimEligibilityState.proof := Some sampleProof;
     InvoiceWidget.ClaimEligibilityState.payoutAmount := "100000000";
     InvoiceWidget.ClaimEligibilityState.checkedAt := Number_ofZ 1700000400000 |}.

Definition sampleWorld : InvoiceWidget.World :=
  {| InvoiceWidget.claimStates :=
       {[ "7" := {| InvoiceWidget.ClaimState.status := InvoiceWidget.eligible;
                    InvoiceWidget.ClaimState.eligibility := Some sampleEligibility;
                    InvoiceWidget.ClaimState.error := None;
                    InvoiceWidget.ClaimState.txHash := None |} ]};
     InvoiceWidget.policiesView := [policyWithStatus PolicyManager.eligible];
     InvoiceWidget.localStorage :=
       PolicyManager.savePolicyForAddress ∅ "0xAbC" (policyWithStatus PolicyManager.eligible);
     InvoiceWidget.ledgerCalls := [];
     InvoiceWidget.alerts := [] |}.

Definition sampleFullProof : ClaimProof.FullProof.t :=
  {| ClaimProof.FullProof.pi_a := ("1", "2");
     ClaimProof.FullProof.pi_b := (("3", "4"), ("5", "6"));
     ClaimProof.FullProof.pi_c := ("7", "8");
     ClaimProof.FullProof.publicSignals := ["1"] |}.

Definition ledgerEnv (root : string) (alreadyClaimed : bool) : InvoiceWidget.Env :=
  {| InvoiceWidget.fullProve := fun _ => Ok sampleFullProof;
     InvoiceWidget.getInsuranceVaultContractWithSigner := Ok tt;
     InvoiceWidget.priceMerkleRoot := Ok root;
     InvoiceWidget.policies := fun _ =>
       Ok {| InvoiceWidget.LedgerPolicy.buyer := "0xabc";
             InvoiceWidget.LedgerPolicy.commitment := "0x0d";
             InvoiceWidget.LedgerPolicy.premiumPaid := 3000000;
             InvoiceWidget.LedgerPolicy.purchaseDate := 1700000000;
             InvoiceWidget.LedgerPolicy.alreadyClaimed := alreadyClaimed |};
     InvoiceWidget.zeroPadValue := fun s _ => Ok s;
     InvoiceWidget.claimPayout := fun _ =>
       Ok (Ok (Some {| InvoiceWidget.hash := "0xc1a1" |}));
     InvoiceWidget.now := Number_ofZ 1700000500000 |}.

(** Stand-ins for the hash primitives and the date parser, and the invoice of
    order A1: 199.99 USD, product X1. *)
Definition sampleKeccak256 : string -> Z := fun s => Z.of_nat (String.length s).

Definition samplePoseidon : list Z -> Z := fun xs => fold_right Z.add 0 xs mod 2 ^ 256.

Definition sampleDate_getTime : string -> number := fun _ => Number_ofZ 1700000000000.

Definition invoiceOf (priceCents : Z) : Commitment.InvoiceData :=
  {| Commitment.orderNumber := "A1";
     Commitment.purchasePriceUsd := div (Number_ofZ priceCents) (Number_ofZ 100);
     Commitment.purchaseDate := "2023-11-14T22:13:20Z";
     Commitment.productId := "X1" |}.

Definition sampleInvoice : Commitment.InvoiceData := invoiceOf 19999.

(** An eligibility check against the sample oracle with the default
    threshold. *)
Definition sampleCheckEnv : InvoiceWidget.CheckEnv :=
  {| InvoiceWidget.oracle := sampleOracle;
     InvoiceWidget.dropThresholdPercent := OracleClient.DEFAULT_DROP_THRESHOLD;
     InvoiceWidget.toFixed2 := fun _ => "0.00";
     InvoiceWidget.nowForState := Number_ofZ 1700000400000;
     InvoiceWidget.nowForStore := Number_ofZ 1700000400001 |}.

(** Policy 7 with another product identifier and price text, and a check
    against another oracle. *)
Definition policyFor (productId invoicePrice : string) : PolicyManager.PolicyData :=
  let policy := policyWithStatus PolicyManager.active in
  let details := PolicyManager.purchaseDetails policy in
  {| PolicyManager.policyId := PolicyManager.policyId policy;
     PolicyManager.transactionHash := PolicyManager.transactionHash policy;
     PolicyManager.blockNumber := PolicyManager.blockNumber policy;
     PolicyManager.policyPurchaseDate := PolicyManager.policyPurchaseDate policy;
     PolicyManager.purchaseDetails :=
       {| PolicyManager.StoredPurchaseDetails.orderHash :=
            PolicyManager.StoredPurchaseDetails.orderHash details;
          PolicyManager.StoredPurchaseDetails.invoicePrice := invoicePrice;
          PolicyManager.StoredPurchaseDetails.invoiceDate :=
            PolicyManager.StoredPurchaseDetails.invoiceDate details;
          PolicyManager.StoredPurchaseDetails.productHash :=
            PolicyManager.StoredPurchaseDetails.productHash details;
          PolicyManager.StoredPurchaseDetails.salt :=
            PolicyManager.StoredPurchaseDetails.salt details;
          PolicyManager.StoredPurchaseDetails.selectedTier :=
            PolicyManager.StoredPurchaseDetails.selectedTier details;
          PolicyManager.StoredPurchaseDetails.productId := productId |};
     PolicyManager.secretCommitment := PolicyManager.secretCommitment policy;
     PolicyManager.premium := PolicyManager.premium policy;
     PolicyManager.tier := PolicyManager.tier policy;
     PolicyManager.contracts := PolicyManager.contracts policy;
     PolicyManager.createdAt := PolicyManager.createdAt policy;
     PolicyManager.network := PolicyManager.network policy;
     PolicyManager.status := PolicyManager.status policy;
     PolicyManager.eligibility := PolicyManager.eligibility policy;
     PolicyManager.claimTxHash := PolicyManager.claimTxHash policy;
     PolicyManager.claimedAt := PolicyManager.claimedAt policy |}.

Definition checkEnvWith (oracle : OracleClient.Oracle) : InvoiceWidget.CheckEnv :=
  {| InvoiceWidget.oracle := oracle;
     InvoiceWidget.dropThresholdPercent := OracleClient.DEFAULT_DROP_THRESHOLD;
     InvoiceWidget.toFixed2 := fun _ => "0.00";
     InvoiceWidget.nowForState := Number_ofZ 1700000400000;
     InvoiceWidget.nowForStore := Number_ofZ 1700000400001 |}.

(** The component just loaded: the store holds policy 7 as active, and no
    claim state exists yet. *)
Definition freshWorld : InvoiceWidget.World :=
  {| InvoiceWidget.claimStates := ∅;
     InvoiceWidget.policiesView := [policyWithStatus PolicyManager.active];
     InvoiceWidget.localStorage :=
       PolicyManager.savePolicyForAddress ∅ "0xAbC" (policyWithStatus PolicyManager.active);
     InvoiceWidget.ledgerCalls := [];
     InvoiceWidget.alerts := [] |}.

End Examples.

(* ===================================================================== *)
(** * Properties of the tier table                                       *)
(* ===================================================================== *)

Section TierTable.

Import Commitment.

Lemma contains_spec (b : TierBoundary) (x : Z) :
  contains b x = true <-> Commitment.min b <= x <= Commitment.max b.
Proof. unfold contains. rewrite andb_true_iff, !Z.leb_le. tauto. Qed.

Lemma classifyIn_first (table : list TierBoundary) (x : Z) (b : TierBoundary) :
  In b table ->
  contains b x = true ->
  (forall b', In b' table -> contains b' x = true -> b' = b) ->
  classifyIn table x = Ok (tier b, premium b).
Proof.
  induction table as [|b0 rest IH]; intros Hin Hc Huniq; [destruct Hin|].
  simpl. destruct (contains b0 x) eqn:E0.
  - rewrite (Huniq b0 (or_introl eq_refl) E0). reflexivity.
  - destruct Hin as [->|Hin]; [congruence|].
    apply IH; auto. intros b' Hb'. apply Huniq. now right.
Qed.

Lemma classifyIn_none (table : list TierBoundary) (x : Z) :
  (forall b, In b table -> contains b x = false) ->
  classifyIn table x = Throw (OutOfRangeError x).
Proof.
  induction table as [|b0 rest IH]; intros Hno; [reflexivity|].
  simpl. rewrite (Hno b0 (or_introl eq_refl)). apply IH.
  intros b Hb. apply Hno. now right.
Qed.

(** Two boundaries of the table that share a price are the same boundary. *)
Lemma TIER_BOUNDARIES_disjoint (b1 b2 : TierBoundary) (x : Z) :
  In b1 TIER_BOUNDARIES -> In b2 TIER_BOUNDARIES ->
  contains b1 x = true -> contains b2 x = true -> b1 = b2.
Proof.
  intros H1 H2 C1 C2. apply contains_spec in C1, C2.
  simpl in H1, H2.
  repeat (destruct H1 as [<-|H1]; [|]); try contradiction;
    repeat (destruct H2 as [<-|H2]; [|]); try contradiction;
    simpl in C1, C2; first [reflexivity | lia].
Qed.

Lemma TIER_BOUNDARIES_range (b : TierBoundary) (x : Z) :
  In b TIER_BOUNDARIES -> contains b x = true -> 1000000 <= x <= 10000000000.
Proof.
  intros H C. apply contains_spec in C. simpl in H.
  repeat (destruct H as [<-|H]; [simpl in C; lia|]). contradiction.
Qed.

End TierTable.

(** C5, as stated, fails: a price of half a dollar is positive and below the
    maximum tier's max, and yet [calculateTierAndPremium] throws. *)
Lemma classify_half_dollar_out_of_range :
  Commitment.calculateTierAndPremium 500000
    = Throw (Commitment.OutOfRangeError 500000)
  /\ ~ (500000 <= 0 \/ 10000000000 < 500000).
Proof. split; [reflexivity | lia]. Qed.

(** C5, amended: a price inside one of the five documented closed boundaries
    gets that boundary's tier and premium; a price below the minimum tier's
    min (one dollar, so every price [x <= 0] too) or above the maximum tier's
    max is an out-of-range error; and no price lies in two boundaries. *)
Theorem classify_documented_boundaries (x : Z) :
  (forall b, In b Commitment.TIER_BOUNDARIES ->
     Commitment.min b <= x <= Commitment.max b ->
     Commitment.calculateTierAndPremium x = Ok (Commitment.tier b, Commitment.premium b))
  /\ (x < 1000000 \/ 10000000000 < x ->
      Commitment.calculateTierAndPremium x = Throw (Commitment.OutOfRangeError x))
  /\ (forall b1 b2, In b1 Commitment.TIER_BOUNDARIES -> In b2 Commitment.TIER_BOUNDARIES ->
      Commitment.min b1 <= x <= Commitment.max b1 ->
      Commitment.min b2 <= x <= Commitment.max b2 -> b1 = b2).
Proof.
  split; [|split].
  - intros b Hin Hx. apply classifyIn_first; auto.
    + now apply contains_spec.
    + intros b' Hb' Hc'. apply (TIER_BOUNDARIES_disjoint b' b x); auto.
      now apply contains_spec.
  - intros Hout. apply classifyIn_none. intros b Hb.
    destruct (Commitment.contains b x) eqn:E; [|reflexivity].
    pose proof (TIER_BOUNDARIES_range b x Hb E). lia.
  - intros b1 b2 H1 H2 C1 C2.
    apply (TIER_BOUNDARIES_disjoint b1 b2 x); auto; now apply contains_spec.
Qed.

(** The scenario of the specification: 199.99 USD falls in the second
    boundary, tier 2 with a premium of 3 USDC. *)
Lemma classify_documented_boundaries_witness :
  Commitment.calculateTierAndPremium 199990000 = Ok (2, 3000000)
  /\ Commitment.calculateTierAndPremium 0 = Throw (Commitment.OutOfRangeError 0).
Proof.
  split.
  - apply (proj1 (classify_documented_boundaries 199990000)
             {| Commitment.min := 100000000; Commitment.max := 499000000;
                Commitment.tier := 2; Commitment.premium := 3000000 |}).
    + simpl. tauto.
    + simpl. lia.
  - apply (proj1 (proj2 (classify_documented_boundaries 0))). lia.
Defined.

(* ===================================================================== *)
(** * Printing and parsing of bigints                                    *)
(* ===================================================================== *)

Section Digits.

Lemma append_cons (c : ascii) (s t : string) : String c s ++ t = String c (s ++ t).
Proof. reflexivity. Qed.

Lemma append_nil (t : string) : EmptyString ++ t = t.
Proof. reflexivity. Qed.

Lemma N_below_16 (d : N) :
  (d < 16)%N -> In d [0;1;2;3;4;5;6;7;8;9;10;11;12;13;14;15]%N.
Proof.
  intros Hlt. rewrite <- (N2Nat.id d).
  assert (Hk : (N.to_nat d < 16)%nat) by lia.
  remember (N.to_nat d) as k. clear - Hk.
  do 16 (destruct k as [|k]; [simpl; tauto|]). lia.
Qed.

Lemma alnumValue_digitChar (d : N) : (d < 16)%N -> alnumValue (digitChar d) = Some d.
Proof.
  intros Hlt. apply N_below_16 in Hlt. simpl in Hlt.
  repeat (destruct Hlt as [<-|Hlt]; [reflexivity|]). contradiction.
Qed.

Lemma digitValue_digitChar (radix d : N) :
  (d < radix)%N -> (radix <= 16)%N -> digitValue radix (digitChar d) = Some d.
Proof.
  intros Hd Hr. unfold digitValue.
  rewrite alnumValue_digitChar by lia.
  apply N.ltb_lt in Hd. now rewrite Hd.
Qed.

Lemma digitChar_notSpace (d : N) : (d < 16)%N -> notSpace (digitChar d) = true.
Proof.
  intros Hlt. apply N_below_16 in Hlt. simpl in Hlt.
  repeat (destruct Hlt as [<-|Hlt]; [reflexivity|]). contradiction.
Qed.

Lemma digitChar_not_space (d : N) : (d < 16)%N -> isWhiteSpace (digitChar d) = false.
Proof.
  intros Hlt. apply N_below_16 in Hlt. simpl in Hlt.
  repeat (destruct Hlt as [<-|Hlt]; [reflexivity|]). contradiction.
Qed.

Lemma parse_digitsAux (radix : N) (fuel : nat) :
  (2 <= radix <= 16)%N ->
  forall (n : N) (acc : string),
    (n < 2 ^ N.of_nat fuel)%N ->
    parseDigitsAux radix (digitsAux radix fuel n acc) 0 = parseDigitsAux radix acc n.
Proof.
  intros Hr. induction fuel as [|fuel IH]; intros n acc Hn.
  - simpl in *. assert (n = 0%N) as -> by lia. reflexivity.
  - assert (Hdiv : (n = radix * (n / radix) + n mod radix)%N)
      by (apply N.div_mod; lia).
    assert (Hmod : (n mod radix < radix)%N) by (apply N.mod_lt; lia).
    simpl. destruct (n / radix =? 0)%N eqn:E.
    + apply N.eqb_eq in E. simpl.
      rewrite digitValue_digitChar by lia.
      f_equal. lia.
    + apply N.eqb_neq in E. rewrite IH.
      * simpl. rewrite digitValue_digitChar by lia. f_equal. lia.
      * rewrite Nat2N.inj_succ, N.pow_succ_r' in Hn.
        apply N.Div0.div_lt_upper_bound. nia.
Qed.

Lemma digitsAux_nonEmpty (radix : N) (fuel : nat) (n : N) (acc : string) :
  nonEmpty acc = true -> nonEmpty (digitsAux radix fuel n acc) = true.
Proof.
  revert n acc. induction fuel as [|fuel IH]; intros n acc Hacc; [exact Hacc|].
  simpl. destruct (n / radix =? 0)%N; [reflexivity|]. now apply IH.
Qed.

Lemma digitsOf_nonEmpty (radix n : N) : nonEmpty (digitsOf radix n) = true.
Proof.
  unfold digitsOf. simpl.
  destruct (n / radix =? 0)%N; [reflexivity|]. now apply digitsAux_nonEmpty.
Qed.

Lemma size_nat_bound (n : N) : (n < 2 ^ N.of_nat (S (N.size_nat n)))%N.
Proof.
  destruct n as [|p]; [reflexivity|].
  rewrite Nat2N.inj_succ, N.pow_succ_r'.
  assert (H : (N.pos p < 2 ^ N.of_nat (N.size_nat (N.pos p)))%N).
  { simpl. induction p as [p IH|p IH|]; simpl Pos.size_nat;
      rewrite ?Nat2N.inj_succ, ?N.pow_succ_r'; lia. }
  lia.
Qed.

(** Parsing what was printed gives the number back. *)
Lemma parseDigits_digitsOf (radix n : N) :
  (2 <= radix <= 16)%N -> parseDigits radix (digitsOf radix n) = Some n.
Proof.
  intros Hr. unfold parseDigits. rewrite digitsOf_nonEmpty.
  unfold digitsOf. rewrite parse_digitsAux; [reflexivity|exact Hr|apply size_nat_bound].
Qed.

Lemma parseDigitsAux_zeros (radix : N) (k : nat) (s : string) :
  (2 <= radix <= 16)%N ->
  parseDigitsAux radix (repeatChar "0"%char k ++ s) 0 = parseDigitsAux radix s 0.
Proof.
  intros Hr. induction k as [|k IH]; [reflexivity|].
  cbn [repeatChar]. rewrite append_cons. cbn [parseDigitsAux].
  change "0"%char with (digitChar 0).
  rewrite (digitValue_digitChar radix 0) by lia. exact IH.
Qed.

End Digits.

Section HexStrings.

Lemma length_append (s t : string) :
  String.length (s ++ t) = (String.length s + String.length t)%nat.
Proof. induction s as [|c s IH]; [reflexivity|]. rewrite append_cons. simpl. now rewrite IH. Qed.

Lemma length_repeatChar (c : ascii) (n : nat) : String.length (repeatChar c n) = n.
Proof. induction n as [|n IH]; simpl; congruence. Qed.

Lemma allChars_append (p : ascii -> bool) (s t : string) :
  allChars p (s ++ t) = allChars p s && allChars p t.
Proof.
  induction s as [|c s IH]; [reflexivity|].
  rewrite append_cons. simpl. rewrite IH. now rewrite andb_assoc.
Qed.

Lemma allChars_repeatChar (p : ascii -> bool) (c : ascii) (n : nat) :
  p c = true -> allChars p (repeatChar c n) = true.
Proof. intros Hc. induction n as [|n IH]; simpl; [reflexivity|]. now rewrite Hc, IH. Qed.

Lemma allChars_digitsAux (p : ascii -> bool) (radix : N) (fuel : nat) :
  (0 < radix)%N ->
  (forall d, (d < radix)%N -> p (digitChar d) = true) ->
  forall n acc, allChars p acc = true -> allChars p (digitsAux radix fuel n acc) = true.
Proof.
  intros Hr Hp. induction fuel as [|fuel IH]; intros n acc Hacc; [exact Hacc|].
  assert (Hd : p (digitChar (n mod radix)) = true) by (apply Hp, N.mod_lt; lia).
  simpl. destruct (n / radix =? 0)%N.
  - simpl. now rewrite Hd, Hacc.
  - apply IH. simpl. now rewrite Hd, Hacc.
Qed.

Lemma length_digitsAux (radix : N) (fuel : nat) :
  (2 <= radix)%N ->
  forall (k : nat) (n : N) (acc : string),
    (n < radix ^ N.of_nat (S k))%N ->
    (String.length (digitsAux radix fuel n acc) <= S k + String.length acc)%nat.
Proof.
  intros Hr. induction fuel as [|fuel IH]; intros k n acc Hn; simpl; [lia|].
  destruct (n / radix =? 0)%N eqn:E; simpl; [lia|].
  apply N.eqb_neq in E.
  destruct k as [|k].
  - exfalso. apply E. apply N.div_small. simpl in Hn. lia.
  - etransitivity; [apply (IH k)|simpl; lia].
    rewrite (Nat2N.inj_succ (S k)), N.pow_succ_r' in Hn.
    apply N.Div0.div_lt_upper_bound. lia.
Qed.

(** No white-space character begins with an ASCII character that is no
    white space. *)
Lemma notSpace_isWhiteSpaceChar (c : ascii) (r : string) :
  notSpace c = true -> isWhiteSpaceChar (String c r) = false.
Proof.
  destruct c as [b0 b1 b2 b3 b4 b5 b6 b7].
  destruct b0, b1, b2, b3, b4, b5, b6, b7; intros H; try discriminate H;
    destruct r as [|b [|c' [|d r]]]; reflexivity.
Qed.

Lemma notSpace_trimStart (c : ascii) (r : string) :
  notSpace c = true -> trimStart (String c r) = String c r.
Proof.
  destruct c as [b0 b1 b2 b3 b4 b5 b6 b7].
  destruct b0, b1, b2, b3, b4, b5, b6, b7; intros H; try discriminate H;
    destruct r as [|b [|c' r]]; reflexivity.
Qed.

Lemma trimEnd_id (s : string) : allChars notSpace s = true -> trimEnd s = s.
Proof.
  induction s as [|c s IH]; [reflexivity|].
  cbn [allChars trimEnd]. intros H. apply andb_true_iff in H as [Hc Hs].
  rewrite (IH Hs). cbv zeta. now rewrite (notSpace_isWhiteSpaceChar c s Hc).
Qed.

Lemma trim_id (s : string) : allChars notSpace s = true -> trim s = s.
Proof.
  intros H. unfold trim.
  assert (Hs : trimStart s = s).
  { destruct s as [|c s]; [reflexivity|]. cbn [allChars] in H.
    apply andb_true_iff in H as [Hc _]. now apply notSpace_trimStart. }
  rewrite Hs. now apply trimEnd_id.
Qed.

Lemma hex64_notSpace (z : Z) : 0 <= z -> allChars notSpace (hex64 z) = true.
Proof.
  intros Hz. unfold hex64, padStart0.
  rewrite !allChars_append. rewrite allChars_repeatChar by reflexivity.
  assert (Hd : allChars notSpace (BigInt_toString 16 z) = true).
  { destruct z as [|p|p]; try lia; unfold BigInt_toString, digitsOf;
      (apply allChars_digitsAux; [lia| |reflexivity]);
      intros d Hlt; now apply digitChar_notSpace. }
  now rewrite Hd.
Qed.

(** Reading a 64-digit hexadecimal text gives back the integer it prints. *)
Lemma BigInt_ofString_hex64 (z : Z) : 0 <= z -> BigInt_ofString (hex64 z) = Some z.
Proof.
  intros Hz. unfold BigInt_ofString.
  rewrite trim_id by now apply hex64_notSpace.
  unfold hex64. rewrite !append_cons, append_nil.
  cbn [nonEmpty negb startsWith Ascii.eqb Bool.eqb andb orb drop].
  unfold parseDigits, padStart0.
  assert (Hto : BigInt_toString 16 z = digitsOf 16 (Z.to_N z))
    by (destruct z; [reflexivity|reflexivity|lia]).
  rewrite Hto.
  assert (Hne : nonEmpty (repeatChar "0"%char (64 - String.length (digitsOf 16 (Z.to_N z)))
                          ++ digitsOf 16 (Z.to_N z)) = true).
  { destruct (64 - String.length (digitsOf 16 (Z.to_N z)))%nat; [|reflexivity].
    rewrite append_nil. apply digitsOf_nonEmpty. }
  rewrite Hne, parseDigitsAux_zeros by lia.
  pose proof (parseDigits_digitsOf 16 (Z.to_N z) ltac:(lia)) as Hp.
  unfold parseDigits in Hp. rewrite digitsOf_nonEmpty in Hp. rewrite Hp.
  simpl. f_equal. lia.
Qed.

(** Below [2^256] the text has exactly 2 + 64 characters. *)
Lemma length_hex64 (z : Z) : 0 <= z < 2 ^ 256 -> String.length (hex64 z) = 66%nat.
Proof.
  intros Hz. unfold hex64, padStart0. rewrite !length_append, length_repeatChar.
  assert (Hto : BigInt_toString 16 z = digitsOf 16 (Z.to_N z))
    by (destruct z; [reflexivity|reflexivity|lia]).
  rewrite Hto.
  assert (Hlen : (String.length (digitsOf 16 (Z.to_N z)) <= 64)%nat).
  { unfold digitsOf.
    pose proof (length_digitsAux 16 (S (N.size_nat (Z.to_N z))) ltac:(lia) 63
                  (Z.to_N z) EmptyString) as H.
    simpl String.length in H. rewrite Nat.add_0_r in H. apply H.
    change (16 ^ N.of_nat 64)%N with (Z.to_N (2 ^ 256)). lia. }
  simpl String.length. lia.
Qed.

End HexStrings.

Section SaltParsing.

Import Commitment.

Lemma isHexDigit_notSpace (c : ascii) : isHexDigit c = true -> notSpace c = true.
Proof.
  destruct c as [b0 b1 b2 b3 b4 b5 b6 b7].
  destruct b0, b1, b2, b3, b4, b5, b6, b7; intros H; try reflexivity; discriminate H.
Qed.

Lemma allChars_impl (p q : ascii -> bool) (s : string) :
  (forall c, p c = true -> q c = true) -> allChars p s = true -> allChars q s = true.
Proof.
  intros Hpq. induction s as [|c s IH]; [reflexivity|]. simpl.
  intros H. apply andb_true_iff in H as [Hc Hs]. now rewrite (Hpq c Hc), (IH Hs).
Qed.

Lemma parseDigitsAux_hex_total (s : string) (acc : N) :
  allChars isHexDigit s = true -> exists n, parseDigitsAux 16 s acc = Some n.
Proof.
  revert acc. induction s as [|c s IH]; intros acc H; [now exists acc|].
  simpl in H. apply andb_true_iff in H as [Hc Hs]. simpl.
  unfold isHexDigit in Hc. destruct (digitValue 16 c) as [d|]; [|discriminate].
  now apply IH.
Qed.

Lemma digitChar_isHexDigit (d : N) : (d < 16)%N -> isHexDigit (digitChar d) = true.
Proof. intros Hd. unfold isHexDigit. now rewrite digitValue_digitChar by lia. Qed.

Lemma byteHex_isHexDigit (b : byte) : allChars isHexDigit (byteHex b) = true.
Proof.
  unfold byteHex, padStart0. rewrite allChars_append.
  rewrite allChars_repeatChar by reflexivity.
  unfold digitsOf. rewrite allChars_digitsAux; auto using digitChar_isHexDigit. lia.
Qed.

Lemma byteHex_nonEmpty (b : byte) : nonEmpty (byteHex b) = true.
Proof.
  unfold byteHex, padStart0.
  destruct (2 - String.length (digitsOf 16 (Byte.to_N b)))%nat; [|reflexivity].
  rewrite append_nil. apply digitsOf_nonEmpty.
Qed.

Lemma saltHex_isHexDigit (saltArray : list byte) :
  allChars isHexDigit (String.concat "" (map byteHex saltArray)) = true.
Proof.
  induction saltArray as [|b rest IH]; [reflexivity|].
  simpl. destruct (map byteHex rest) eqn:E; [apply byteHex_isHexDigit|].
  rewrite append_nil, allChars_append, byteHex_isHexDigit. exact IH.
Qed.

Lemma nonEmpty_append_l (s t : string) : nonEmpty s = true -> nonEmpty (s ++ t) = true.
Proof. destruct s; [discriminate|reflexivity]. Qed.

Lemma saltHex_nonEmpty (saltArray : list byte) :
  saltArray <> [] -> nonEmpty (String.concat "" (map byteHex saltArray)) = true.
Proof.
  destruct saltArray as [|b rest]; [congruence|]. intros _.
  simpl. destruct (map byteHex rest); [apply byteHex_nonEmpty|].
  apply nonEmpty_append_l, byteHex_nonEmpty.
Qed.

(** The salt text always reads back as a non-negative integer. *)
Lemma salt_parses (saltArray : list byte) :
  saltArray <> [] ->
  exists salt, BigInt_ofString ("0x" ++ String.concat "" (map byteHex saltArray)) = Some salt
               /\ 0 <= salt.
Proof.
  intros Hne. unfold BigInt_ofString.
  rewrite trim_id.
  - rewrite !append_cons, append_nil.
    cbn [nonEmpty negb startsWith Ascii.eqb Bool.eqb andb orb drop].
    unfold parseDigits. rewrite saltHex_nonEmpty by exact Hne.
    destruct (parseDigitsAux_hex_total _ 0%N (saltHex_isHexDigit saltArray)) as [n Hn].
    rewrite Hn. exists (Z.of_N n). split; [reflexivity|lia].
  - rewrite allChars_append. simpl.
    apply (allChars_impl isHexDigit), saltHex_isHexDigit. apply isHexDigit_notSpace.
Qed.

End SaltParsing.

(* ===================================================================== *)
(** * The commitment                                                     *)
(* ===================================================================== *)

Section CommitmentProperties.

Import Commitment.

Variable keccak256 : string -> Z.
Variable poseidon : list Z -> Z.
Variable Date_getTime : string -> number.

Hypothesis keccak256_range : forall s, 0 <= keccak256 s.
Hypothesis poseidon_range : forall xs, 0 <= poseidon xs < 2 ^ 256.

(** The run of [buildCommitment] on a valid invoice, step by step. *)
Lemma buildCommitment_run
    (invoiceData : InvoiceData) (saltArray : list byte) (price date saltBig : Z) (tp : Z * Z) :
  BigInt_ofNumber (Math_round (mul (purchasePriceUsd invoiceData) (Number_ofZ TOKEN_MULTIPLIER)))
    = Some price ->
  calculateTierAndPremium price = Ok tp ->
  BigInt_ofNumber (Math_floor (div (Date_getTime (purchaseDate invoiceData)) (Number_ofZ 1000)))
    = Some date ->
  BigInt_ofString ("0x" ++ String.concat "" (map byteHex saltArray)) = Some saltBig ->
  buildCommitment keccak256 poseidon Date_getTime invoiceData saltArray =
  Ok {| commitment :=
          hex64 (poseidon [keccak256 (orderNumber invoiceData); price; date;
                           poseidon [keccak256 (productId invoiceData)]; saltBig; fst tp]);
        details :=
          {| orderHash := hex64 (keccak256 (orderNumber invoiceData));
             invoicePrice := price;
             invoiceDate :=
               Math_floor (div (Date_getTime (purchaseDate invoiceData)) (Number_ofZ 1000));
             productHash := poseidon [keccak256 (productId invoiceData)];
             salt := saltBig;
             selectedTier := fst tp |};
        resultTier := fst tp;
        resultPremium := snd tp |}.
Proof.
  intros Hprice Htier Hdate Hsalt.
  unfold buildCommitment.
  rewrite Hprice. cbn [mbind result_bind bind orThrow].
  unfold keccak256Hex.
  change ("0x" ++ padStart0 64 (BigInt_toString 16 (keccak256 (productId invoiceData))))
    with (hex64 (keccak256 (productId invoiceData))).
  change ("0x" ++ padStart0 64 (BigInt_toString 16 (keccak256 (orderNumber invoiceData))))
    with (hex64 (keccak256 (orderNumber invoiceData))).
  rewrite (BigInt_ofString_hex64 _ (keccak256_range _)). cbn [mbind result_bind bind orThrow].
  rewrite Hsalt. cbn [mbind result_bind bind orThrow].
  rewrite Htier. cbn [mbind result_bind bind orThrow].
  cbn [Commitment.orderHash Commitment.invoiceDate Commitment.invoicePrice
       Commitment.productHash Commitment.salt selectedTier].
  rewrite (BigInt_ofString_hex64 _ (keccak256_range _)). cbn [mbind result_bind bind orThrow].
  rewrite Hdate. cbn [mbind result_bind bind orThrow].
  reflexivity.
Qed.

(** C4.  For a valid invoice (the price in micro-units is an integer that
    the tier table classifies, and the purchase date is a valid date) and
    the 32 salt bytes drawn, [buildCommitment] returns a result whose
    commitment is the Poseidon hash of the six fields of the opening it
    returns, in the order order hash, price, date, product hash, salt, tier,
    printed as [0x] and exactly 64 hexadecimal digits that read back
    (most significant digit first) as that hash; the same invoice and the
    same salt bytes give the same result. *)
Theorem buildCommitment_poseidon_hex64
    (invoiceData : InvoiceData) (saltArray : list byte) (price date : Z) (tp : Z * Z) :
  length saltArray = 32%nat ->
  BigInt_ofNumber (Math_round (mul (purchasePriceUsd invoiceData) (Number_ofZ TOKEN_MULTIPLIER)))
    = Some price ->
  calculateTierAndPremium price = Ok tp ->
  BigInt_ofNumber (Math_floor (div (Date_getTime (purchaseDate invoiceData)) (Number_ofZ 1000)))
    = Some date ->
  exists (r : CommitmentResult) (orderHashBig : Z),
    buildCommitment keccak256 poseidon Date_getTime invoiceData saltArray = Ok r
    /\ BigInt_ofString (orderHash (details r)) = Some orderHashBig
    /\ BigInt_ofNumber (invoiceDate (details r)) = Some date
    /\ invoicePrice (details r) = price
    /\ selectedTier (details r) = fst tp
    /\ (let hash := poseidon [orderHashBig; invoicePrice (details r); date;
                             productHash (details r); salt (details r);
                             selectedTier (details r)] in
        commitment r = "0x" ++ padStart0 64 (BigInt_toString 16 hash)
        /\ String.length (commitment r) = (2 + 64)%nat
        /\ BigInt_ofString (commitment r) = Some hash)
    /\ (forall saltArray', saltArray' = saltArray ->
        buildCommitment keccak256 poseidon Date_getTime invoiceData saltArray' = Ok r).
Proof.
  intros Hlen Hprice Htier Hdate.
  destruct (salt_parses saltArray) as [saltBig [Hsalt _]].
  { intros ->. discriminate Hlen. }
  pose proof (buildCommitment_run invoiceData saltArray price date saltBig tp
                Hprice Htier Hdate Hsalt) as Hrun.
  eexists. exists (keccak256 (orderNumber invoiceData)).
  split; [exact Hrun|].
  cbn [details commitment Commitment.orderHash Commitment.invoiceDate
       Commitment.invoicePrice Commitment.productHash Commitment.salt selectedTier].
  split; [apply BigInt_ofString_hex64, keccak256_range|].
  split; [exact Hdate|].
  split; [reflexivity|].
  split; [reflexivity|].
  split.
  - split; [reflexivity|].
    split; [apply length_hex64, poseidon_range|].
    apply BigInt_ofString_hex64, poseidon_range.
  - intros saltArray' ->. exact Hrun.
Qed.

End CommitmentProperties.

(** The scenario of the specification, with stand-ins for the two hash
    primitives: order A1, 199.99 USD, product X1. *)
Lemma buildCommitment_poseidon_hex64_witness :
  let keccak256 := fun s : string => Z.of_nat (String.length s) in
  let poseidon := fun xs : list Z => fold_right Z.add 0 xs mod 2 ^ 256 in
  let Date_getTime := fun _ : string => Number_ofZ 1700000000000 in
  let invoiceData :=
    {| Commitment.orderNumber := "A1";
       Commitment.purchasePriceUsd := div (Number_ofZ 19999) (Number_ofZ 100);
       Commitment.purchaseDate := "2023-11-14T22:13:20Z";
       Commitment.productId := "X1" |} in
  exists r,
    Commitment.buildCommitment keccak256 poseidon Date_getTime invoiceData (repeat x2a 32) = Ok r
    /\ Commitment.resultTier r = 2
    /\ Commitment.resultPremium r = 3000000
    /\ String.length (Commitment.commitment r) = 66%nat.
Proof.
  intros keccak256 poseidon Date_getTime invoiceData.
  destruct (buildCommitment_poseidon_hex64 keccak256 poseidon Date_getTime
              (fun s => Nat2Z.is_nonneg (String.length s))
              (fun xs => Z.mod_pos_bound (fold_right Z.add 0 xs) (2 ^ 256) eq_refl)
              invoiceData (repeat x2a 32) 199990000 1700000000 (2, 3000000)
              eq_refl eq_refl eq_refl eq_refl)
    as (r & orderHashBig & Hrun & _ & _ & _ & _ & (Hc & Hlen & _) & _).
  exists r. split; [exact Hrun|].
  assert (Hr : Ok r = Commitment.buildCommitment keccak256 poseidon Date_getTime
                        invoiceData (repeat x2a 32)) by (symmetry; exact Hrun).
  vm_compute in Hr. injection Hr as ->. repeat split.
Defined.

(* ===================================================================== *)
(** * White space, trimming and lower-casing                             *)
(* ===================================================================== *)

Section WhiteSpace.

Ltac each_char c :=
  destruct c as [b0 b1 b2 b3 b4 b5 b6 b7];
  destruct b0, b1, b2, b3, b4, b5, b6, b7.

Lemma lowerChar_not_ascii (c : ascii) : isAscii c = false -> lowerChar c = c.
Proof. each_char c; intros H; try reflexivity; discriminate H. Qed.

Lemma isAscii_lowerChar (c : ascii) : isAscii (lowerChar c) = isAscii c.
Proof. each_char c; reflexivity. Qed.

Lemma isWhiteSpace_lowerChar (c : ascii) : isWhiteSpace (lowerChar c) = isWhiteSpace c.
Proof. each_char c; reflexivity. Qed.

(** The bytes of a white-space character of two or three bytes are no ASCII
    characters, so lower-casing leaves them alone. *)
Lemma isWhiteSpace2_not_ascii (a b : ascii) :
  isWhiteSpace2 a b = true -> isAscii a = false /\ isAscii b = false.
Proof.
  unfold isWhiteSpace2. intros H. apply andb_true_iff in H as [Ha Hb].
  apply Nat.eqb_eq in Ha, Hb. unfold isAscii. rewrite Ha, Hb. split; reflexivity.
Qed.

Lemma isWhiteSpace3_not_ascii (a b c : ascii) :
  isWhiteSpace3 a b c = true ->
  isAscii a = false /\ isAscii b = false /\ isAscii c = false.
Proof.
  unfold isWhiteSpace3, inRange, isAscii. intros H.
  repeat match type of H with
         | (_ || _) = true => apply orb_true_iff in H as [H|H]
         end;
    repeat match goal with
           | H : (_ && _) = true |- _ => apply andb_true_iff in H as [? ?]
           | H : (_ || _) = true |- _ => apply orb_true_iff in H as [H|H]
           | H : Nat.eqb _ _ = true |- _ => apply Nat.eqb_eq in H
           | H : Nat.leb _ _ = true |- _ => apply Nat.leb_le in H
           end;
    repeat split; apply Nat.ltb_ge; lia.
Qed.

Lemma isWhiteSpace2_lowerChar (a b : ascii) :
  isWhiteSpace2 (lowerChar a) (lowerChar b) = isWhiteSpace2 a b.
Proof.
  destruct (isWhiteSpace2 a b) eqn:E.
  - destruct (isWhiteSpace2_not_ascii _ _ E) as [Ha Hb].
    now rewrite (lowerChar_not_ascii a Ha), (lowerChar_not_ascii b Hb).
  - destruct (isWhiteSpace2 (lowerChar a) (lowerChar b)) eqn:E'; [|reflexivity].
    destruct (isWhiteSpace2_not_ascii _ _ E') as [Ha Hb].
    rewrite isAscii_lowerChar in Ha, Hb.
    rewrite (lowerChar_not_ascii a Ha), (lowerChar_not_ascii b Hb) in E'. congruence.
Qed.

Lemma isWhiteSpace3_lowerChar (a b c : ascii) :
  isWhiteSpace3 (lowerChar a) (lowerChar b) (lowerChar c) = isWhiteSpace3 a b c.
Proof.
  destruct (isWhiteSpace3 a b c) eqn:E.
  - destruct (isWhiteSpace3_not_ascii _ _ _ E) as (Ha & Hb & Hc).
    now rewrite (lowerChar_not_ascii a Ha), (lowerChar_not_ascii b Hb),
      (lowerChar_not_ascii c Hc).
  - destruct (isWhiteSpace3 (lowerChar a) (lowerChar b) (lowerChar c)) eqn:E';
      [|reflexivity].
    destruct (isWhiteSpace3_not_ascii _ _ _ E') as (Ha & Hb & Hc).
    rewrite isAscii_lowerChar in Ha, Hb, Hc.
    rewrite (lowerChar_not_ascii a Ha), (lowerChar_not_ascii b Hb),
      (lowerChar_not_ascii c Hc) in E'. congruence.
Qed.

Lemma isWhiteSpaceChar_toLowerCase (s : string) :
  isWhiteSpaceChar (toLowerCase s) = isWhiteSpaceChar s.
Proof.
  destruct s as [|a [|b [|c [|d r]]]]; cbn [toLowerCase mapChars isWhiteSpaceChar];
    auto using isWhiteSpace_lowerChar, isWhiteSpace2_lowerChar, isWhiteSpace3_lowerChar.
Qed.

(** Induction on the length of a string, for the functions that look up to
    three bytes ahead. *)
Lemma string_length_ind (P : string -> Prop) :
  (forall s, (forall t, (String.length t < String.length s)%nat -> P t) -> P s) ->
  forall s, P s.
Proof.
  intros Hstep s.
  assert (H : forall n t, (String.length t < n)%nat -> P t).
  { induction n as [|n IH]; intros t Ht; [lia|].
    apply Hstep. intros u Hu. apply IH. lia. }
  apply (H (S (String.length s))). lia.
Qed.

Lemma trimStart_toLowerCase (s : string) :
  trimStart (toLowerCase s) = toLowerCase (trimStart s).
Proof.
  induction s as [s IH] using string_length_ind.
  destruct s as [|a r]; [reflexivity|].
  cbn [toLowerCase mapChars trimStart]. fold (toLowerCase r).
  rewrite isWhiteSpace_lowerChar.
  destruct (isWhiteSpace a); [apply IH; simpl; lia|].
  destruct r as [|b r2]; [reflexivity|].
  cbn [toLowerCase mapChars]. fold (toLowerCase r2).
  rewrite isWhiteSpace2_lowerChar.
  destruct (isWhiteSpace2 a b); [apply IH; simpl; lia|].
  destruct r2 as [|c r3]; [reflexivity|].
  cbn [toLowerCase mapChars]. fold (toLowerCase r3).
  rewrite isWhiteSpace3_lowerChar.
  destruct (isWhiteSpace3 a b c); [apply IH; simpl; lia|reflexivity].
Qed.

Lemma trimEnd_toLowerCase (s : string) :
  trimEnd (toLowerCase s) = toLowerCase (trimEnd s).
Proof.
  induction s as [|c s IH]; [reflexivity|].
  cbn [toLowerCase mapChars trimEnd]. fold (toLowerCase s). rewrite IH. cbv zeta.
  change (String (lowerChar c) (toLowerCase (trimEnd s)))
    with (toLowerCase (String c (trimEnd s))).
  rewrite isWhiteSpaceChar_toLowerCase.
  destruct (isWhiteSpaceChar (String c (trimEnd s))); reflexivity.
Qed.

Lemma trim_toLowerCase (s : string) : trim (toLowerCase s) = toLowerCase (trim s).
Proof. unfold trim. now rewrite trimStart_toLowerCase, trimEnd_toLowerCase. Qed.

(** ** Trimming twice *)

Lemma length_trimStart (s : string) :
  (String.length (trimStart s) <= String.length s)%nat.
Proof.
  induction s as [s IH] using string_length_ind.
  destruct s as [|a r]; [reflexivity|]. cbn [trimStart].
  destruct (isWhiteSpace a); [etransitivity; [apply IH|]; simpl; lia|].
  destruct r as [|b r2]; [reflexivity|].
  destruct (isWhiteSpace2 a b); [etransitivity; [apply IH|]; simpl; lia|].
  destruct r2 as [|c r3]; [reflexivity|].
  destruct (isWhiteSpace3 a b c); [etransitivity; [apply IH|]; simpl; lia|reflexivity].
Qed.

Lemma trimStart_fixed (s : string) : trimStart (trimStart s) = trimStart s.
Proof.
  induction s as [s IH] using string_length_ind.
  destruct s as [|a r]; [reflexivity|].
  cbn [trimStart].
  destruct (isWhiteSpace a) eqn:E1; [apply IH; simpl; lia|].
  destruct r as [|b r2]; [cbn [trimStart]; now rewrite E1|].
  destruct (isWhiteSpace2 a b) eqn:E2; [apply IH; simpl; lia|].
  destruct r2 as [|c r3]; [cbn [trimStart]; now rewrite E1, E2|].
  destruct (isWhiteSpace3 a b c) eqn:E3; [apply IH; simpl; lia|].
  cbn [trimStart]. now rewrite E1, E2, E3.
Qed.

Lemma trimEnd_fixed (s : string) : trimEnd (trimEnd s) = trimEnd s.
Proof.
  induction s as [|c s IH]; [reflexivity|].
  cbn [trimEnd]. cbv zeta.
  destruct (isWhiteSpaceChar (String c (trimEnd s))) eqn:E; [reflexivity|].
  cbn [trimEnd]. cbv zeta. now rewrite IH, E.
Qed.

(** What [trimEnd] returns is the beginning of its argument. *)
Lemma trimEnd_startsWith (s : string) : startsWith (trimEnd s) s = true.
Proof.
  induction s as [|c s IH]; [reflexivity|]. cbn [trimEnd]. cbv zeta.
  destruct (isWhiteSpaceChar _); [reflexivity|].
  cbn [startsWith]. now rewrite Ascii.eqb_refl, IH.
Qed.

(** A string that [trimStart] leaves alone begins with no white-space
    character, of one, two or three bytes. *)
Lemma trimStart_self_head (a : ascii) (r : string) :
  trimStart (String a r) = String a r ->
  isWhiteSpace a = false
  /\ (forall b r2, r = String b r2 -> isWhiteSpace2 a b = false
        /\ forall c r3, r2 = String c r3 -> isWhiteSpace3 a b c = false).
Proof.
  intros H.
  assert (Hlen : forall t, (String.length t < String.length (String a r))%nat ->
                           trimStart t <> String a r).
  { intros t Ht Heq. pose proof (length_trimStart t) as Hl. rewrite Heq in Hl. lia. }
  cbn [trimStart] in H.
  destruct (isWhiteSpace a); [exfalso; apply (Hlen r); [simpl; lia|exact H]|].
  split; [reflexivity|]. intros b r2 ->.
  destruct (isWhiteSpace2 a b); [exfalso; apply (Hlen r2); [simpl; lia|exact H]|].
  split; [reflexivity|]. intros c r3 ->.
  destruct (isWhiteSpace3 a b c); [exfalso; apply (Hlen r3); [simpl; lia|exact H]|].
  reflexivity.
Qed.

Lemma startsWith_cons (a : ascii) (p s : string) :
  startsWith (String a p) s = true -> exists s', s = String a s' /\ startsWith p s' = true.
Proof.
  destruct s as [|b s']; [discriminate|]. cbn [startsWith]. intros H.
  apply andb_true_iff in H as [Hab Hp]. apply Ascii.eqb_eq in Hab as ->. now exists s'.
Qed.

Lemma trimStart_startsWith (p s : string) :
  startsWith p s = true -> trimStart s = s -> trimStart p = p.
Proof.
  intros Hp Hs. destruct p as [|a p]; [reflexivity|].
  destruct (startsWith_cons _ _ _ Hp) as (s1 & -> & Hp1).
  destruct (trimStart_self_head a s1 Hs) as [H1 H23].
  cbn [trimStart]. rewrite H1.
  destruct p as [|b p]; [reflexivity|].
  destruct (startsWith_cons _ _ _ Hp1) as (s2 & -> & Hp2).
  destruct (H23 b s2 eq_refl) as [H2 H3]. rewrite H2.
  destruct p as [|c p]; [reflexivity|].
  destruct (startsWith_cons _ _ _ Hp2) as (s3 & -> & Hp3).
  now rewrite (H3 c s3 eq_refl).
Qed.

Lemma trimStart_trimEnd (s : string) :
  trimStart s = s -> trimStart (trimEnd s) = trimEnd s.
Proof. intros H. exact (trimStart_startsWith _ _ (trimEnd_startsWith s) H). Qed.

(** Trimming twice is trimming once. *)
Lemma trim_trim (s : string) : trim (trim s) = trim s.
Proof.
  unfold trim.
  rewrite (trimStart_trimEnd (trimStart s) (trimStart_fixed s)).
  apply trimEnd_fixed.
Qed.

(** ** Strings of white space only *)

Lemma allWhiteSpace_trimStart (s : string) :
  allWhiteSpace s = true <-> trimStart s = "".
Proof.
  induction s as [s IH] using string_length_ind.
  destruct s as [|a r]; [split; reflexivity|].
  cbn [allWhiteSpace trimStart].
  destruct (isWhiteSpace a); [apply IH; simpl; lia|].
  destruct r as [|b r2]; [split; discriminate|].
  destruct (isWhiteSpace2 a b); [apply IH; simpl; lia|].
  destruct r2 as [|c r3]; [split; discriminate|].
  destruct (isWhiteSpace3 a b c); [apply IH; simpl; lia|split; discriminate].
Qed.

Lemma trimEnd_empty (s : string) : trimStart s = s -> trimEnd s = "" -> s = "".
Proof.
  intros Hs He. destruct s as [|a r]; [reflexivity|]. exfalso.
  destruct (trimStart_self_head a r Hs) as [H1 H23].
  cbn [trimEnd] in He. cbv zeta in He.
  pose proof (trimEnd_startsWith r) as Hp.
  destruct (isWhiteSpaceChar (String a (trimEnd r))) eqn:E; [|discriminate He].
  destruct (trimEnd r) as [|b [|c [|d t]]]; cbn [isWhiteSpaceChar] in E.
  - congruence.
  - destruct (startsWith_cons _ _ _ Hp) as (r2 & -> & _).
    destruct (H23 b r2 eq_refl) as [H2 _]. congruence.
  - destruct (startsWith_cons _ _ _ Hp) as (r2 & -> & Hp2).
    destruct (startsWith_cons _ _ _ Hp2) as (r3 & -> & _).
    destruct (H23 b _ eq_refl) as [_ H3]. specialize (H3 c r3 eq_refl). congruence.
  - discriminate E.
Qed.

(** [trim] returns the empty string exactly on the strings of white space
    only. *)
Lemma trim_empty (s : string) : trim s = "" <-> allWhiteSpace s = true.
Proof.
  rewrite allWhiteSpace_trimStart. unfold trim. split.
  - intros H. exact (trimEnd_empty _ (trimStart_fixed s) H).
  - intros ->. reflexivity.
Qed.

End WhiteSpace.

(* ===================================================================== *)
(** * The field encoder                                                  *)
(* ===================================================================== *)

Section FieldEncoder.

Import ClaimProof.

(** C7, as stated, fails: the text [abc] is no integer literal, and it is
    encoded as itself, not as the field zero. *)
Lemma toFieldString_unparseable_not_zero :
  BigInt_ofString "abc" = None
  /\ toFieldString (VString "abc") = Ok "abc"
  /\ toFieldString (VString "abc") <> Ok "0".
Proof. repeat split. discriminate. Qed.

(** C7, amended: on a string the encoder always returns.  A string of white
    space only, the empty string among them, encodes to ["0"].  Of any other
    string the trimmed text is taken: when it has the prefix [0x] or [0X] and
    reads as an integer, the decimal text of that integer is returned;
    otherwise the trimmed text itself, so that the result is ["0"] for no
    text that does not read as an integer. *)
Theorem toFieldString_string_total (s : string) :
  exists out,
    toFieldString (VString s) = Ok out
    /\ (allWhiteSpace s = true -> out = "0")
    /\ (forall z, allWhiteSpace s = false -> hasHexPrefix (trim s) = true ->
                  BigInt_ofString (trim s) = Some z -> out = BigInt_toString 10 z)
    /\ (allWhiteSpace s = false ->
        hasHexPrefix (trim s) = false \/ BigInt_ofString (trim s) = None ->
        out = trim s /\ (BigInt_ofString (trim s) = None -> out <> "0")).
Proof.
  unfold toFieldString, hasHexPrefix. cbv zeta.
  destruct (allWhiteSpace s) eqn:Ews.
  - rewrite (proj2 (trim_empty s) Ews). exists "0". repeat split; congruence.
  - assert (Hne : trim s <> "").
    { intros H. apply trim_empty in H. congruence. }
    destruct (trim s) as [|c t] eqn:Et; [congruence|].
    cbn [nonEmpty negb].
    destruct (startsWith "0x" (String c t) || startsWith "0X" (String c t)) eqn:Ehex.
    + destruct (BigInt_ofString (String c t)) as [z|] eqn:Ebig.
      * exists (BigInt_toString 10 z). split; [reflexivity|]. split; [discriminate|].
        split; [intros z' _ _ Hz'; congruence|].
        intros _ [H|H]; discriminate H.
      * exists (String c t). split; [reflexivity|]. split; [discriminate|].
        split; [intros z' _ _ Hz'; discriminate Hz'|].
        intros _ _. split; [reflexivity|]. intros _ H0. rewrite H0 in Ebig.
        discriminate Ebig.
    + exists (String c t). split; [reflexivity|]. split; [discriminate|].
      split; [intros z' _ Hp; discriminate Hp|].
      intros _ _. split; [reflexivity|]. intros Hnone H0. rewrite H0 in Hnone.
      discriminate Hnone.
Qed.

Lemma toFieldString_string_total_witness :
  toFieldString (VString "  ") = Ok "0"
  /\ toFieldString (VString Examples.nbsp) = Ok "0"
  /\ toFieldString (VString " 0x1F ") = Ok "31"
  /\ toFieldString (VString "0xZZ") = Ok "0xZZ".
Proof.
  split; [|split; [|split]].
  - destruct (toFieldString_string_total "  ") as (out & -> & H0 & _).
    now rewrite H0.
  - destruct (toFieldString_string_total Examples.nbsp) as (out & -> & H0 & _).
    now rewrite H0.
  - destruct (toFieldString_string_total " 0x1F ") as (out & -> & _ & H1 & _).
    rewrite (H1 31); reflexivity.
  - destruct (toFieldString_string_total "0xZZ") as (out & -> & _ & _ & H2).
    destruct H2 as [-> _]; [reflexivity|right; reflexivity|reflexivity].
Defined.

End FieldEncoder.

(* ===================================================================== *)
(** * Numbers: the sign of a converted integer                           *)
(* ===================================================================== *)

Section NumberSign.

Lemma digits_shr_1 (s : shr_record) :
  Zdigits2 (shr_m (shr_1 s)) = Z.max 0 (Zdigits2 (shr_m s) - 1).
Proof.
  destruct s as [m r t]. destruct m as [|p|p]; [reflexivity| |];
    destruct p; simpl; lia.
Qed.

Lemma digits_iter_shr_1 (p : positive) (s : shr_record) :
  Zdigits2 (shr_m (SpecFloat.iter_pos shr_1 p s)) = Z.max 0 (Zdigits2 (shr_m s) - Zpos p).
Proof.
  revert s. induction p as [p IH|p IH|]; intros s; simpl SpecFloat.iter_pos.
  - rewrite !IH, digits_shr_1. lia.
  - rewrite !IH. lia.
  - apply digits_shr_1.
Qed.

Lemma nonneg_shr_1 (s : shr_record) : 0 <= shr_m s -> 0 <= shr_m (shr_1 s).
Proof.
  destruct s as [m r t]. destruct m as [|p|p]; simpl; intros H; try lia;
    destruct p; simpl; lia.
Qed.

Lemma nonneg_iter_shr_1 (p : positive) (s : shr_record) :
  0 <= shr_m s -> 0 <= shr_m (SpecFloat.iter_pos shr_1 p s).
Proof.
  revert s. induction p as [p IH|p IH|]; intros s H; simpl SpecFloat.iter_pos.
  - apply IH, IH, nonneg_shr_1, H.
  - apply IH, IH, H.
  - apply nonneg_shr_1, H.
Qed.

Lemma digits_positive (m : Z) : 0 <= m -> 0 < Zdigits2 m -> 0 < m.
Proof. destruct m; simpl; lia. Qed.

Lemma positive_digits (m : Z) : 0 < m -> 1 <= Zdigits2 m.
Proof. destruct m; simpl; lia. Qed.

Lemma shr_m_of_loc (m : Z) (l : location) : shr_m (shr_record_of_loc m l) = m.
Proof. destruct l as [|[]]; reflexivity. Qed.

(** Away from the subnormal range the rounding shift keeps a positive
    mantissa positive. *)
Lemma shr_fexp_positive (m e : Z) (l : location) :
  0 < m -> -1000 <= e ->
  0 < shr_m (fst (shr_fexp prec emax m e l)) /\ e <= snd (shr_fexp prec emax m e l).
Proof.
  intros Hm He. pose proof (positive_digits m Hm) as Hd.
  unfold shr_fexp, shr.
  assert (Hn : fexp prec emax (Zdigits2 m + e) - e = Zdigits2 m - 53)
    by (unfold fexp, SpecFloat.emin, prec, emax; lia).
  rewrite Hn.
  destruct (Zdigits2 m - 53) as [|k|k] eqn:Ek; simpl fst; simpl snd;
    rewrite ?shr_m_of_loc; try (split; lia).
  split; [|lia].
  apply digits_positive.
  - apply nonneg_iter_shr_1. rewrite shr_m_of_loc. lia.
  - rewrite digits_iter_shr_1, shr_m_of_loc. lia.
Qed.

Lemma round_nearest_even_positive (m : Z) (l : location) :
  0 < m -> 0 < round_nearest_even m l.
Proof. intros Hm. destruct l as [|[]]; simpl; try destruct (Z.even m); lia. Qed.

Lemma binary_round_aux_positive (m : positive) (e : Z) :
  -1000 <= e -> isPositive (binary_round_aux prec emax false (Zpos m) e loc_Exact) = true.
Proof.
  intros He. unfold binary_round_aux.
  destruct (shr_fexp_positive (Zpos m) e loc_Exact ltac:(lia) He) as [H1 H1e].
  destruct (shr_fexp prec emax (Zpos m) e loc_Exact) as [mrs' e'].
  simpl fst in H1; simpl snd in H1e.
  pose proof (round_nearest_even_positive (shr_m mrs') (loc_of_shr_record mrs') H1) as H2.
  destruct (shr_fexp_positive _ e' loc_Exact H2 ltac:(lia)) as [H3 _].
  destruct (shr_fexp prec emax _ e' loc_Exact) as [mrs'' e''].
  simpl fst in H3.
  destruct (shr_m mrs'') as [|q|q]; try lia.
  destruct (e'' <=? emax - prec); reflexivity.
Qed.

(** A positive integer converts to a positive number. *)
Lemma Number_ofZ_positive (z : Z) : 0 < z -> isPositive (Number_ofZ z) = true.
Proof.
  intros Hz. destruct z as [|p|p]; try lia.
  unfold Number_ofZ, binary_normalize, binary_round, shl_align.
  destruct (fexp prec emax (Z.pos (digits2_pos p) + 0) - 0) as [|k|k] eqn:Ek;
    try (apply binary_round_aux_positive; lia).
  apply binary_round_aux_positive.
  unfold fexp, SpecFloat.emin, prec, emax in *. lia.
Qed.

Lemma gt_zero_of_positive (x : number) : isPositive x = true -> gt x (Number_ofZ 0) = true.
Proof.
  destruct x as [s|s| |s m e]; try destruct s; intros H; try discriminate H; reflexivity.
Qed.

Lemma Number_ofZ_gt_zero (z : Z) : gt (Number_ofZ z) (Number_ofZ 0) = (0 <? z).
Proof.
  destruct (Z.ltb_spec 0 z) as [H|H].
  - apply gt_zero_of_positive, Number_ofZ_positive, H.
  - destruct z as [|p|p]; [reflexivity|lia|].
    assert (Hneg : forall x, isPositive (SFopp x) = true -> gt x (Number_ofZ 0) = false).
    { intros [s|s| |s m e]; try destruct s; intros Hx; try discriminate Hx; reflexivity. }
    apply Hneg.
    pose proof (Number_ofZ_positive (Zpos p) ltac:(lia)) as Hp.
    unfold Number_ofZ, binary_normalize, binary_round in *.
    destruct (shl_align p 0 (fexp prec emax (Z.pos (digits2_pos p) + 0))) as [mz ez].
    unfold binary_round_aux in *.
    destruct (shr_fexp prec emax (Z.pos mz) ez loc_Exact) as [mrs' e'].
    destruct (shr_fexp prec emax _ e' loc_Exact) as [mrs'' e''].
    destruct (shr_m mrs'') as [|q|q]; try discriminate Hp.
    destruct (e'' <=? emax - prec); reflexivity.
Qed.

End NumberSign.

(* ===================================================================== *)
(** * Eligibility                                                        *)
(* ===================================================================== *)

Section Eligibility.

Import OracleClient.

Context {engine : CaseConversion}.

(** What a successful [checkEligibility] went through. *)
Lemma checkEligibility_Ok_inv (oracle : Oracle) (productId : string) (originalPrice : Z)
    (threshold : number) (r : EligibilityResult.t) :
  checkEligibility oracle productId originalPrice threshold = Ok r ->
  exists response entry proof currentPrice,
    getOraclePrices oracle = Ok response
    /\ List.find (matchesProduct productId) (OraclePricesResponse.prices response) = Some entry
    /\ getMerkleProof oracle (OraclePrice.id entry) = Ok proof
    /\ BigInt_ofNumber (OraclePrice.currentPrice entry) = Some currentPrice
    /\ checkEligibility oracle productId originalPrice threshold =
       (let dropAmount :=
          if originalPrice >? currentPrice then originalPrice - currentPrice else 0 in
        let dropPercentage :=
          if gt (Number_ofZ originalPrice) (Number_ofZ 0)
          then mul (div (Number_ofZ dropAmount) (Number_ofZ originalPrice)) (Number_ofZ 100)
          else Number_ofZ 0 in
        Ok {| EligibilityResult.eligible := (dropAmount >? 0) && ge dropPercentage threshold;
              EligibilityResult.dropPercentage :=
                div (Math_round (mul dropPercentage (Number_ofZ 100))) (Number_ofZ 100);
              EligibilityResult.dropAmount := BigInt_toString 10 dropAmount;
              EligibilityResult.currentPrice := BigInt_toString 10 currentPrice;
              EligibilityResult.merkleRoot := OraclePricesResponse.merkleRoot response;
              EligibilityResult.proof := proof;
              EligibilityResult.payoutAmount := BigInt_toString 10 dropAmount |}).
Proof.
  intros H.
  assert (Hdef := eq_refl (checkEligibility oracle productId originalPrice threshold)).
  unfold checkEligibility at 2 in Hdef. unfold checkEligibility in H.
  destruct (getOraclePrices oracle) as [response|e] eqn:E1; [|discriminate H].
  cbn [mbind result_bind bind] in H, Hdef.
  destruct (List.find (matchesProduct productId) (OraclePricesResponse.prices response))
    as [entry|] eqn:E2; [|discriminate H].
  cbn [mbind result_bind bind orThrow] in H, Hdef.
  destruct (getMerkleProof oracle (OraclePrice.id entry)) as [proof|e] eqn:E3;
    [|discriminate H].
  cbn [mbind result_bind bind orThrow] in H, Hdef.
  destruct (BigInt_ofNumber (OraclePrice.currentPrice entry)) as [currentPrice|] eqn:E4;
    [|discriminate H].
  cbn [mbind result_bind bind orThrow] in Hdef.
  exists response, entry, proof, currentPrice.
  split; [reflexivity|]. split; [exact E2|]. split; [exact E3|]. split; [exact E4|].
  exact Hdef.
Qed.

Lemma drop_is_max (originalPrice currentPrice : Z) :
  (if originalPrice >? currentPrice then originalPrice - currentPrice else 0)
  = Z.max 0 (originalPrice - currentPrice).
Proof. destruct (Z.gtb_spec originalPrice currentPrice); lia. Qed.

Lemma gtb_zero_ltb (z : Z) : (z >? 0) = (0 <? z).
Proof. apply Z.gtb_ltb. Qed.

(** The run of [checkEligibility] when the oracle answers, lists the
    product and prices it with an integer. *)
Lemma checkEligibility_run (oracle : Oracle) (productId : string) (originalPrice : Z)
    (threshold : number) (response : OraclePricesResponse.t) (entry : OraclePrice.t)
    (proof : OracleMerkleProof.t) (currentPrice : Z) :
  getOraclePrices oracle = Ok response ->
  List.find (matchesProduct productId) (OraclePricesResponse.prices response) = Some entry ->
  getMerkleProof oracle (OraclePrice.id entry) = Ok proof ->
  BigInt_ofNumber (OraclePrice.currentPrice entry) = Some currentPrice ->
  checkEligibility oracle productId originalPrice threshold =
  (let dropAmount := Z.max 0 (originalPrice - currentPrice) in
   let dropPercentage :=
     if 0 <? originalPrice
     then mul (div (Number_ofZ dropAmount) (Number_ofZ originalPrice)) (Number_ofZ 100)
     else Number_ofZ 0 in
   Ok {| EligibilityResult.eligible := (0 <? dropAmount) && ge dropPercentage threshold;
         EligibilityResult.dropPercentage :=
           div (Math_round (mul dropPercentage (Number_ofZ 100))) (Number_ofZ 100);
         EligibilityResult.dropAmount := BigInt_toString 10 dropAmount;
         EligibilityResult.currentPrice := BigInt_toString 10 currentPrice;
         EligibilityResult.merkleRoot := OraclePricesResponse.merkleRoot response;
         EligibilityResult.proof := proof;
         EligibilityResult.payoutAmount := BigInt_toString 10 dropAmount |}).
Proof.
  intros E1 E2 E3 E4. unfold checkEligibility.
  rewrite E1. cbn [mbind result_bind bind].
  rewrite E2. cbn [mbind result_bind bind orThrow].
  rewrite E3. cbn [mbind result_bind bind].
  rewrite E4. cbn [mbind result_bind bind orThrow].
  cbv zeta. now rewrite Number_ofZ_gt_zero, drop_is_max, gtb_zero_ltb.
Qed.

(** C6, as stated, fails in two ways.  The verdict is not decided on the
    percentage that is returned: for 100 against 43 with a threshold of 57
    the drop is 57 and the returned percentage is 57, which reaches the
    threshold, yet the policy is not eligible, because the quotient computed
    in binary64 lies just below 57 before it is rounded for the result.  And
    the percentage is zero for every insured price that is not positive, not
    only for zero: for -100 against -200 the drop is 100 and the quotient
    would be -100, but the percentage is 0. *)
Lemma checkEligibility_verdict_before_rounding :
  (exists r,
     checkEligibility (engine := Examples.asciiCase) (Examples.oracleWith [("X1", 43)])
       "X1" 100 (Number_ofZ 57) = Ok r
     /\ EligibilityResult.dropAmount r = "57"
     /\ EligibilityResult.dropPercentage r = Number_ofZ 57
     /\ ge (EligibilityResult.dropPercentage r) (Number_ofZ 57) = true
     /\ EligibilityResult.eligible r = false)
  /\ (exists r,
        checkEligibility (engine := Examples.asciiCase) (Examples.oracleWith [("X1", -200)])
          "X1" (-100) (Number_ofZ 10) = Ok r
        /\ EligibilityResult.dropAmount r = "100"
        /\ mul (div (Number_ofZ 100) (Number_ofZ (-100))) (Number_ofZ 100) = Number_ofZ (-100)
        /\ EligibilityResult.dropPercentage r = Number_ofZ 0
        /\ Number_ofZ 0 <> Number_ofZ (-100)).
Proof.
  split.
  - eexists. split; [vm_compute; reflexivity|].
    repeat split; vm_compute; reflexivity.
  - eexists. split; [vm_compute; reflexivity|].
    split; [reflexivity|]. split; [vm_compute; reflexivity|].
    split; [vm_compute; reflexivity|vm_compute; discriminate].
Qed.

(** C6, amended.  For every insured price and threshold, when the oracle
    answers, lists the product and prices it with an integer, the eligibility
    check returns, and what it returns is: the drop amount
    [max(0, originalPrice - currentPrice)]; the verdict [eligible], which is
    [dropAmount > 0] and [p >= threshold] for the percentage
    [p = dropAmount / originalPrice * 100] computed in binary64 arithmetic and
    taken as zero whenever the insured price is zero or negative; and the
    reported percentage, which is [p] rounded to two decimals.  For 199990000
    against 99990000 with a threshold of 10 the drop is 100000000, the
    reported percentage is 50 and the policy is eligible. *)
Theorem checkEligibility_drop_computation (oracle : Oracle) (productId : string)
    (originalPrice : Z) (threshold : number) (response : OraclePricesResponse.t)
    (entry : OraclePrice.t) (proof : OracleMerkleProof.t) (currentPrice : Z) :
  getOraclePrices oracle = Ok response ->
  List.find (matchesProduct productId) (OraclePricesResponse.prices response) = Some entry ->
  getMerkleProof oracle (OraclePrice.id entry) = Ok proof ->
  BigInt_ofNumber (OraclePrice.currentPrice entry) = Some currentPrice ->
  let dropAmount := Z.max 0 (originalPrice - currentPrice) in
  let p :=
    if 0 <? originalPrice
    then mul (div (Number_ofZ dropAmount) (Number_ofZ originalPrice)) (Number_ofZ 100)
    else Number_ofZ 0 in
  exists r,
    checkEligibility oracle productId originalPrice threshold = Ok r
    /\ EligibilityResult.dropAmount r = BigInt_toString 10 dropAmount
    /\ EligibilityResult.eligible r = (0 <? dropAmount) && ge p threshold
    /\ EligibilityResult.dropPercentage r
       = div (Math_round (mul p (Number_ofZ 100))) (Number_ofZ 100)
    /\ (originalPrice = 199990000 -> currentPrice = 99990000 -> threshold = Number_ofZ 10 ->
        EligibilityResult.dropAmount r = "100000000"
        /\ EligibilityResult.dropPercentage r = Number_ofZ 50
        /\ EligibilityResult.eligible r = true).
Proof.
  intros E1 E2 E3 E4 dropAmount p.
  pose proof (checkEligibility_run oracle productId originalPrice threshold response entry
                proof currentPrice E1 E2 E3 E4) as Hrun.
  cbv zeta in Hrun. fold dropAmount in Hrun. fold p in Hrun.
  eexists. split; [exact Hrun|].
  cbn [EligibilityResult.dropAmount EligibilityResult.eligible EligibilityResult.dropPercentage].
  split; [reflexivity|]. split; [reflexivity|]. split; [reflexivity|].
  intros -> -> ->. subst dropAmount p. vm_compute. repeat split; reflexivity.
Qed.

(** C10.  The payout a successful eligibility check promises is the drop
    amount itself, the whole difference between the insured price and the
    current price with no cap, and it is zero when the current price is at
    or above the insured price. *)
Theorem checkEligibility_payout_is_drop (oracle : Oracle) (productId : string)
    (originalPrice : Z) (threshold : number) (r : EligibilityResult.t) :
  checkEligibility oracle productId originalPrice threshold = Ok r ->
  exists entry currentPrice response,
    getOraclePrices oracle = Ok response
    /\ List.find (matchesProduct productId) (OraclePricesResponse.prices response) = Some entry
    /\ BigInt_ofNumber (OraclePrice.currentPrice entry) = Some currentPrice
    /\ EligibilityResult.payoutAmount r = EligibilityResult.dropAmount r
    /\ EligibilityResult.payoutAmount r
         = BigInt_toString 10 (Z.max 0 (originalPrice - currentPrice))
    /\ (currentPrice < originalPrice ->
        EligibilityResult.payoutAmount r = BigInt_toString 10 (originalPrice - currentPrice))
    /\ (originalPrice <= currentPrice -> EligibilityResult.payoutAmount r = "0").
Proof.
  intros Hok.
  destruct (checkEligibility_Ok_inv _ _ _ _ _ Hok)
    as (response & entry & proof & currentPrice & E1 & E2 & E3 & E4 & Hdef).
  rewrite Hok in Hdef. cbv zeta in Hdef. injection Hdef as ->.
  exists entry, currentPrice, response.
  split; [exact E1|]. split; [exact E2|]. split; [exact E4|].
  cbn [EligibilityResult.dropAmount EligibilityResult.payoutAmount].
  rewrite drop_is_max.
  split; [reflexivity|]. split; [reflexivity|]. split.
  - intros Hlt. f_equal. lia.
  - intros Hle. replace (Z.max 0 (originalPrice - currentPrice)) with 0 by lia. reflexivity.
Qed.

End Eligibility.

Lemma checkEligibility_drop_computation_witness :
  exists r,
    OracleClient.checkEligibility (engine := Examples.asciiCase) Examples.sampleOracle "X1" 199990000
      (Number_ofZ 10) = Ok r
    /\ OracleClient.EligibilityResult.dropAmount r = "100000000"
    /\ OracleClient.EligibilityResult.dropPercentage r = Number_ofZ 50
    /\ OracleClient.EligibilityResult.eligible r = true.
Proof.
  destruct (checkEligibility_drop_computation (engine := Examples.asciiCase)
              Examples.sampleOracle "X1" 199990000 (Number_ofZ 10) _ _ _ 99990000
              eq_refl eq_refl eq_refl eq_refl)
    as (r & Hrun & _ & _ & _ & Hscenario).
  exists r. split; [exact Hrun|]. now apply Hscenario.
Defined.

Lemma checkEligibility_payout_is_drop_witness :
  exists r,
    OracleClient.checkEligibility (engine := Examples.asciiCase) Examples.sampleOracle "X1" 199990000
      (Number_ofZ 10) = Ok r
    /\ OracleClient.EligibilityResult.payoutAmount r = OracleClient.EligibilityResult.dropAmount r
    /\ OracleClient.EligibilityResult.payoutAmount r = "100000000".
Proof.
  destruct (OracleClient.checkEligibility (engine := Examples.asciiCase) Examples.sampleOracle "X1"
              199990000 (Number_ofZ 10))
    as [r|e] eqn:Hrun; [|vm_compute in Hrun; discriminate Hrun].
  exists r. split; [reflexivity|].
  destruct (checkEligibility_payout_is_drop (engine := Examples.asciiCase) Examples.sampleOracle "X1" 199990000
              (Number_ofZ 10) r Hrun)
    as (entry & currentPrice & response & E1 & E2 & E4 & Hsame & Hmax & _).
  split; [exact Hsame|]. rewrite Hmax.
  vm_compute in E1. injection E1 as <-.
  vm_compute in E2. injection E2 as <-.
  vm_compute in E4. injection E4 as <-. reflexivity.
Defined.

(* ===================================================================== *)
(** * Product matching                                                   *)
(* ===================================================================== *)

Section ProductMatching.

Import OracleClient.

Context {engine : CaseConversion}.

Ltac each_char c :=
  destruct c as [b0 b1 b2 b3 b4 b5 b6 b7];
  destruct b0, b1, b2, b3, b4, b5, b6, b7.

Lemma isUpperAlnum_notSpace (c : ascii) : isUpperAlnum c = true -> notSpace c = true.
Proof. each_char c; intros H; try reflexivity; discriminate H. Qed.

Lemma isUpperAlnum_isAscii (c : ascii) : isUpperAlnum c = true -> isAscii c = true.
Proof. each_char c; intros H; try reflexivity; discriminate H. Qed.

Lemma isUpperAlnum_upperChar_id (c : ascii) : isUpperAlnum c = true -> upperChar c = c.
Proof. each_char c; intros H; try reflexivity; discriminate H. Qed.

Lemma allChars_filterChars (p : ascii -> bool) (s : string) :
  allChars p (filterChars p s) = true.
Proof.
  induction s as [|c s IH]; [reflexivity|]. simpl.
  destruct (p c) eqn:E; [simpl; now rewrite E|exact IH].
Qed.

Lemma filterChars_id (p : ascii -> bool) (s : string) :
  allChars p s = true -> filterChars p s = s.
Proof.
  induction s as [|c s IH]; [reflexivity|]. simpl. intros H.
  apply andb_true_iff in H as [Hc Hs]. now rewrite Hc, IH.
Qed.

Lemma toUpperCase_id (s : string) : allChars isUpperAlnum s = true -> toUpperCase s = s.
Proof.
  unfold toUpperCase. induction s as [|c s IH]; [reflexivity|]. simpl. intros H.
  apply andb_true_iff in H as [Hc Hs]. now rewrite (isUpperAlnum_upperChar_id c Hc), IH.
Qed.

(** The final [trim] of the normalisation has nothing to remove. *)
Lemma key_normalize (s : string) : normalizeOracleProductId s = key s.
Proof.
  unfold normalizeOracleProductId, key. apply trim_id.
  apply (allChars_impl isUpperAlnum); [apply isUpperAlnum_notSpace|].
  apply allChars_filterChars.
Qed.

(** A key is its own key: it consists of A to Z and 0 to 9, which the
    engine converts as ASCII text. *)
Lemma key_idem (s : string) : key (key s) = key s.
Proof.
  unfold key at 1.
  rewrite String_toUpperCase_ascii
    by (apply (allChars_impl isUpperAlnum); [apply isUpperAlnum_isAscii|];
        apply allChars_filterChars).
  rewrite toUpperCase_id by apply allChars_filterChars.
  apply filterChars_id, allChars_filterChars.
Qed.

Lemma matchesProduct_spec (productId : string) (entry : OraclePrice.t) :
  matchesProduct productId entry =
  if nonEmpty (key productId)
  then String.eqb (key (OraclePrice.id entry)) (key productId)
  else String.eqb (String_toLowerCase (trim (OraclePrice.id entry)))
                  (String_toLowerCase (trim productId)).
Proof. unfold matchesProduct. now rewrite !key_normalize. Qed.

(** C8.  With the catalog fetched, [checkEligibility] looks the product up
    by comparing keys (the identifier in upper case, as the engine converts
    it, with everything but A to Z and 0 to 9 stripped) when the key of the
    requested identifier is not empty, and otherwise by comparing the
    identifiers in lower case, as the engine converts them (surrounding white
    space removed).  When no entry matches, it fails with the
    product-not-found error; this is so in particular when no entry matches
    under either comparison.  When an entry matches, the first such entry is
    taken and the rest of the check runs on it: the Merkle proof is requested
    for that entry's identifier. *)
Theorem checkEligibility_product_lookup (oracle : Oracle) (productId : string)
    (originalPrice : Z) (threshold : number) (response : OraclePricesResponse.t) :
  getOraclePrices oracle = Ok response ->
  let prices := OraclePricesResponse.prices response in
  let normalize := fun s => filterChars isUpperAlnum (String_toUpperCase s) in
  let matches := fun id =>
    if nonEmpty (normalize productId)
    then String.eqb (normalize id) (normalize productId)
    else String.eqb (String_toLowerCase (trim id)) (String_toLowerCase (trim productId)) in
  ((forall entry, In entry prices -> matches (OraclePrice.id entry) = false) ->
   checkEligibility oracle productId originalPrice threshold
     = Throw (ProductNotFoundError productId))
  /\ ((forall entry, In entry prices ->
         normalize (OraclePrice.id entry) <> normalize productId
         /\ String_toLowerCase (trim (OraclePrice.id entry))
            <> String_toLowerCase (trim productId)) ->
      checkEligibility oracle productId originalPrice threshold
        = Throw (ProductNotFoundError productId))
  /\ (forall entry, In entry prices -> matches (OraclePrice.id entry) = true ->
      exists first,
        List.find (fun e => matches (OraclePrice.id e)) prices = Some first
        /\ In first prices
        /\ matches (OraclePrice.id first) = true
        /\ (forall e, getMerkleProof oracle (OraclePrice.id first) = Throw e ->
            checkEligibility oracle productId originalPrice threshold = Throw e)
        /\ (forall proof, getMerkleProof oracle (OraclePrice.id first) = Ok proof ->
            match BigInt_ofNumber (OraclePrice.currentPrice first) with
            | None => checkEligibility oracle productId originalPrice threshold
                        = Throw RangeError
            | Some _ => exists r,
                checkEligibility oracle productId originalPrice threshold = Ok r
                /\ EligibilityResult.proof r = proof
            end)).
Proof.
  intros Hprices prices normalize matches.
  assert (Hm : forall e, matchesProduct productId e = matches (OraclePrice.id e))
    by (intros e; apply matchesProduct_spec).
  assert (Hfind : List.find (matchesProduct productId) prices
                  = List.find (fun e => matches (OraclePrice.id e)) prices).
  { clear -Hm. induction prices as [|e rest IH]; [reflexivity|].
    simpl. rewrite Hm, IH. reflexivity. }
  assert (Hnone : (forall entry, In entry prices -> matches (OraclePrice.id entry) = false) ->
                  checkEligibility oracle productId originalPrice threshold
                    = Throw (ProductNotFoundError productId)).
  { intros Hno. unfold checkEligibility. rewrite Hprices.
    cbn [mbind result_bind bind]. fold prices.
    assert (Hf : List.find (matchesProduct productId) prices = None).
    { clear -Hm Hno. induction prices as [|e rest IH]; [reflexivity|].
      simpl. rewrite Hm, (Hno e (or_introl eq_refl)). apply IH.
      intros entry Hin. apply Hno. now right. }
    rewrite Hf. reflexivity. }
  split; [exact Hnone|]. split.
  - intros Hneither. apply Hnone. intros entry Hin.
    destruct (Hneither entry Hin) as [Hn He]. unfold matches.
    destruct (nonEmpty (normalize productId)).
    + now apply String.eqb_neq.
    + now apply String.eqb_neq.
  - intros entry Hin Hmatch.
    destruct (List.find (fun e => matches (OraclePrice.id e)) prices) as [first|] eqn:Ef.
    + exists first. pose proof (find_some _ _ Ef) as [Hfin Hfm].
      split; [reflexivity|]. split; [exact Hfin|]. split; [exact Hfm|].
      assert (Hdef := eq_refl (checkEligibility oracle productId originalPrice threshold)).
      unfold checkEligibility at 2 in Hdef. rewrite Hprices in Hdef.
      cbn [mbind result_bind bind] in Hdef. fold prices in Hdef.
      rewrite Hfind in Hdef. cbn [mbind result_bind bind orThrow] in Hdef.
      split.
      * intros e He. rewrite He in Hdef. exact Hdef.
      * intros proof Hp. rewrite Hp in Hdef. cbn [mbind result_bind bind] in Hdef.
        destruct (BigInt_ofNumber (OraclePrice.currentPrice first)) as [c|];
          cbn [mbind result_bind bind orThrow] in Hdef; [|exact Hdef].
        eexists. split; [exact Hdef|reflexivity].
    + exfalso. pose proof (find_none _ _ Ef entry Hin) as Hcontra.
      simpl in Hcontra. congruence.
Qed.

End ProductMatching.

(** The two paths of the lookup, with the stand-in conversions: X1 is found
    under the catalog id x-1 by its key; Y2 is not in that catalog; the id
    -_-, whose key is empty, is found by the comparison in lower case under
    the catalog id " -_- ", which comes after an entry it does not match; and
    with a conversion that turns the sharp s into SS, the id made of a sharp s
    and the digit 1 has the key SS1 and selects the catalog id SS1, not the
    catalog id 1 listed before it. *)
Lemma checkEligibility_product_lookup_witness :
  (exists r, OracleClient.checkEligibility (engine := Examples.asciiCase)
               Examples.sampleOracle "X1" 199990000 (Number_ofZ 10) = Ok r)
  /\ OracleClient.checkEligibility (engine := Examples.asciiCase)
       Examples.sampleOracle "Y2" 199990000 (Number_ofZ 10)
     = Throw (OracleClient.ProductNotFoundError "Y2")
  /\ (exists r, OracleClient.checkEligibility (engine := Examples.asciiCase)
                  (Examples.oracleWith [("X1", 80); (" -_- ", 50)]) "-_-" 100 (Number_ofZ 10)
                = Ok r
                /\ OracleClient.EligibilityResult.currentPrice r = "50")
  /\ OracleClient.checkEligibility (engine := Examples.asciiCase)
       (Examples.oracleWith [("X1", 80); (" -_- ", 50)]) "+" 100 (Number_ofZ 10)
     = Throw (OracleClient.ProductNotFoundError "+")
  /\ (exists r, OracleClient.checkEligibility (engine := Examples.sharpCase)
                  (Examples.oracleWith [("1", 80); ("SS1", 50)]) (Examples.sharpS ++ "1")
                  100 (Number_ofZ 10)
                = Ok r
                /\ OracleClient.EligibilityResult.currentPrice r = "50").
Proof.
  split; [|split; [|split; [|split]]].
  - destruct (proj2 (proj2 (checkEligibility_product_lookup (engine := Examples.asciiCase)
                              Examples.sampleOracle "X1" 199990000 (Number_ofZ 10) _ eq_refl))
                _ (or_introl eq_refl) eq_refl)
      as (first & Hfind & _ & _ & _ & Hrun).
    vm_compute in Hfind. injection Hfind as <-.
    destruct (Hrun Examples.sampleProof eq_refl) as (r & Hr & _).
    exists r. exact Hr.
  - apply (proj1 (checkEligibility_product_lookup (engine := Examples.asciiCase)
                    Examples.sampleOracle "Y2" 199990000 (Number_ofZ 10) _ eq_refl)).
    intros entry [<-|[]]. reflexivity.
  - destruct (proj2 (proj2 (checkEligibility_product_lookup (engine := Examples.asciiCase)
                              (Examples.oracleWith [("X1", 80); (" -_- ", 50)]) "-_-" 100
                              (Number_ofZ 10) _ eq_refl))
                _ (or_intror (or_introl eq_refl)) eq_refl)
      as (first & Hfind & _ & _ & _ & Hrun).
    vm_compute in Hfind. injection Hfind as <-.
    destruct (Hrun Examples.sampleProof eq_refl) as (r & Hr & _).
    exists r. split; [exact Hr|].
    vm_compute in Hr. now injection Hr as <-.
  - apply (proj1 (checkEligibility_product_lookup (engine := Examples.asciiCase)
                    (Examples.oracleWith [("X1", 80); (" -_- ", 50)]) "+" 100
                    (Number_ofZ 10) _ eq_refl)).
    intros entry [<-|[<-|[]]]; reflexivity.
  - destruct (proj2 (proj2 (checkEligibility_product_lookup (engine := Examples.sharpCase)
                              (Examples.oracleWith [("1", 80); ("SS1", 50)])
                              (Examples.sharpS ++ "1") 100 (Number_ofZ 10) _ eq_refl))
                _ (or_intror (or_introl eq_refl)) eq_refl)
      as (first & Hfind & _ & _ & _ & Hrun).
    vm_compute in Hfind. injection Hfind as <-.
    destruct (Hrun Examples.sampleProof eq_refl) as (r & Hr & _).
    exists r. split; [exact Hr|].
    vm_compute in Hr. now injection Hr as <-.
Defined.

(* ===================================================================== *)
(** * The policy store                                                   *)
(* ===================================================================== *)

Section PolicyStore.

Import PolicyManager.

Lemma append_inj_l (p x y : string) : p ++ x = p ++ y -> x = y.
Proof.
  induction p as [|c p IH]; [now rewrite !append_nil|].
  rewrite !append_cons. intros H. injection H as H. now apply IH.
Qed.

Lemma policiesKey_eq (a b : string) :
  policiesKey a = policiesKey b <-> toLowerCase a = toLowerCase b.
Proof.
  unfold policiesKey. split; [apply append_inj_l|now intros ->].
Qed.

Lemma getPolicies_insert_same (st : Storage) (a b : string) (l : list PolicyData) :
  policiesKey a = policiesKey b ->
  getPoliciesForAddress (<[policiesKey a := l]> st) b = l.
Proof.
  intros H. unfold getPoliciesForAddress. rewrite <- H, lookup_insert_eq. reflexivity.
Qed.

Lemma getPolicies_insert_other (st : Storage) (a b : string) (l : list PolicyData) :
  policiesKey a <> policiesKey b ->
  getPoliciesForAddress (<[policiesKey a := l]> st) b = getPoliciesForAddress st b.
Proof.
  intros H. unfold getPoliciesForAddress. now rewrite lookup_insert_ne.
Qed.

Lemma getPolicies_key (st : Storage) (a b : string) :
  policiesKey a = policiesKey b -> getPoliciesForAddress st a = getPoliciesForAddress st b.
Proof. intros H. unfold getPoliciesForAddress. now rewrite H. Qed.

Lemma existsb_hash (h : string) (l : list PolicyData) :
  existsb (fun p => String.eqb (transactionHash p) h) l = true <-> In h (hashes l).
Proof.
  unfold hashes. rewrite existsb_exists, in_map_iff. split.
  - intros (p & Hin & Heq). apply String.eqb_eq in Heq. eauto.
  - intros (p & Heq & Hin). exists p. split; [exact Hin|]. now apply String.eqb_eq.
Qed.

(** What [savePolicyForAddress] leaves under each address. *)
Lemma getPolicies_save (st : Storage) (a b : string) (p : PolicyData) :
  getPoliciesForAddress (savePolicyForAddress st a p) b =
  if decide (policiesKey a = policiesKey b)
  then (if existsb (fun q => String.eqb (transactionHash q) (transactionHash p))
                   (getPoliciesForAddress st b)
        then getPoliciesForAddress st b
        else (getPoliciesForAddress st b ++ [p])%list)
  else getPoliciesForAddress st b.
Proof.
  unfold savePolicyForAddress. case_decide as Hk.
  - rewrite (getPolicies_key st a b Hk).
    destruct (existsb _ (getPoliciesForAddress st b)); [reflexivity|].
    now apply getPolicies_insert_same.
  - destruct (existsb _ (getPoliciesForAddress st a)); [reflexivity|].
    now apply getPolicies_insert_other.
Qed.

Lemma findIndex_lookup (pid : string) (l : list PolicyData) (i : nat) :
  findIndex pid l = Some i -> exists q, l !! i = Some q /\ policyId q = pid.
Proof.
  revert i. induction l as [|q l IH]; intros i H; [discriminate H|].
  simpl in H. destruct (String.eqb_spec (policyId q) pid) as [Heq|Hne].
  - injection H as <-. exists q. split; [reflexivity|exact Heq].
  - destruct (findIndex pid l) as [j|]; [|discriminate H].
    injection H as <-. apply (IH j eq_refl).
Qed.

(** What [updatePolicyForAddress] leaves under each address. *)
Lemma getPolicies_update (st : Storage) (a b pid : string) (u : PolicyData -> PolicyData) :
  getPoliciesForAddress (fst (updatePolicyForAddress st a pid u)) b =
  if decide (policiesKey a = policiesKey b)
  then match findIndex pid (getPoliciesForAddress st b) with
       | Some i => alter u i (getPoliciesForAddress st b)
       | None => getPoliciesForAddress st b
       end
  else getPoliciesForAddress st b.
Proof.
  unfold updatePolicyForAddress. case_decide as Hk.
  - rewrite (getPolicies_key st a b Hk).
    destruct (findIndex pid (getPoliciesForAddress st b)) as [i|] eqn:Ei; [|reflexivity].
    destruct (findIndex_lookup _ _ _ Ei) as (q & Hq & _). rewrite Hq. simpl fst.
    rewrite getPolicies_insert_same by exact Hk.
    apply list_eq. intros j. destruct (decide (i = j)) as [<-|Hne].
    + rewrite list_lookup_insert_eq by (eapply lookup_lt_Some; eauto).
      rewrite list_lookup_alter_eq, Hq. reflexivity.
    + rewrite list_lookup_insert_ne, list_lookup_alter_ne by exact Hne. reflexivity.
  - destruct (findIndex pid (getPoliciesForAddress st a)) as [i|] eqn:Ei; [|reflexivity].
    destruct (findIndex_lookup _ _ _ Ei) as (q & Hq & _). rewrite Hq. simpl fst.
    now apply getPolicies_insert_other.
Qed.



Lemma hashes_snoc (l : list PolicyData) (p : PolicyData) :
  hashes (l ++ [p]) = (hashes l ++ [transactionHash p])%list.
Proof. unfold hashes. now rewrite map_app. Qed.


Lemma save_stores_hash (st : Storage) (a : string) (p : PolicyData) :
  transactionHash p ∈ hashes (getPoliciesForAddress (savePolicyForAddress st a p) a).
Proof.
  rewrite getPolicies_save. rewrite decide_True by reflexivity.
  destruct (existsb _ (getPoliciesForAddress st a)) eqn:Ex.
  - now apply list_elem_of_In, existsb_hash.
  - rewrite hashes_snoc. apply elem_of_app. right. apply list_elem_of_singleton. reflexivity.
Qed.











(** C1, as stated, fails: a merge that names the status, the commitment and
    the premium overwrites all three on a record that is claimed. *)
Lemma claimed_record_overwritten_by_merge :
  (exists q, getPoliciesForAddress Examples.sampleStorage "0xabc" !! 0%nat = Some q
             /\ status q = Some claimed
             /\ secretCommitment q = "0x0d"
             /\ premium q = "3000000")
  /\ (exists q',
        getPoliciesForAddress
          (fst (mergePolicyForAddress Examples.sampleStorage "0xABC" "7"
                  Examples.overwriteUpdates)) "0xabc" !! 0%nat = Some q'
        /\ status q' = Some active
        /\ secretCommitment q' = "0x00"
        /\ premium q' = "0").
Proof.
  assert (Hstored : getPoliciesForAddress Examples.sampleStorage "0xabc"
                    = [Examples.samplePolicy]).
  { unfold Examples.sampleStorage. rewrite getPolicies_save.
    rewrite decide_True by reflexivity.
    unfold getPoliciesForAddress. rewrite lookup_empty. reflexivity. }
  split.
  - exists Examples.samplePolicy. rewrite Hstored. repeat split.
  - unfold mergePolicyForAddress. rewrite getPolicies_update.
    rewrite decide_True by reflexivity. rewrite Hstored.
    eexists. split; [reflexivity|]. repeat split.
Qed.

Lemma update_at (st : Storage) (a a' pid : string) (u : PolicyData -> PolicyData)
    (i : nat) (q : PolicyData) :
  getPoliciesForAddress st a !! i = Some q ->
  exists q',
    getPoliciesForAddress (fst (updatePolicyForAddress st a' pid u)) a !! i = Some q'
    /\ (q' = q
        \/ (policiesKey a' = policiesKey a
            /\ findIndex pid (getPoliciesForAddress st a) = Some i
            /\ q' = u q)).
Proof.
  intros Hq. rewrite getPolicies_update. case_decide as Hk; [|eauto].
  destruct (findIndex pid (getPoliciesForAddress st a)) as [j|] eqn:Ej; [|eauto].
  destruct (decide (j = i)) as [->|Hne].
  - exists (u q). rewrite list_lookup_alter_eq, Hq. split; [reflexivity|]. right. auto.
  - exists q. rewrite list_lookup_alter_ne by exact Hne. auto.
Qed.

(** C1, amended.  The store does not make a claimed record final: it has no
    check on the status, and update and merge write what the caller passes.
    What it guarantees for every stored record, claimed or not: a save
    leaves the record as it is; an update leaves it as it is unless it is
    the first record with the given policy id under the address, and then
    replaces it by the updater's result; and a merge leaves its status, its
    secret commitment and its premium as they are unless the partial update
    names that member. *)
Theorem store_keeps_unnamed_members (st : Storage) (a : string) (i : nat) (q : PolicyData) :
  getPoliciesForAddress st a !! i = Some q ->
  (forall a' new, getPoliciesForAddress (savePolicyForAddress st a' new) a !! i = Some q)
  /\ (forall a' pid updater, exists q',
        getPoliciesForAddress (fst (updatePolicyForAddress st a' pid updater)) a !! i = Some q'
        /\ (q' = q
            \/ (policiesKey a' = policiesKey a
                /\ findIndex pid (getPoliciesForAddress st a) = Some i
                /\ q' = updater q)))
  /\ (forall a' pid updates, exists q',
        getPoliciesForAddress (fst (mergePolicyForAddress st a' pid updates)) a !! i = Some q'
        /\ (Updates.status updates = None -> status q' = status q)
        /\ (Updates.secretCommitment updates = None ->
            secretCommitment q' = secretCommitment q)
        /\ (Updates.premium updates = None -> premium q' = premium q)).
Proof.
  intros Hq. split; [|split].
  - intros a' new. rewrite getPolicies_save. case_decide; [|exact Hq].
    destruct (existsb _ (getPoliciesForAddress st a)); [exact Hq|].
    rewrite lookup_app_l; [exact Hq|]. eapply lookup_lt_Some; eauto.
  - intros a' pid updater. now apply update_at.
  - intros a' pid updates. unfold mergePolicyForAddress.
    destruct (update_at st a a' pid (mergeUpdater updates) i q Hq) as (q' & Hq' & Hcase).
    exists q'. split; [exact Hq'|].
    destruct Hcase as [->|(_ & _ & ->)].
    + repeat split; reflexivity.
    + unfold mergeUpdater. cbn [status secretCommitment premium].
      repeat split; intros ->; reflexivity.
Qed.

Lemma store_keeps_unnamed_members_witness :
  exists q',
    getPoliciesForAddress
      (fst (mergePolicyForAddress Examples.sampleStorage "0xABC" "7" Updates.none))
      "0xabc" !! 0%nat = Some q'
    /\ status q' = Some claimed
    /\ secretCommitment q' = "0x0d"
    /\ premium q' = "3000000".
Proof.
  assert (Hstored : getPoliciesForAddress Examples.sampleStorage "0xabc" !! 0%nat
                    = Some Examples.samplePolicy).
  { unfold Examples.sampleStorage. rewrite getPolicies_save.
    rewrite decide_True by reflexivity.
    unfold getPoliciesForAddress. rewrite lookup_empty. reflexivity. }
  destruct (proj2 (proj2 (store_keeps_unnamed_members _ _ _ _ Hstored))
              "0xABC" "7" Updates.none) as (q' & Hq' & Hs & Hc & Hp).
  exists q'. split; [exact Hq'|].
  rewrite (Hs eq_refl), (Hc eq_refl), (Hp eq_refl). repeat split.
Defined.

End PolicyStore.

(* ===================================================================== *)
(** * Roots compared as the values they denote                           *)
(* ===================================================================== *)

Section RootValues.

Ltac each_char c :=
  destruct c as [b0 b1 b2 b3 b4 b5 b6 b7];
  destruct b0, b1, b2, b3, b4, b5, b6, b7.

Lemma alnumValue_lowerChar (c : ascii) : alnumValue (lowerChar c) = alnumValue c.
Proof. each_char c; reflexivity. Qed.

Lemma eqb_lowerChar_same (k c : ascii) :
  isUpper k = false -> isLower k = false ->
  Ascii.eqb k (lowerChar c) = Ascii.eqb k c.
Proof.
  intros Hu Hl. unfold lowerChar. destruct (isUpper c) eqn:Ec; [|reflexivity].
  destruct (Ascii.eqb_spec k c) as [->|Hne]; [congruence|].
  destruct (Ascii.eqb_spec k (ascii_of_nat (code c + 32))) as [->|_]; [|reflexivity].
  exfalso. clear Hne Hu. revert Hl Ec. each_char c; intros Hl Ec; discriminate.
Qed.

Lemma eqb_lowerChar_letter (lower upper c : ascii) :
  isLower lower = true -> upper = upperChar lower ->
  Ascii.eqb lower (lowerChar c) = Ascii.eqb lower c || Ascii.eqb upper c.
Proof.
  intros Hl ->. destruct (Ascii.eqb_spec lower c) as [<-|Hne].
  - revert Hl. each_char lower; intros Hl; try discriminate Hl; reflexivity.
  - destruct (Ascii.eqb_spec (upperChar lower) c) as [<-|Hne'].
    + revert Hl. clear Hne. each_char lower; intros Hl; try discriminate Hl; reflexivity.
    + simpl. apply Ascii.eqb_neq. intros ->. revert Hl Hne Hne'.
      each_char c; intros Hl Hne Hne'; try discriminate Hl; try (now apply Hne);
        try (now apply Hne').
Qed.

Lemma eqb_lowerChar_upper (upper c : ascii) :
  isUpper upper = true -> Ascii.eqb upper (lowerChar c) = false.
Proof.
  intros Hu. apply Ascii.eqb_neq. intros ->. revert Hu. each_char c; discriminate.
Qed.

Lemma parseDigitsAux_toLowerCase (radix : N) (s : string) (acc : N) :
  parseDigitsAux radix (toLowerCase s) acc = parseDigitsAux radix s acc.
Proof.
  revert acc. induction s as [|c s IH]; intros acc; [reflexivity|].
  cbn [toLowerCase mapChars parseDigitsAux]. fold (toLowerCase s).
  unfold digitValue. rewrite alnumValue_lowerChar.
  destruct (alnumValue c) as [d|]; [|reflexivity].
  destruct (d <? radix)%N; [apply IH|reflexivity].
Qed.

Lemma parseDigits_toLowerCase (radix : N) (s : string) :
  parseDigits radix (toLowerCase s) = parseDigits radix s.
Proof.
  unfold parseDigits. rewrite parseDigitsAux_toLowerCase. now destruct s.
Qed.

Lemma startsWith2_toLowerCase (lower upper : ascii) (s : string) :
  isLower lower = true -> upper = upperChar lower ->
  startsWith (String "0" (String lower EmptyString)) (toLowerCase s)
  = startsWith (String "0" (String lower EmptyString)) s
    || startsWith (String "0" (String upper EmptyString)) s.
Proof.
  intros Hl Hu.
  destruct s as [|c1 [|c2 r]]; [reflexivity| |];
    cbn [toLowerCase mapChars startsWith].
  - now rewrite !andb_false_r.
  - rewrite (eqb_lowerChar_same "0" c1) by reflexivity.
    rewrite (eqb_lowerChar_letter lower upper c2 Hl Hu).
    destruct (Ascii.eqb "0" c1), (Ascii.eqb lower c2), (Ascii.eqb upper c2); reflexivity.
Qed.

Lemma startsWith2_upper_toLowerCase (upper : ascii) (s : string) :
  isUpper upper = true ->
  startsWith (String "0" (String upper EmptyString)) (toLowerCase s) = false.
Proof.
  intros Hu.
  destruct s as [|c1 [|c2 r]]; [reflexivity| |];
    cbn [toLowerCase mapChars startsWith].
  - now rewrite andb_false_r.
  - rewrite (eqb_lowerChar_upper upper c2 Hu). now rewrite andb_false_r.
Qed.

Lemma startsWith1_toLowerCase (k : ascii) (s : string) :
  isUpper k = false -> isLower k = false ->
  startsWith (String k EmptyString) (toLowerCase s) = startsWith (String k EmptyString) s.
Proof.
  intros Hu Hl. destruct s as [|c r]; [reflexivity|].
  cbn [toLowerCase mapChars startsWith]. now rewrite eqb_lowerChar_same.
Qed.

Lemma drop_toLowerCase (n : nat) (s : string) :
  drop n (toLowerCase s) = toLowerCase (drop n s).
Proof.
  revert s. induction n as [|n IH]; intros s; [reflexivity|].
  destruct s as [|c r]; [reflexivity|]. cbn [toLowerCase mapChars drop]. apply IH.
Qed.

Lemma nonEmpty_toLowerCase (s : string) : nonEmpty (toLowerCase s) = nonEmpty s.
Proof. now destruct s. Qed.

(** Reading an integer literal ignores the case of its letters. *)
Lemma BigInt_ofString_toLowerCase (s : string) :
  BigInt_ofString (toLowerCase s) = BigInt_ofString s.
Proof.
  unfold BigInt_ofString. rewrite trim_toLowerCase.
  generalize (trim s) as t. intros t.
  rewrite nonEmpty_toLowerCase.
  rewrite (startsWith2_toLowerCase "x" "X"), (startsWith2_toLowerCase "o" "O"),
    (startsWith2_toLowerCase "b" "B") by reflexivity.
  rewrite (startsWith2_upper_toLowerCase "X"), (startsWith2_upper_toLowerCase "O"),
    (startsWith2_upper_toLowerCase "B") by reflexivity.
  rewrite (startsWith1_toLowerCase "-"), (startsWith1_toLowerCase "+") by reflexivity.
  rewrite !drop_toLowerCase, !parseDigits_toLowerCase, !orb_false_r.
  reflexivity.
Qed.

Lemma digitsOf_notSpace (n : N) : allChars notSpace (digitsOf 16 n) = true.
Proof.
  unfold digitsOf. apply allChars_digitsAux; [lia| |reflexivity].
  intros d Hd. now apply digitChar_notSpace.
Qed.

(** The text printed for a negative integer is no integer literal. *)
Lemma BigInt_ofString_hex64_negative (p : positive) :
  BigInt_ofString (hex64 (Zneg p)) = None.
Proof.
  unfold BigInt_ofString. rewrite trim_id.
  - unfold hex64. rewrite !append_cons, append_nil.
    cbn [nonEmpty negb startsWith Ascii.eqb Bool.eqb andb orb drop].
    unfold parseDigits, padStart0, BigInt_toString.
    destruct (nonEmpty _); [|reflexivity].
    rewrite parseDigitsAux_zeros by lia. reflexivity.
  - unfold hex64, padStart0, BigInt_toString. rewrite !allChars_append.
    rewrite allChars_repeatChar by reflexivity.
    cbn [allChars]. now rewrite digitsOf_notSpace.
Qed.


End RootValues.

(* ===================================================================== *)
(** * Claim submission                                                   *)
(* ===================================================================== *)

Section ClaimSubmission.

Import InvoiceWidget.

Ltac reduce_eff := repeat (progress (cbv beta iota zeta; cbn [fst snd negb])).

Ltac failed_branch :=
  reduce_eff; rewrite <- ?app_assoc;
  first [ exists []; rewrite app_nil_r; split; [reflexivity|]
        | eexists; split; [simpl; reflexivity|] ];
  left; split; [reflexivity | intros ? ?; discriminate].

(** The calls a [try] block adds to the log, and what must have held for
    the payout call to be among them. *)
Lemma submitClaimTry_log (env : Env) (signer : Signer) (policy : PolicyManager.PolicyData)
    (eligibility : ClaimEligibilityState.t) (proof : OracleClient.OracleMerkleProof.t)
    (log : list LedgerCall) :
  exists new,
    fst (submitClaimTry env signer policy eligibility proof log) = (log ++ new)%list
    /\ ((forallb isReadCall new = true
         /\ (forall receipt,
               snd (submitClaimTry env signer policy eligibility proof log) <> Ok receipt))
        \/ guardsPassed env signer policy eligibility).
Proof.
  unfold submitClaimTry, andThen, lift, issue, guard, ret, throw, orThrow.
  destruct (ClaimProof.generateClaimProof _ _ _ _) as [proofResult|e]; [|failed_branch].
  destruct (getInsuranceVaultContractWithSigner env) as [vault|e]; [|failed_branch].
  destruct (BigInt_ofString (PolicyManager.policyId policy)) as [policyIdBig|] eqn:Epid;
    [|failed_branch].
  destruct (priceMerkleRoot env) as [onChainRoot|e] eqn:Eroot; [|failed_branch].
  reduce_eff.
  destruct (policies env policyIdBig) as [storedPolicy|e] eqn:Epol; [|failed_branch].
  destruct (String.eqb_spec (toLowerCase onChainRoot)
              (toLowerCase (ClaimProof.formatMerkleRoot
                              (ClaimEligibilityState.merkleRoot eligibility))))
    as [Hroot|_]; [|failed_branch].
  destruct (getAddress signer) as [walletAddress|e] eqn:Eaddr; [|failed_branch].
  destruct (String.eqb_spec (toLowerCase (LedgerPolicy.buyer storedPolicy))
              (toLowerCase walletAddress)) as [Hbuyer|_]; [|failed_branch].
  destruct (LedgerPolicy.alreadyClaimed storedPolicy) eqn:Eclaimed; [failed_branch|].
  assert (Hguards : guardsPassed env signer policy eligibility).
  { exists onChainRoot, storedPolicy, walletAddress, policyIdBig. repeat split; assumption. }
  clear Eroot Epid Epol Eaddr.
  reduce_eff.
  destruct (zeroPadValue env _ _);
    [|reduce_eff; rewrite <- ?app_assoc; eexists; split; [simpl; reflexivity|right; exact Hguards]].
  destruct (BigInt_ofString (PolicyManager.premium policy));
    [|reduce_eff; rewrite <- ?app_assoc; eexists; split; [simpl; reflexivity|right; exact Hguards]].
  destruct (ClaimProof.formatPublicSignals _);
    [|reduce_eff; rewrite <- ?app_assoc; eexists; split; [simpl; reflexivity|right; exact Hguards]].
  destruct (BigInt_ofNumber _);
    [|reduce_eff; rewrite <- ?app_assoc; eexists; split; [simpl; reflexivity|right; exact Hguards]].
  reduce_eff.
  destruct (claimPayout env _) as [tx|e];
    [|reduce_eff; rewrite <- ?app_assoc; eexists; split; [simpl; reflexivity|right; exact Hguards]].
  destruct tx as [[receipt|]|e];
    reduce_eff; rewrite <- ?app_assoc; eexists; (split; [simpl; reflexivity|right; exact Hguards]).
Qed.

Lemma claimStatus_updateClaimState (w : World) (pid : string) (s : ClaimStatus)
    (partial : ClaimStatePartial.t) :
  ClaimStatePartial.status partial = Some s ->
  claimStatus (updateClaimState pid partial w) pid = Some s.
Proof.
  intros Hs. unfold claimStatus, updateClaimState. cbn [claimStates].
  rewrite lookup_insert_eq, Hs. reflexivity.
Qed.

Lemma claimError_updateClaimState (w : World) (pid : string) (m : option string)
    (partial : ClaimStatePartial.t) :
  ClaimStatePartial.error partial = Some m ->
  claimError (updateClaimState pid partial w) pid = m.
Proof.
  intros Hm. unfold claimError, updateClaimState. cbn [claimStates].
  rewrite lookup_insert_eq, Hm. reflexivity.
Qed.

(** A submission whose ledger checks cannot all pass is turned down: no
    payout call is added to the log, nothing is written to the store or to
    the list of policies, and the user sees either an alert or the error
    state. *)
Lemma handleSubmitClaim_rejected (env : Env) (address : option string)
    (signer : option Signer) (policy : PolicyManager.PolicyData) (w : World) :
  (forall signer' el,
     signer = Some signer' ->
     claimStates w !! PolicyManager.policyId policy ≫= ClaimState.eligibility = Some el ->
     ~ guardsPassed env signer' policy el) ->
  let w' := handleSubmitClaim env address signer policy w in
  (exists new, ledgerCalls w' = (ledgerCalls w ++ new)%list
               /\ forallb isReadCall new = true)
  /\ localStorage w' = localStorage w
  /\ policiesView w' = policiesView w
  /\ ((exists message, alerts w' = (alerts w ++ [message])%list
                       /\ claimStates w' = claimStates w)
      \/ (claimStatus w' (PolicyManager.policyId policy) = Some error
          /\ alerts w' = alerts w)).
Proof.
  intros Hguards w'. subst w'. unfold handleSubmitClaim.
  assert (Halert : forall message,
    (exists new, ledgerCalls (alert message w) = (ledgerCalls w ++ new)%list
                 /\ forallb isReadCall new = true)
    /\ localStorage (alert message w) = localStorage w
    /\ policiesView (alert message w) = policiesView w
    /\ ((exists message', alerts (alert message w) = (alerts w ++ [message'])%list
                          /\ claimStates (alert message w) = claimStates w)
        \/ (claimStatus (alert message w) (PolicyManager.policyId policy) = Some error
            /\ alerts (alert message w) = alerts w))).
  { intros message. split; [|split; [reflexivity|split; [reflexivity|]]].
    - exists []. simpl. rewrite app_nil_r. split; reflexivity.
    - left. exists message. split; reflexivity. }
  destruct address as [address'|]; [|apply Halert].
  destruct signer as [signer'|]; [|apply Halert].
  destruct (nonEmpty address'); cbn [negb]; [|apply Halert].
  destruct (claimStates w !! PolicyManager.policyId policy ≫= ClaimState.eligibility)
    as [el|] eqn:Eel; [|apply Halert].
  destruct (ClaimEligibilityState.proof el) as [proof|]; [|apply Halert].
  destruct (isDecimalDigits (PolicyManager.policyId policy)); cbn [negb]; [|apply Halert].
  destruct (submitClaimTry_log env signer' policy el proof
              (ledgerCalls (updateClaimState (PolicyManager.policyId policy)
                 {| ClaimStatePartial.status := Some claiming;
                    ClaimStatePartial.eligibility := None;
                    ClaimStatePartial.error := Some None;
                    ClaimStatePartial.txHash := None |} w)))
    as (new & Hlog & [[Hnone Hfail]|Hpass]);
    [|exfalso; exact (Hguards signer' el eq_refl eq_refl Hpass)].
  destruct (submitClaimTry env signer' policy el proof _) as [log [receipt|e]].
  { exfalso. exact (Hfail receipt eq_refl). }
  cbn [fst] in Hlog. subst log.
  split; [|split; [reflexivity|split; [reflexivity|]]].
  - exists new. split; [reflexivity|exact Hnone].
  - right. split; [|reflexivity].
    now apply claimStatus_updateClaimState.
Qed.


Lemma submitClaimTry_already_claimed (env : Env) (signer : Signer)
    (policy : PolicyManager.PolicyData) (el : ClaimEligibilityState.t)
    (proof : OracleClient.OracleMerkleProof.t) (log : list LedgerCall)
    (proofResult : ClaimProof.GeneratedClaimProof.t) (n : Z) (onChainRoot : string)
    (storedPolicy : LedgerPolicy.t) (walletAddress : string) :
  ClaimProof.generateClaimProof (fullProve env) policy proof
    (ClaimEligibilityState.merkleRoot el) = Ok proofResult ->
  getInsuranceVaultContractWithSigner env = Ok tt ->
  BigInt_ofString (PolicyManager.policyId policy) = Some n ->
  priceMerkleRoot env = Ok onChainRoot ->
  policies env n = Ok storedPolicy ->
  toLowerCase onChainRoot
    = toLowerCase (ClaimProof.formatMerkleRoot (ClaimEligibilityState.merkleRoot el)) ->
  getAddress signer = Ok walletAddress ->
  toLowerCase (LedgerPolicy.buyer storedPolicy) = toLowerCase walletAddress ->
  LedgerPolicy.alreadyClaimed storedPolicy = true ->
  submitClaimTry env signer policy el proof log
  = ((log ++ [CallPriceMerkleRoot; CallPolicies n])%list, Throw AlreadyClaimedError).
Proof.
  intros Hproof Hvault Hpid Hroot Hpol Hsame Haddr Hbuyer Hclaimed.
  unfold submitClaimTry, andThen, lift, issue, guard, ret, throw, orThrow.
  rewrite Hproof, Hvault, Hpid, Hroot. reduce_eff. rewrite Hpol.
  apply String.eqb_eq in Hsame, Hbuyer. rewrite Hsame. reduce_eff.
  rewrite Haddr, Hbuyer, Hclaimed. reduce_eff.
  now rewrite <- app_assoc.
Qed.

(** A submission that reaches the [try] block and fails there ends in the
    error state, with the message of the failure. *)
Lemma handleSubmitClaim_failed (env : Env) (address : string) (signer : Signer)
    (policy : PolicyManager.PolicyData) (w : World) (el : ClaimEligibilityState.t)
    (proof : OracleClient.OracleMerkleProof.t) (log : list LedgerCall) (e : exn) :
  nonEmpty address = true ->
  claimStates w !! PolicyManager.policyId policy ≫= ClaimState.eligibility = Some el ->
  ClaimEligibilityState.proof el = Some proof ->
  isDecimalDigits (PolicyManager.policyId policy) = true ->
  submitClaimTry env signer policy el proof (ledgerCalls w) = (log, Throw e) ->
  let w' := handleSubmitClaim env (Some address) (Some signer) policy w in
  claimStatus w' (PolicyManager.policyId policy) = Some error
  /\ claimError w' (PolicyManager.policyId policy) = Some (exn_message e)
  /\ ledgerCalls w' = log.
Proof.
  intros Haddr Hel Hproof Hid Htry w'. subst w'. unfold handleSubmitClaim.
  rewrite Haddr, Hel, Hproof, Hid. cbn [negb].
  change (ledgerCalls (updateClaimState _ _ w)) with (ledgerCalls w).
  rewrite Htry.
  split; [now apply claimStatus_updateClaimState|].
  split; [now apply claimError_updateClaimState|reflexivity].
Qed.

Lemma forallb_read_no_payout (new : list LedgerCall) :
  forallb isReadCall new = true -> forall args, ~ In (CallClaimPayout args) new.
Proof.
  intros H args Hin. rewrite forallb_forall in H. specialize (H _ Hin). discriminate H.
Qed.



(** C3, as stated, fails.  The claimed flag is read from the ledger, so two
    ledger calls have been issued when the handler learns of it; and when the
    published root is stale as well, the failure reported is the stale-root
    one, because that check comes first. *)
Lemma already_claimed_reads_ledger_first :
  let policy := Examples.policyWithStatus PolicyManager.eligible in
  let submit := fun root =>
    handleSubmitClaim (Examples.ledgerEnv root true) (Some "0xAbC")
      (Some Examples.sampleSigner) policy Examples.sampleWorld in
  (exists storedPolicy,
     policies (Examples.ledgerEnv (hex64 18) true) 7 = Ok storedPolicy
     /\ LedgerPolicy.alreadyClaimed storedPolicy = true)
  /\ ledgerCalls (submit (hex64 18)) = [CallPriceMerkleRoot; CallPolicies 7]
  /\ ledgerCalls (submit (hex64 18)) <> []
  /\ claimError (submit (hex64 19)) "7" = Some (exn_message StaleRootError)
  /\ claimError (submit (hex64 19)) "7" <> Some (exn_message AlreadyClaimedError).
Proof.
  intros policy submit.
  split; [eexists; split; reflexivity|].
  split; [vm_compute; reflexivity|].
  split; [vm_compute; discriminate|].
  split; [vm_compute; reflexivity|vm_compute; discriminate].
Qed.

(** C3, amended.  A claim on a policy whose ledger record is marked claimed
    is turned down without a payout transaction: the only ledger calls are
    the two reads [priceMerkleRoot()] and [policies(policyId)], the store is
    unchanged, and the user sees an alert or the error state.  When the
    submission passes the checks that come before (proof generated, root
    current, wallet is the buyer), the error is the already-claimed one. *)
Theorem handleSubmitClaim_already_claimed (env : Env) (address : option string)
    (signer : option Signer) (policy : PolicyManager.PolicyData) (w : World)
    (n : Z) (storedPolicy : LedgerPolicy.t) :
  BigInt_ofString (PolicyManager.policyId policy) = Some n ->
  policies env n = Ok storedPolicy ->
  LedgerPolicy.alreadyClaimed storedPolicy = true ->
  let policyId := PolicyManager.policyId policy in
  let w' := handleSubmitClaim env address signer policy w in
  (exists new, ledgerCalls w' = (ledgerCalls w ++ new)%list
               /\ forallb isReadCall new = true
               /\ forall args, ~ In (CallClaimPayout args) new)
  /\ localStorage w' = localStorage w
  /\ ((exists message, alerts w' = (alerts w ++ [message])%list
                       /\ claimStates w' = claimStates w)
      \/ claimStatus w' policyId = Some error)
  /\ (forall address' signer' el proof proofResult onChainRoot walletAddress,
        address = Some address' -> nonEmpty address' = true ->
        signer = Some signer' ->
        claimStates w !! policyId ≫= ClaimState.eligibility = Some el ->
        ClaimEligibilityState.proof el = Some proof ->
        isDecimalDigits policyId = true ->
        ClaimProof.generateClaimProof (fullProve env) policy proof
          (ClaimEligibilityState.merkleRoot el) = Ok proofResult ->
        getInsuranceVaultContractWithSigner env = Ok tt ->
        priceMerkleRoot env = Ok onChainRoot ->
        toLowerCase onChainRoot
          = toLowerCase (ClaimProof.formatMerkleRoot (ClaimEligibilityState.merkleRoot el)) ->
        getAddress signer' = Ok walletAddress ->
        toLowerCase (LedgerPolicy.buyer storedPolicy) = toLowerCase walletAddress ->
        claimStatus w' policyId = Some error
        /\ claimError w' policyId = Some (exn_message AlreadyClaimedError)
        /\ ledgerCalls w' = (ledgerCalls w ++ [CallPriceMerkleRoot; CallPolicies n])%list).
Proof.
  intros Hpid Hpol Hclaimed policyId w'.
  assert (Hno : forall signer' el',
            signer = Some signer' ->
            claimStates w !! PolicyManager.policyId policy ≫= ClaimState.eligibility
              = Some el' ->
            ~ guardsPassed env signer' policy el').
  { intros signer' el' _ _ (r & sp & wa & n' & _ & Hn' & Hsp & _ & _ & _ & Hfree).
    rewrite Hpid in Hn'. injection Hn' as <-.
    rewrite Hpol in Hsp. injection Hsp as <-. congruence. }
  destruct (handleSubmitClaim_rejected env address signer policy w Hno)
    as ((new & Hlog & Hread) & Hstore & _ & Hseen).
  fold w' in Hlog, Hstore, Hseen. fold policyId in Hseen.
  split.
  { exists new. split; [exact Hlog|]. split; [exact Hread|].
    now apply forallb_read_no_payout. }
  split; [exact Hstore|].
  split.
  - destruct Hseen as [Halert|[Herr _]]; [left; exact Halert|right; exact Herr].
  - intros address' signer' el proof proofResult onChainRoot walletAddress
      -> Haddr -> Hel Hproof Hid Hgen Hvault Hroot Hsame Hwallet Hbuyer.
    pose proof (submitClaimTry_already_claimed env signer' policy el proof (ledgerCalls w)
                  proofResult n onChainRoot storedPolicy walletAddress
                  Hgen Hvault Hpid Hroot Hpol Hsame Hwallet Hbuyer Hclaimed) as Htry.
    exact (handleSubmitClaim_failed env address' signer' policy w el proof _ _
             Haddr Hel Hproof Hid Htry).
Qed.

Lemma handleSubmitClaim_already_claimed_witness :
  let w' := handleSubmitClaim (Examples.ledgerEnv (hex64 18) true) (Some "0xAbC")
              (Some Examples.sampleSigner)
              (Examples.policyWithStatus PolicyManager.eligible) Examples.sampleWorld in
  claimStatus w' "7" = Some error
  /\ claimError w' "7" = Some "Policy is already claimed on-chain."
  /\ ledgerCalls w' = [CallPriceMerkleRoot; CallPolicies 7]
  /\ localStorage w' = localStorage Examples.sampleWorld.
Proof.
  intros w'.
  destruct (handleSubmitClaim_already_claimed (Examples.ledgerEnv (hex64 18) true)
              (Some "0xAbC") (Some Examples.sampleSigner)
              (Examples.policyWithStatus PolicyManager.eligible) Examples.sampleWorld
              7 {| LedgerPolicy.buyer := "0xabc";
                   LedgerPolicy.commitment := "0x0d";
                   LedgerPolicy.premiumPaid := 3000000;
                   LedgerPolicy.purchaseDate := 1700000000;
                   LedgerPolicy.alreadyClaimed := true |}
              eq_refl eq_refl eq_refl)
    as (_ & Hstore & _ & Hrun).
  destruct (Hrun "0xAbC" Examples.sampleSigner Examples.sampleEligibility
              Examples.sampleProof (ClaimProof.formatProof Examples.sampleFullProof)
              (hex64 18) "0xAbC"
              eq_refl eq_refl eq_refl eq_refl eq_refl eq_refl eq_refl eq_refl eq_refl
              eq_refl eq_refl eq_refl)
    as (Hstatus & Herror & Hcalls).
  split; [exact Hstatus|]. split; [exact Herror|]. split; [exact Hcalls|exact Hstore].
Defined.

End ClaimSubmission.

(* ===================================================================== *)
(** * Numbers: integers that convert exactly                             *)
(* ===================================================================== *)

Section SafeIntegers.

Lemma digits2_pos_bounds (p : positive) :
  2 ^ (Zpos (digits2_pos p) - 1) <= Zpos p < 2 ^ Zpos (digits2_pos p).
Proof.
  induction p as [p IH|p IH|]; simpl digits2_pos.
  - rewrite Pos2Z.inj_succ.
    replace (Z.succ (Zpos (digits2_pos p)) - 1) with (Zpos (digits2_pos p)) by lia.
    rewrite Z.pow_succ_r by lia.
    assert (Zpos (digits2_pos p) = Z.succ (Zpos (digits2_pos p) - 1)) as E by lia.
    rewrite E at 1. rewrite Z.pow_succ_r by lia. lia.
  - rewrite Pos2Z.inj_succ.
    replace (Z.succ (Zpos (digits2_pos p)) - 1) with (Zpos (digits2_pos p)) by lia.
    rewrite Z.pow_succ_r by lia.
    assert (Zpos (digits2_pos p) = Z.succ (Zpos (digits2_pos p) - 1)) as E by lia.
    rewrite E at 1. rewrite Z.pow_succ_r by lia. lia.
  - simpl. lia.
Qed.

Lemma iter_xO_value (p k : positive) : Zpos (Pos.iter xO p k) = Zpos p * 2 ^ Zpos k.
Proof.
  induction k as [|k IH] using Pos.peano_ind.
  - simpl. lia.
  - rewrite Pos.iter_succ, Pos2Z.inj_succ, Z.pow_succ_r by lia.
    rewrite Pos2Z.inj_xO, IH. lia.
Qed.

Lemma iter_xO_digits (p k : positive) :
  digits2_pos (Pos.iter xO p k) = (digits2_pos p + k)%positive.
Proof.
  induction k as [|k IH] using Pos.peano_ind.
  - simpl. lia.
  - rewrite Pos.iter_succ. simpl digits2_pos. rewrite IH. lia.
Qed.

(** A mantissa of exactly 53 bits with an exponent in range is kept as it is. *)
Lemma binary_round_aux_exact (s : bool) (m : positive) (e : Z) :
  Zpos (digits2_pos m) = 53 -> -1000 <= e <= 900 ->
  binary_round_aux prec emax s (Zpos m) e loc_Exact = S754_finite s m e.
Proof.
  intros Hd He. unfold binary_round_aux.
  assert (Hshift : forall l, shr_fexp prec emax (Zpos m) e l
                             = (shr_record_of_loc (Zpos m) l, e)).
  { intros l. unfold shr_fexp, shr. simpl Zdigits2. rewrite Hd.
    replace (fexp prec emax (53 + e) - e) with 0
      by (unfold fexp, SpecFloat.emin, prec, emax; lia).
    reflexivity. }
  rewrite Hshift. simpl shr_m. simpl loc_of_shr_record. simpl round_nearest_even.
  rewrite Hshift. simpl shr_m.
  replace (e <=? emax - prec) with true; [reflexivity|].
  symmetry. apply Z.leb_le. unfold prec, emax. lia.
Qed.

Lemma binary_round_small (s : bool) (p : positive) :
  Zpos p < 2 ^ 53 ->
  exists m e, binary_round prec emax s p 0 = S754_finite s m e
              /\ -52 <= e <= 0 /\ Zpos m = Zpos p * 2 ^ (- e).
Proof.
  intros Hp. pose proof (digits2_pos_bounds p) as [Hlo _].
  assert (Hd : Zpos (digits2_pos p) <= 53).
  { destruct (Z_le_gt_dec (Zpos (digits2_pos p)) 53) as [H|H]; [exact H|].
    exfalso. assert (2 ^ 53 <= 2 ^ (Zpos (digits2_pos p) - 1))
      by (apply Z.pow_le_mono_r; lia). lia. }
  unfold binary_round, shl_align.
  replace (fexp prec emax (Zpos (digits2_pos p) + 0)) with (Zpos (digits2_pos p) - 53)
    by (unfold fexp, SpecFloat.emin, prec, emax; lia).
  destruct (Zpos (digits2_pos p) - 53 - 0) as [|k|k] eqn:Ek; try lia.
  - exists p, 0. rewrite binary_round_aux_exact by lia.
    split; [reflexivity|]. split; [lia|]. simpl. lia.
  - exists (Pos.iter xO p k), (Zpos (digits2_pos p) - 53).
    rewrite binary_round_aux_exact.
    + split; [reflexivity|]. split; [lia|]. rewrite iter_xO_value. f_equal. f_equal. lia.
    + rewrite iter_xO_digits. lia.
    + lia.
Qed.

(** Integers below [2^53] in magnitude survive the conversion to a number
    and back. *)
Lemma BigInt_ofNumber_ofZ (z : Z) :
  Z.abs z < 2 ^ 53 -> BigInt_ofNumber (Number_ofZ z) = Some z.
Proof.
  intros Hz. destruct z as [|p|p]; [reflexivity| |].
  - destruct (binary_round_small false p ltac:(lia)) as (m & e & Hr & He & Hm).
    unfold Number_ofZ, binary_normalize. rewrite Hr. unfold BigInt_ofNumber, signed.
    destruct (Z.leb_spec 0 e) as [H0|H0].
    + assert (e = 0) as -> by lia. simpl in Hm. f_equal. lia.
    + rewrite Hm. rewrite Z.mod_mul by lia. simpl Z.eqb. cbv iota.
      rewrite Z.div_mul by lia. reflexivity.
  - destruct (binary_round_small true p ltac:(lia)) as (m & e & Hr & He & Hm).
    unfold Number_ofZ, binary_normalize. rewrite Hr. unfold BigInt_ofNumber, signed.
    destruct (Z.leb_spec 0 e) as [H0|H0].
    + assert (e = 0) as -> by lia. simpl in Hm. f_equal. lia.
    + assert (Hneg : Zneg m = Zneg p * 2 ^ (- e)) by lia.
      rewrite Hneg. rewrite Z.mod_mul by lia. simpl Z.eqb. cbv iota.
      rewrite Z.div_mul by lia. reflexivity.
Qed.

End SafeIntegers.

(* ===================================================================== *)
(** * Decimal texts, and trimming                                        *)
(* ===================================================================== *)

Section DecimalTexts.

Ltac each_char c :=
  destruct c as [b0 b1 b2 b3 b4 b5 b6 b7];
  destruct b0, b1, b2, b3, b4, b5, b6, b7.

Lemma digitChar_isDigit (d : N) : (d < 10)%N -> isDigit (digitChar d) = true.
Proof.
  intros Hd. assert (H16 : (d < 16)%N) by lia. apply N_below_16 in H16. simpl in H16.
  repeat (destruct H16 as [<-|H16]; [first [reflexivity | lia]|]). contradiction.
Qed.

Lemma digitsOf_isDigit (n : N) : allChars isDigit (digitsOf 10 n) = true.
Proof.
  unfold digitsOf. apply allChars_digitsAux; [lia|exact digitChar_isDigit|reflexivity].
Qed.

Lemma isDigit_notSpace (c : ascii) : isDigit c = true -> notSpace c = true.
Proof. each_char c; intros H; try reflexivity; discriminate H. Qed.

Lemma isDigit_differs (k c : ascii) :
  isDigit k = false -> isDigit c = true -> Ascii.eqb k c = false.
Proof. intros Hk Hc. apply Ascii.eqb_neq. intros ->. congruence. Qed.

Lemma digits_no_prefix2 (k : ascii) (s : string) :
  isDigit k = false -> allChars isDigit s = true ->
  startsWith (String "0" (String k EmptyString)) s = false.
Proof.
  intros Hk Hs. destruct s as [|c1 [|c2 r]]; [reflexivity| |]; cbn [startsWith].
  - apply andb_false_r.
  - simpl in Hs. apply andb_true_iff in Hs as [_ Hs]. apply andb_true_iff in Hs as [Hc2 _].
    rewrite (isDigit_differs k c2 Hk Hc2). apply andb_false_r.
Qed.

Lemma digits_no_prefix1 (k : ascii) (s : string) :
  isDigit k = false -> allChars isDigit s = true ->
  startsWith (String k EmptyString) s = false.
Proof.
  intros Hk Hs. destruct s as [|c r]; [reflexivity|]. cbn [startsWith].
  simpl in Hs. apply andb_true_iff in Hs as [Hc _].
  now rewrite (isDigit_differs k c Hk Hc).
Qed.

(** A text of decimal digits is read as the number it writes. *)
Lemma BigInt_ofString_digits (s : string) :
  allChars isDigit s = true -> nonEmpty s = true ->
  BigInt_ofString s = Z.of_N <$> parseDigits 10 s.
Proof.
  intros Hs Hne. unfold BigInt_ofString.
  rewrite trim_id by (apply (allChars_impl isDigit); [exact isDigit_notSpace|exact Hs]).
  rewrite Hne. cbn [negb].
  rewrite !digits_no_prefix2, !digits_no_prefix1 by (reflexivity || exact Hs).
  reflexivity.
Qed.

(** Printing a bigint in decimal and reading the text gives it back. *)
Lemma BigInt_ofString_toString (z : Z) : BigInt_ofString (BigInt_toString 10 z) = Some z.
Proof.
  destruct z as [|p|p].
  - reflexivity.
  - unfold BigInt_toString.
    rewrite BigInt_ofString_digits by (apply digitsOf_isDigit || apply digitsOf_nonEmpty).
    rewrite parseDigits_digitsOf by lia. simpl. reflexivity.
  - unfold BigInt_toString, BigInt_ofString.
    rewrite trim_id.
    + cbn [nonEmpty negb startsWith Ascii.eqb Bool.eqb andb orb drop].
      rewrite parseDigits_digitsOf by lia. reflexivity.
    + cbn [allChars]. rewrite (allChars_impl isDigit notSpace); [reflexivity| |].
      * exact isDigit_notSpace.
      * apply digitsOf_isDigit.
Qed.

Lemma toString_notSpace (z : Z) : allChars notSpace (BigInt_toString 10 z) = true.
Proof.
  destruct z as [|p|p]; unfold BigInt_toString; cbn [allChars];
    rewrite ?(allChars_impl isDigit notSpace _ isDigit_notSpace (digitsOf_isDigit _));
    reflexivity.
Qed.

Lemma toString_nonEmpty (z : Z) : nonEmpty (BigInt_toString 10 z) = true.
Proof. destruct z; unfold BigInt_toString; try apply digitsOf_nonEmpty. reflexivity. Qed.

Lemma toString_noHexPrefix (z : Z) : hasHexPrefix (BigInt_toString 10 z) = false.
Proof.
  unfold hasHexPrefix. destruct z as [|p|p]; unfold BigInt_toString.
  - reflexivity.
  - rewrite !digits_no_prefix2 by (reflexivity || apply digitsOf_isDigit). reflexivity.
  - reflexivity.
Qed.

(** The same for the unpadded hexadecimal form [0x...]. *)
Lemma BigInt_ofString_hex (z : Z) :
  0 <= z -> BigInt_ofString ("0x" ++ BigInt_toString 16 z) = Some z.
Proof.
  intros Hz.
  assert (Hto : BigInt_toString 16 z = digitsOf 16 (Z.to_N z))
    by (destruct z; [reflexivity|reflexivity|lia]).
  rewrite Hto. unfold BigInt_ofString. rewrite trim_id.
  - rewrite !append_cons, append_nil.
    cbn [nonEmpty negb startsWith Ascii.eqb Bool.eqb andb orb drop].
    rewrite parseDigits_digitsOf by lia. simpl. f_equal. lia.
  - rewrite allChars_append. simpl. apply digitsOf_notSpace.
Qed.

Lemma isDigit_digitValue (c : ascii) :
  isDigit c = true -> exists d, digitValue 10 c = Some d.
Proof.
  each_char c; intros Hc; try discriminate Hc; eexists; reflexivity.
Qed.

Lemma isDecimalDigits_parses (s : string) :
  isDecimalDigits s = true -> exists n, BigInt_ofString s = Some n /\ 0 <= n.
Proof.
  unfold isDecimalDigits. intros H. apply andb_true_iff in H as [Hne Hs].
  rewrite BigInt_ofString_digits by assumption.
  unfold parseDigits. rewrite Hne.
  assert (Hp : forall t acc, allChars isDigit t = true ->
                 exists n, parseDigitsAux 10 t acc = Some n).
  { induction t as [|c t IH]; intros acc Ht; [now exists acc|].
    simpl in Ht. apply andb_true_iff in Ht as [Hc Ht]. simpl.
    destruct (isDigit_digitValue c Hc) as [d ->]. apply IH, Ht. }
  destruct (Hp s 0%N Hs) as [n ->]. exists (Z.of_N n). split; [reflexivity|lia].
Qed.

End DecimalTexts.

(* ===================================================================== *)
(** * More on the field encoder and the root format                      *)
(* ===================================================================== *)

Section FieldEncoderMore.

Import ClaimProof.

Lemma toFieldString_decimal (z : Z) :
  toFieldString (VString (BigInt_toString 10 z)) = Ok (BigInt_toString 10 z).
Proof.
  unfold toFieldString. rewrite trim_id by apply toString_notSpace.
  rewrite toString_nonEmpty. cbn [negb].
  pose proof (toString_noHexPrefix z) as H. unfold hasHexPrefix in H. now rewrite H.
Qed.

Lemma toFieldString_hex64 (z : Z) :
  0 <= z -> toFieldString (VString (hex64 z)) = Ok (BigInt_toString 10 z).
Proof.
  intros Hz. unfold toFieldString. rewrite trim_id by now apply hex64_notSpace.
  rewrite (BigInt_ofString_hex64 z Hz). reflexivity.
Qed.

(** X1.  An integer reaches the prover as the same field string whichever
    way it is handed to the encoder: as a bigint, as a number (below
    [2^53]), as its decimal text, or as the 64-digit hexadecimal text that
    [toHex32] makes of it. *)
Theorem toFieldString_same_for_all_forms (z : Z) (h : string) :
  0 <= z < 2 ^ 53 ->
  toHex32 (VBigInt z) = Ok h ->
  toFieldString (VBigInt z) = Ok (BigInt_toString 10 z)
  /\ toFieldString (VNumber (Number_ofZ z)) = Ok (BigInt_toString 10 z)
  /\ toFieldString (VString (BigInt_toString 10 z)) = Ok (BigInt_toString 10 z)
  /\ toFieldString (VString h) = Ok (BigInt_toString 10 z).
Proof.
  intros Hz Hh. split; [reflexivity|]. split; [|split].
  - unfold toFieldString. rewrite BigInt_ofNumber_ofZ by lia. reflexivity.
  - apply toFieldString_decimal.
  - unfold toHex32 in Hh. cbn [mbind result_bind bind] in Hh. injection Hh as <-.
    apply (toFieldString_hex64 z). lia.
Qed.

Lemma toFieldString_same_for_all_forms_witness :
  toFieldString (VNumber (Number_ofZ 199990000)) = Ok "199990000"
  /\ toFieldString (VString (hex64 199990000)) = Ok "199990000".
Proof.
  destruct (toFieldString_same_for_all_forms 199990000 (hex64 199990000)
              ltac:(lia) eq_refl) as (_ & Hn & _ & Hh).
  split; [exact Hn|exact Hh].
Defined.

(** X2.  Encoding is idempotent on strings: what the encoder returns for a
    string, it returns again when given its own output. *)
Theorem toFieldString_idempotent (s out : string) :
  toFieldString (VString s) = Ok out -> toFieldString (VString out) = Ok out.
Proof.
  unfold toFieldString at 1.
  destruct (nonEmpty (trim s)) eqn:Hne; cbn [negb].
  - destruct (startsWith "0x" (trim s) || startsWith "0X" (trim s)) eqn:Hhex.
    + destruct (BigInt_ofString (trim s)) as [z|] eqn:Hbig.
      * intros H. injection H as <-. apply toFieldString_decimal.
      * intros H. injection H as <-. unfold toFieldString.
        rewrite trim_trim, Hne, Hhex, Hbig. reflexivity.
    + intros H. injection H as <-. unfold toFieldString.
      rewrite trim_trim, Hne, Hhex. reflexivity.
  - intros H. injection H as <-. reflexivity.
Qed.

Lemma toFieldString_idempotent_witness :
  toFieldString (VString " 0x1F ") = Ok "31" /\ toFieldString (VString "31") = Ok "31".
Proof.
  split; [reflexivity|]. apply (toFieldString_idempotent " 0x1F " "31"). reflexivity.
Defined.

Lemma mapResult_parse_printed (zs : list Z) :
  mapResult (fun signal => orThrow SyntaxError (BigInt_ofString signal))
            (map (BigInt_toString 10) zs) = Ok zs.
Proof.
  induction zs as [|z zs IH]; [reflexivity|].
  cbn [map mapResult]. rewrite BigInt_ofString_toString.
  cbn [orThrow mbind result_bind bind]. rewrite IH. reflexivity.
Qed.

(** X3.  Public signals survive the trip to the contract call: the decimal
    texts of a list of integers are read back by [formatPublicSignals] as
    that list, and any list it accepts has one integer per signal, each the
    value of its text. *)
Theorem formatPublicSignals_roundtrip (zs : list Z) (signals : list string) :
  formatPublicSignals (map (BigInt_toString 10) zs) = Ok zs
  /\ (formatPublicSignals signals = Ok zs ->
      Forall2 (fun signal z => BigInt_ofString signal = Some z) signals zs).
Proof.
  split; [apply mapResult_parse_printed|].
  unfold formatPublicSignals. revert zs.
  induction signals as [|s signals IH]; intros zs H.
  - injection H as <-. constructor.
  - cbn [mapResult] in H.
    destruct (BigInt_ofString s) as [z|] eqn:Es; [|discriminate H].
    cbn [orThrow mbind result_bind bind] in H.
    destruct (mapResult _ signals) as [zs'|e] eqn:Er; [|discriminate H].
    cbn [mbind result_bind bind] in H. injection H as <-.
    constructor; [exact Es|]. now apply IH.
Qed.

Lemma formatPublicSignals_roundtrip_witness :
  Forall2 (fun signal z => BigInt_ofString signal = Some z) ["1"; "0x10"] [1; 16].
Proof.
  apply (proj2 (formatPublicSignals_roundtrip [1; 16] ["1"; "0x10"])). reflexivity.
Defined.

Lemma formatMerkleRoot_parsed (root : string) (y : Z) :
  BigInt_ofString root = Some y -> formatMerkleRoot root = hex64 y.
Proof.
  intros H. unfold formatMerkleRoot, toHex32. rewrite H. reflexivity.
Qed.

Lemma formatMerkleRoot_unparsed (root : string) :
  BigInt_ofString root = None -> formatMerkleRoot root = root.
Proof.
  intros H. unfold formatMerkleRoot, toHex32. rewrite H. reflexivity.
Qed.

(** X4.  Formatting a Merkle root is idempotent: a formatted root is left as
    it is by a second formatting, whether or not the root was an integer
    literal. *)
Theorem formatMerkleRoot_idempotent (root : string) :
  formatMerkleRoot (formatMerkleRoot root) = formatMerkleRoot root.
Proof.
  destruct (BigInt_ofString root) as [y|] eqn:E.
  - rewrite (formatMerkleRoot_parsed root y E).
    destruct y as [|p|p].
    + apply formatMerkleRoot_parsed, BigInt_ofString_hex64. lia.
    + apply formatMerkleRoot_parsed, BigInt_ofString_hex64. lia.
    + apply formatMerkleRoot_unparsed, BigInt_ofString_hex64_negative.
  - rewrite (formatMerkleRoot_unparsed root E). now apply formatMerkleRoot_unparsed.
Qed.

(** X5.  The root check of the claim handler compares values: against a
    ledger root in the 32-byte form of a non-negative integer [v], the
    snapshot root passes exactly when it reads as [v], in whatever notation
    (decimal, hexadecimal, any case, padded or not, with white space of any
    kind around it). *)
Theorem root_check_compares_values (v : Z) (snapshotRoot : string) :
  0 <= v ->
  (String.eqb (toLowerCase (hex64 v)) (toLowerCase (formatMerkleRoot snapshotRoot)) = true
   <-> BigInt_ofString snapshotRoot = Some v).
Proof.
  intros Hv. split.
  - intros H. apply String.eqb_eq in H.
    apply (f_equal BigInt_ofString) in H.
    rewrite !BigInt_ofString_toLowerCase, (BigInt_ofString_hex64 v Hv) in H.
    destruct (BigInt_ofString snapshotRoot) as [y|] eqn:E.
    + rewrite (formatMerkleRoot_parsed _ y E) in H. destruct y as [|p|p].
      * rewrite BigInt_ofString_hex64 in H by lia. congruence.
      * rewrite BigInt_ofString_hex64 in H by lia. congruence.
      * rewrite BigInt_ofString_hex64_negative in H. discriminate H.
    + rewrite (formatMerkleRoot_unparsed _ E), E in H. discriminate H.
  - intros H. rewrite (formatMerkleRoot_parsed _ v H). apply String.eqb_refl.
Qed.

Lemma root_check_compares_values_witness :
  String.eqb (toLowerCase (hex64 18)) (toLowerCase (formatMerkleRoot " 0X12 ")) = true
  /\ String.eqb (toLowerCase (hex64 18)) (toLowerCase (formatMerkleRoot "18")) = true
  /\ String.eqb (toLowerCase (hex64 18))
       (toLowerCase (formatMerkleRoot (Examples.nbsp ++ "0x12" ++ Examples.nbsp))) = true.
Proof.
  split; [|split]; apply (root_check_compares_values 18); (lia || reflexivity).
Defined.

End FieldEncoderMore.

(* ===================================================================== *)
(** * More on the tier table and the commitment                          *)
(* ===================================================================== *)

Section TierTableMore.

Import Commitment.

Lemma classifyIn_Ok_inv (table : list TierBoundary) (x : Z) (tp : Z * Z) :
  classifyIn table x = Ok tp ->
  exists b, In b table /\ contains b x = true /\ tp = (tier b, premium b).
Proof.
  induction table as [|b0 rest IH]; intros H; [discriminate H|].
  simpl in H. destruct (contains b0 x) eqn:E.
  - injection H as <-. exists b0. split; [now left|]. now split.
  - destruct (IH H) as (b & Hin & Hc & Htp). exists b. split; [now right|]. now split.
Qed.

Lemma classifyIn_Throw_inv (table : list TierBoundary) (x : Z) (e : exn) :
  classifyIn table x = Throw e -> e = OutOfRangeError x.
Proof.
  induction table as [|b0 rest IH]; simpl; [congruence|].
  destruct (contains b0 x); [discriminate|exact IH].
Qed.

(** X6.  The insurable prices are exactly five ranges of micro-units:
    1000000..99999999, 100000000..499000000, 500000000..999000000,
    1000000000..1999000000 and 2000000000..10000000000.  Every other price is
    rejected, among them the prices that lie strictly between the end of one
    of the upper four ranges and the start of the next. *)
Theorem calculateTierAndPremium_accepts_exactly (x : Z) :
  (exists tp, calculateTierAndPremium x = Ok tp)
  <-> (1000000 <= x <= 99999999
       \/ 100000000 <= x <= 499000000
       \/ 500000000 <= x <= 999000000
       \/ 1000000000 <= x <= 1999000000
       \/ 2000000000 <= x <= 10000000000).
Proof.
  split.
  - intros (tp & H). apply classifyIn_Ok_inv in H as (b & Hin & Hc & _).
    apply contains_spec in Hc. simpl in Hin.
    repeat (destruct Hin as [<-|Hin]; [simpl in Hc; lia|]). contradiction.
  - intros H. unfold calculateTierAndPremium, TIER_BOUNDARIES, classifyIn, contains.
    cbn [Commitment.min Commitment.max tier premium].
    repeat match goal with
           | |- context [(?a <=? ?b)] => destruct (Z.leb_spec a b); cbn [andb]
           end; try (eexists; reflexivity); lia.
Qed.

(** X7.  Classification is monotone and never charges more than the price:
    of two accepted prices the higher one gets a tier and a premium at least
    as high, every tier is between 1 and 5, and the premium is positive and at
    most the price insured. *)
Theorem calculateTierAndPremium_monotone (x y : Z) (tx ty : Z * Z) :
  calculateTierAndPremium x = Ok tx ->
  calculateTierAndPremium y = Ok ty ->
  x <= y ->
  fst tx <= fst ty /\ snd tx <= snd ty
  /\ 1 <= fst tx <= 5 /\ 0 < snd tx <= x.
Proof.
  intros Hx Hy Hle.
  apply classifyIn_Ok_inv in Hx as (bx & Hinx & Hcx & ->).
  apply classifyIn_Ok_inv in Hy as (b & Hiny & Hcy & ->).
  apply contains_spec in Hcx, Hcy. simpl in Hinx, Hiny. cbn [fst snd].
  repeat (destruct Hinx as [<-|Hinx]; [|]); try contradiction;
    repeat (destruct Hiny as [<-|Hiny]; [|]); try contradiction;
    simpl in Hcx, Hcy |- *; lia.
Qed.

Lemma calculateTierAndPremium_monotone_witness :
  fst (2, 3000000) <= fst (3, 7000000) /\ snd (2, 3000000) <= snd (3, 7000000)
  /\ 1 <= fst (2, 3000000) <= 5 /\ 0 < snd (2, 3000000) <= 199990000.
Proof.
  apply (calculateTierAndPremium_monotone 199990000 600000000 (2, 3000000) (3, 7000000));
    [reflexivity|reflexivity|lia].
Defined.

End TierTableMore.

Section SaltValue.

Import Commitment.

Lemma parseDigitsAux_append (radix : N) (s t : string) (acc : N) :
  parseDigitsAux radix (s ++ t) acc =
  match parseDigitsAux radix s acc with
  | Some n => parseDigitsAux radix t n
  | None => None
  end.
Proof.
  revert acc. induction s as [|c s IH]; intros acc; [now rewrite append_nil|].
  rewrite append_cons. simpl. destruct (digitValue radix c); [apply IH|reflexivity].
Qed.

Lemma byteHex_digits (b : byte) :
  byteHex b = String (digitChar (Byte.to_N b / 16)) (String (digitChar (Byte.to_N b mod 16)) "").
Proof. destruct b; reflexivity. Qed.

Lemma to_N_below_256 (b : byte) : (Byte.to_N b < 256)%N.
Proof. destruct b; reflexivity. Qed.

Lemma parseDigitsAux_byteHex (b : byte) (acc : N) :
  parseDigitsAux 16 (byteHex b) acc = Some (acc * 256 + Byte.to_N b)%N.
Proof.
  rewrite byteHex_digits. pose proof (to_N_below_256 b) as Hb.
  assert (Hq : (Byte.to_N b / 16 < 16)%N) by (apply N.Div0.div_lt_upper_bound; lia).
  assert (Hr : (Byte.to_N b mod 16 < 16)%N) by (apply N.mod_lt; lia).
  simpl. rewrite !digitValue_digitChar by lia. f_equal.
  pose proof (N.div_mod (Byte.to_N b) 16 ltac:(lia)). lia.
Qed.

Lemma parseDigitsAux_saltHex (saltArray : list byte) (acc : N) :
  parseDigitsAux 16 (String.concat "" (map byteHex saltArray)) acc =
  Some (fold_left (fun a b => a * 256 + Byte.to_N b)%N saltArray acc).
Proof.
  revert acc. induction saltArray as [|b rest IH]; intros acc; [reflexivity|].
  simpl. destruct rest as [|b' rest'].
  - simpl. apply parseDigitsAux_byteHex.
  - change (map byteHex (b' :: rest')) with (byteHex b' :: map byteHex rest') at 1.
    cbv iota. rewrite append_nil, parseDigitsAux_append, parseDigitsAux_byteHex.
    apply IH.
Qed.

Lemma bytesValue_of_N (saltArray : list byte) (acc : N) :
  fold_left (fun a b => a * 256 + Z.of_N (Byte.to_N b)) saltArray (Z.of_N acc) =
  Z.of_N (fold_left (fun a b => a * 256 + Byte.to_N b)%N saltArray acc).
Proof.
  revert acc. induction saltArray as [|b rest IH]; intros acc; [reflexivity|].
  simpl. rewrite <- IH. f_equal. lia.
Qed.

(** The salt text reads back as the value of the bytes. *)
Lemma salt_value (saltArray : list byte) :
  saltArray <> [] ->
  BigInt_ofString ("0x" ++ String.concat "" (map byteHex saltArray)) = Some (bytesValue saltArray).
Proof.
  intros Hne. unfold BigInt_ofString.
  rewrite trim_id.
  - rewrite !append_cons, append_nil.
    cbn [nonEmpty negb startsWith Ascii.eqb Bool.eqb andb orb drop].
    unfold parseDigits. rewrite saltHex_nonEmpty by exact Hne.
    rewrite parseDigitsAux_saltHex. cbn [fmap option_fmap option_map].
    unfold bytesValue. now rewrite <- bytesValue_of_N.
  - rewrite allChars_append. simpl.
    apply (allChars_impl isHexDigit), saltHex_isHexDigit. apply isHexDigit_notSpace.
Qed.

Lemma fold_bytes_bounds (bytes : list byte) (acc : Z) :
  let v := fold_left (fun a b => a * 256 + Z.of_N (Byte.to_N b)) bytes acc in
  acc * 256 ^ Z.of_nat (length bytes) <= v < (acc + 1) * 256 ^ Z.of_nat (length bytes).
Proof.
  revert acc. induction bytes as [|b rest IH]; intros acc; cbn zeta.
  - simpl. lia.
  - cbn [fold_left length]. rewrite Nat2Z.inj_succ, Z.pow_succ_r by lia.
    specialize (IH (acc * 256 + Z.of_N (Byte.to_N b))). cbn zeta in IH.
    pose proof (to_N_below_256 b) as Hb.
    assert (0 < 256 ^ Z.of_nat (length rest)) by (apply Z.pow_pos_nonneg; lia).
    nia.
Qed.

Lemma bytesValue_bounds (bytes : list byte) :
  0 <= bytesValue bytes < 256 ^ Z.of_nat (length bytes).
Proof. pose proof (fold_bytes_bounds bytes 0) as H. cbn zeta in H. unfold bytesValue. lia. Qed.

Lemma to_N_inj (a b : byte) : Byte.to_N a = Byte.to_N b -> a = b.
Proof.
  intros H. apply (f_equal Byte.of_N) in H. rewrite !Byte.of_to_N in H. now injection H.
Qed.

Lemma fold_bytes_inj (l1 l2 : list byte) (a1 a2 : Z) :
  length l1 = length l2 ->
  fold_left (fun a b => a * 256 + Z.of_N (Byte.to_N b)) l1 a1 =
  fold_left (fun a b => a * 256 + Z.of_N (Byte.to_N b)) l2 a2 ->
  a1 = a2 /\ l1 = l2.
Proof.
  revert l2 a1 a2. induction l1 as [|b1 r1 IH]; intros [|b2 r2] a1 a2 Hlen H;
    try discriminate Hlen.
  - now split.
  - simpl in H. injection Hlen as Hlen. destruct (IH _ _ _ Hlen H) as [Ha ->].
    pose proof (to_N_below_256 b1). pose proof (to_N_below_256 b2).
    assert (a1 = a2) by lia. subst a2. split; [reflexivity|].
    f_equal. apply to_N_inj. lia.
Qed.

Lemma bytesValue_inj (l1 l2 : list byte) :
  length l1 = length l2 -> bytesValue l1 = bytesValue l2 -> l1 = l2.
Proof. intros Hlen H. now destruct (fold_bytes_inj l1 l2 0 0 Hlen H). Qed.

End SaltValue.

Section CommitmentMore.

Import Commitment.

Variable keccak256 : string -> Z.
Variable poseidon : list Z -> Z.
Variable Date_getTime : string -> number.

(** What a successful run of [buildCommitment] went through. *)
Lemma buildCommitment_Ok_inv (invoiceData : InvoiceData) (saltArray : list byte)
    (r : CommitmentResult) :
  buildCommitment keccak256 poseidon Date_getTime invoiceData saltArray = Ok r ->
  exists (price date saltBig orderHashBig productHashBig : Z) (tp : Z * Z),
    BigInt_ofNumber (Math_round (mul (purchasePriceUsd invoiceData) (Number_ofZ TOKEN_MULTIPLIER)))
      = Some price
    /\ BigInt_ofString (keccak256Hex keccak256 (productId invoiceData)) = Some productHashBig
    /\ BigInt_ofString ("0x" ++ String.concat "" (map byteHex saltArray)) = Some saltBig
    /\ calculateTierAndPremium price = Ok tp
    /\ BigInt_ofString (keccak256Hex keccak256 (orderNumber invoiceData)) = Some orderHashBig
    /\ BigInt_ofNumber (Math_floor (div (Date_getTime (purchaseDate invoiceData)) (Number_ofZ 1000)))
       = Some date
    /\ r = {| commitment :=
                hex64 (poseidon [orderHashBig; price; date; poseidon [productHashBig];
                                 saltBig; fst tp]);
              details :=
                {| orderHash := keccak256Hex keccak256 (orderNumber invoiceData);
                   invoicePrice := price;
                   invoiceDate :=
                     Math_floor (div (Date_getTime (purchaseDate invoiceData)) (Number_ofZ 1000));
                   productHash := poseidon [productHashBig];
                   salt := saltBig;
                   selectedTier := fst tp |};
              resultTier := fst tp;
              resultPremium := snd tp |}.
Proof.
  unfold buildCommitment. intros H.
  destruct (BigInt_ofNumber (Math_round _)) as [price|] eqn:Hprice; [|discriminate H].
  cbn [mbind result_bind bind orThrow] in H.
  destruct (BigInt_ofString (keccak256Hex keccak256 (productId invoiceData)))
    as [productHashBig|] eqn:Hprod; [|discriminate H].
  cbn [mbind result_bind bind orThrow] in H.
  destruct (BigInt_ofString ("0x" ++ _)) as [saltBig|] eqn:Hsalt; [|discriminate H].
  cbn [mbind result_bind bind orThrow] in H.
  destruct (calculateTierAndPremium price) as [tp|e] eqn:Htier; [|discriminate H].
  cbn [mbind result_bind bind orThrow] in H.
  cbn [Commitment.orderHash Commitment.invoiceDate Commitment.invoicePrice
       Commitment.productHash Commitment.salt selectedTier] in H.
  destruct (BigInt_ofString (keccak256Hex keccak256 (orderNumber invoiceData)))
    as [orderHashBig|] eqn:Horder; [|discriminate H].
  cbn [mbind result_bind bind orThrow] in H.
  destruct (BigInt_ofNumber (Math_floor _)) as [date|] eqn:Hdate; [|discriminate H].
  cbn [mbind result_bind bind orThrow] in H.
  injection H as <-.
  exists price, date, saltBig, orderHashBig, productHashBig, tp.
  repeat (split; [assumption || reflexivity|]). reflexivity.
Qed.

(** X8.  Whatever [buildCommitment] returns is consistent with the tier
    table: the tier and the premium of the result are the ones the table gives
    for the committed price, the opening carries that same tier, the committed
    price lies between 1000000 and 10000000000 micro-units, the premium is
    positive and at most the price, and the committed price is the invoice
    price times 1000000 rounded to an integer. *)
Theorem buildCommitment_result_consistent (invoiceData : InvoiceData) (saltArray : list byte)
    (r : CommitmentResult) :
  buildCommitment keccak256 poseidon Date_getTime invoiceData saltArray = Ok r ->
  calculateTierAndPremium (invoicePrice (details r)) = Ok (resultTier r, resultPremium r)
  /\ selectedTier (details r) = resultTier r
  /\ 1 <= resultTier r <= 5
  /\ 1000000 <= invoicePrice (details r) <= 10000000000
  /\ 0 < resultPremium r <= invoicePrice (details r)
  /\ BigInt_ofNumber (Math_round (mul (purchasePriceUsd invoiceData) (Number_ofZ TOKEN_MULTIPLIER)))
     = Some (invoicePrice (details r)).
Proof.
  intros H.
  destruct (buildCommitment_Ok_inv _ _ _ H)
    as (price & date & saltBig & ohb & phb & tp & Hprice & _ & _ & Htier & _ & _ & ->).
  cbn [details resultTier resultPremium invoicePrice selectedTier].
  split; [now rewrite Htier, <- surjective_pairing|].
  split; [reflexivity|].
  pose proof Htier as Hin.
  apply classifyIn_Ok_inv in Hin as (b & Hin & Hc & ->).
  apply contains_spec in Hc. cbn [fst snd]. simpl in Hin.
  repeat (destruct Hin as [<-|Hin]; [simpl in Hc |- *; repeat split; try lia; exact Hprice|]).
  contradiction.
Qed.

(** X9.  The value committed as salt is the integer that the salt bytes
    write, most significant byte first: it is below 256 to the number of
    bytes (2^256 for the 32 bytes drawn), and two runs whose salt arrays have
    the same length and differ commit to different salts. *)
Theorem buildCommitment_salt_is_bytes (invoiceData invoiceData' : InvoiceData)
    (saltArray saltArray' : list byte) (r r' : CommitmentResult) :
  buildCommitment keccak256 poseidon Date_getTime invoiceData saltArray = Ok r ->
  buildCommitment keccak256 poseidon Date_getTime invoiceData' saltArray' = Ok r' ->
  length saltArray = length saltArray' ->
  salt (details r) = bytesValue saltArray
  /\ 0 <= salt (details r) < 256 ^ Z.of_nat (length saltArray)
  /\ (salt (details r) = salt (details r') -> saltArray = saltArray').
Proof.
  intros H H' Hlen.
  destruct (buildCommitment_Ok_inv _ _ _ H)
    as (price & date & saltBig & ohb & phb & tp & _ & _ & Hsalt & _ & _ & _ & ->).
  destruct (buildCommitment_Ok_inv _ _ _ H')
    as (price' & date' & saltBig' & ohb' & phb' & tp' & _ & _ & Hsalt' & _ & _ & _ & ->).
  cbn [details salt].
  destruct saltArray as [|b rest].
  { exfalso. vm_compute in Hsalt. discriminate Hsalt. }
  destruct saltArray' as [|b' rest']; [discriminate Hlen|].
  rewrite salt_value in Hsalt, Hsalt' by discriminate.
  injection Hsalt as <-. injection Hsalt' as <-.
  split; [reflexivity|]. split; [apply bytesValue_bounds|].
  now apply bytesValue_inj.
Qed.

(** X10.  How [buildCommitment] fails, for 32 salt bytes and digests that
    are non-negative: a price that does not convert to an integer of
    micro-units (NaN or infinite) is a RangeError; an integral price that the
    tier table does not contain is the table's error naming that price; and
    a classified price with a date that is not a valid date is a RangeError.
    The digests and the salt never make it fail. *)
Theorem buildCommitment_failures (invoiceData : InvoiceData) (saltArray : list byte) :
  (forall s, 0 <= keccak256 s) ->
  length saltArray = 32%nat ->
  let micro := BigInt_ofNumber
                 (Math_round (mul (purchasePriceUsd invoiceData) (Number_ofZ TOKEN_MULTIPLIER))) in
  let run := buildCommitment keccak256 poseidon Date_getTime invoiceData saltArray in
  (micro = None -> run = Throw RangeError)
  /\ (forall price, micro = Some price ->
        (forall tp, calculateTierAndPremium price <> Ok tp) ->
        run = Throw (OutOfRangeError price))
  /\ (forall price tp, micro = Some price -> calculateTierAndPremium price = Ok tp ->
        Date_getTime (purchaseDate invoiceData) = S754_nan ->
        run = Throw RangeError).
Proof.
  intros Hk Hlen micro run. subst micro run. unfold buildCommitment.
  assert (Hhex : forall s, BigInt_ofString (keccak256Hex keccak256 s) = Some (keccak256 s))
    by (intros s; apply BigInt_ofString_hex64, Hk).
  destruct (salt_parses saltArray) as [saltBig [Hsalt _]].
  { intros ->. discriminate Hlen. }
  split; [|split].
  - intros ->. reflexivity.
  - intros price -> Hnone. cbn [mbind result_bind bind orThrow].
    rewrite Hhex. cbn [mbind result_bind bind orThrow].
    rewrite Hsalt. cbn [mbind result_bind bind orThrow].
    destruct (calculateTierAndPremium price) as [tp|e] eqn:Htier; [now destruct (Hnone tp)|].
    cbn [mbind result_bind bind orThrow]. f_equal.
    unfold calculateTierAndPremium in Htier.
    destruct (classifyIn_Throw_inv _ _ _ Htier). reflexivity.
  - intros price tp -> Htier Hnan. cbn [mbind result_bind bind orThrow].
    rewrite Hhex. cbn [mbind result_bind bind orThrow].
    rewrite Hsalt. cbn [mbind result_bind bind orThrow].
    rewrite Htier. cbn [mbind result_bind bind orThrow].
    cbn [Commitment.orderHash Commitment.invoiceDate Commitment.invoicePrice
         Commitment.productHash Commitment.salt selectedTier].
    rewrite Hhex. cbn [mbind result_bind bind orThrow].
    rewrite Hnan. reflexivity.
Qed.

End CommitmentMore.

Lemma buildCommitment_result_consistent_witness :
  exists r,
    Commitment.buildCommitment Examples.sampleKeccak256 Examples.samplePoseidon
      Examples.sampleDate_getTime Examples.sampleInvoice (repeat x2a 32) = Ok r
    /\ Commitment.calculateTierAndPremium (Commitment.invoicePrice (Commitment.details r))
       = Ok (Commitment.resultTier r, Commitment.resultPremium r)
    /\ Commitment.selectedTier (Commitment.details r) = Commitment.resultTier r.
Proof.
  destruct (Commitment.buildCommitment Examples.sampleKeccak256 Examples.samplePoseidon
              Examples.sampleDate_getTime Examples.sampleInvoice (repeat x2a 32))
    as [r|e] eqn:Hrun; [|vm_compute in Hrun; discriminate Hrun].
  exists r. split; [reflexivity|].
  destruct (buildCommitment_result_consistent _ _ _ _ _ _ Hrun) as (H1 & H2 & _).
  split; [exact H1|exact H2].
Defined.

Lemma buildCommitment_salt_is_bytes_witness :
  exists r,
    Commitment.buildCommitment Examples.sampleKeccak256 Examples.samplePoseidon
      Examples.sampleDate_getTime Examples.sampleInvoice (repeat x2a 32) = Ok r
    /\ Commitment.salt (Commitment.details r) = Commitment.bytesValue (repeat x2a 32)
    /\ 0 <= Commitment.salt (Commitment.details r) < 2 ^ 256.
Proof.
  destruct (Commitment.buildCommitment Examples.sampleKeccak256 Examples.samplePoseidon
              Examples.sampleDate_getTime Examples.sampleInvoice (repeat x2a 32))
    as [r|e] eqn:Hrun; [|vm_compute in Hrun; discriminate Hrun].
  exists r. split; [reflexivity|].
  destruct (buildCommitment_salt_is_bytes _ _ _ _ _ _ _ _ _ Hrun Hrun eq_refl) as (H1 & H2 & _).
  split; [exact H1|exact H2].
Defined.

Lemma buildCommitment_failures_witness :
  Commitment.buildCommitment Examples.sampleKeccak256 Examples.samplePoseidon
    Examples.sampleDate_getTime (Examples.invoiceOf 50) (repeat x2a 32)
  = Throw (Commitment.OutOfRangeError 500000).
Proof.
  apply (proj1 (proj2 (buildCommitment_failures Examples.sampleKeccak256 Examples.samplePoseidon
                         Examples.sampleDate_getTime (Examples.invoiceOf 50) (repeat x2a 32)
                         (fun s => Nat2Z.is_nonneg (String.length s)) eq_refl)));
    [reflexivity|].
  intros tp H. vm_compute in H. discriminate H.
Defined.

(* ===================================================================== *)
(** * More on the eligibility check                                    *)
(* ===================================================================== *)

Section EligibilityMore.

Import OracleClient.

Context {engine : CaseConversion}.

Lemma ge_nan (x : number) : ge x S754_nan = false.
Proof. reflexivity. Qed.

(** X11.  A successful eligibility check never reports a policy eligible
    without a price drop.  The two amounts it reports are decimal texts that
    read back as integers, the payout is never negative, an eligible result
    has a current price strictly below the insured price and a payout equal
    to the whole difference, a current price at or above the insured price is
    never eligible, and a threshold that is not a number makes nothing
    eligible. *)
Theorem checkEligibility_eligible_needs_drop (oracle : Oracle) (productId : string)
    (originalPrice : Z) (threshold : number) (r : EligibilityResult.t) :
  checkEligibility oracle productId originalPrice threshold = Ok r ->
  exists currentPrice payout,
    BigInt_ofString (EligibilityResult.currentPrice r) = Some currentPrice
    /\ BigInt_ofString (EligibilityResult.payoutAmount r) = Some payout
    /\ 0 <= payout
    /\ (EligibilityResult.eligible r = true ->
        currentPrice < originalPrice /\ payout = originalPrice - currentPrice)
    /\ (originalPrice <= currentPrice -> EligibilityResult.eligible r = false /\ payout = 0)
    /\ (threshold = S754_nan -> EligibilityResult.eligible r = false).
Proof.
  intros Hok.
  destruct (checkEligibility_Ok_inv _ _ _ _ _ Hok)
    as (response & entry & proof & currentPrice & E1 & E2 & E3 & E4 & Hdef).
  rewrite Hok in Hdef. cbv zeta in Hdef. injection Hdef as ->.
  exists currentPrice, (Z.max 0 (originalPrice - currentPrice)).
  cbn [EligibilityResult.currentPrice EligibilityResult.payoutAmount EligibilityResult.eligible].
  rewrite drop_is_max, !BigInt_ofString_toString.
  split; [reflexivity|]. split; [reflexivity|]. split; [lia|].
  split; [|split].
  - intros H. apply andb_true_iff in H as [H _]. apply Z.gtb_lt in H. lia.
  - intros Hle. replace (Z.max 0 (originalPrice - currentPrice)) with 0 by lia.
    split; reflexivity.
  - intros ->. rewrite ge_nan. apply andb_false_r.
Qed.

(** X12.  The content of the Merkle proof has no influence on the outcome of
    an eligibility check: whatever the proof endpoint answers for the matched
    product is passed through unchanged in the [proof] field, and every other
    field of the result (the verdict, the amounts, and the Merkle root, which
    is the one reported with the prices) is the same.  In particular a proof
    whose root differs from the reported root is accepted. *)
Theorem checkEligibility_proof_passed_through (oracle : Oracle)
    (f : OracleMerkleProof.t -> OracleMerkleProof.t)
    (productId : string) (originalPrice : Z) (threshold : number) :
  checkEligibility
    {| getOraclePrices := getOraclePrices oracle;
       getMerkleProof := fun id => p ← getMerkleProof oracle id; Ok (f p) |}
    productId originalPrice threshold
  = (r ← checkEligibility oracle productId originalPrice threshold;
     Ok {| EligibilityResult.eligible := EligibilityResult.eligible r;
           EligibilityResult.dropPercentage := EligibilityResult.dropPercentage r;
           EligibilityResult.dropAmount := EligibilityResult.dropAmount r;
           EligibilityResult.currentPrice := EligibilityResult.currentPrice r;
           EligibilityResult.merkleRoot := EligibilityResult.merkleRoot r;
           EligibilityResult.proof := f (EligibilityResult.proof r);
           EligibilityResult.payoutAmount := EligibilityResult.payoutAmount r |}).
Proof.
  unfold checkEligibility. cbn [getOraclePrices getMerkleProof].
  destruct (getOraclePrices oracle) as [response|e]; [|reflexivity].
  cbn [mbind result_bind bind].
  destruct (List.find _ _) as [entry|]; [|reflexivity].
  cbn [mbind result_bind bind orThrow].
  destruct (getMerkleProof oracle (OraclePrice.id entry)) as [proof|e]; [|reflexivity].
  cbn [mbind result_bind bind orThrow].
  destruct (BigInt_ofNumber (OraclePrice.currentPrice entry)) as [c|]; reflexivity.
Qed.

Lemma find_ext {A : Type} (p q : A -> bool) (l : list A) :
  (forall x, p x = q x) -> List.find p l = List.find q l.
Proof. intros H. induction l as [|x l IH]; [reflexivity|]. simpl. now rewrite H, IH. Qed.

(** X13.  The lookup only sees the key of the requested identifier, that
    is, the letters A to Z and the digits that are left of the identifier as
    the engine converts it to upper case: two identifiers with the same
    non-empty key select the same catalog entry, and whenever the check
    succeeds for one it succeeds for the other with the same result.  Which
    identifiers share a key is for the engine's conversion to say; identifiers
    of ASCII text share it when they have the same letters and digits, in any
    case and with any punctuation or spacing between them. *)
Theorem checkEligibility_same_key_same_result (oracle : Oracle) (a b : string)
    (originalPrice : Z) (threshold : number) :
  normalizeOracleProductId a = normalizeOracleProductId b ->
  nonEmpty (normalizeOracleProductId a) = true ->
  (forall prices, List.find (matchesProduct a) prices = List.find (matchesProduct b) prices)
  /\ (forall r, checkEligibility oracle a originalPrice threshold = Ok r ->
                checkEligibility oracle b originalPrice threshold = Ok r).
Proof.
  intros Hkey Hne.
  assert (Hm : forall e, matchesProduct a e = matchesProduct b e).
  { intros e. unfold matchesProduct. rewrite <- Hkey, Hne. reflexivity. }
  split; [intros prices; apply find_ext, Hm|].
  intros r. unfold checkEligibility.
  destruct (getOraclePrices oracle) as [response|e]; [|discriminate].
  cbn [mbind result_bind bind].
  rewrite (find_ext _ _ _ Hm).
  destruct (List.find _ _) as [entry|]; [|discriminate].
  cbn [mbind result_bind bind orThrow]. intros H. exact H.
Qed.

End EligibilityMore.

Section EligibilityMoreExamples.

Import OracleClient.

#[local] Existing Instance Examples.asciiCase.

Lemma checkEligibility_eligible_needs_drop_witness :
  exists r,
    checkEligibility Examples.sampleOracle "X1" 199990000 (Number_ofZ 10) = Ok r
    /\ BigInt_ofString (EligibilityResult.currentPrice r) = Some 99990000
    /\ BigInt_ofString (EligibilityResult.payoutAmount r) = Some 100000000.
Proof.
  destruct (checkEligibility Examples.sampleOracle "X1" 199990000 (Number_ofZ 10))
    as [r|e] eqn:Hrun; [|vm_compute in Hrun; discriminate Hrun].
  exists r. split; [reflexivity|].
  destruct (checkEligibility_eligible_needs_drop _ _ _ _ _ Hrun)
    as (currentPrice & payout & H1 & H2 & _).
  vm_compute in Hrun. injection Hrun as <-. split; reflexivity.
Defined.

Lemma checkEligibility_same_key_same_result_witness :
  (exists r,
     checkEligibility Examples.sampleOracle "X1" 199990000 (Number_ofZ 10) = Ok r
     /\ checkEligibility Examples.sampleOracle " x_1 " 199990000 (Number_ofZ 10) = Ok r)
  /\ (exists r,
        checkEligibility (engine := Examples.sharpCase)
          (Examples.oracleWith [("1", 80); ("SS1", 50)]) (Examples.sharpS ++ "1")
          100 (Number_ofZ 10) = Ok r
        /\ checkEligibility (engine := Examples.sharpCase)
             (Examples.oracleWith [("1", 80); ("SS1", 50)]) "ss-1"
             100 (Number_ofZ 10) = Ok r
        /\ EligibilityResult.currentPrice r = "50").
Proof.
  split.
  2:{ destruct (checkEligibility (engine := Examples.sharpCase)
                  (Examples.oracleWith [("1", 80); ("SS1", 50)]) (Examples.sharpS ++ "1")
                  100 (Number_ofZ 10)) as [r|e] eqn:Hrun;
        [|vm_compute in Hrun; discriminate Hrun].
      exists r. split; [reflexivity|].
      assert (Hkey : normalizeOracleProductId (engine := Examples.sharpCase)
                       (Examples.sharpS ++ "1")
                     = normalizeOracleProductId (engine := Examples.sharpCase) "ss-1")
        by (vm_compute; reflexivity).
      assert (Hne : nonEmpty (normalizeOracleProductId (engine := Examples.sharpCase)
                                (Examples.sharpS ++ "1")) = true)
        by (vm_compute; reflexivity).
      split.
      - apply (proj2 (checkEligibility_same_key_same_result (engine := Examples.sharpCase)
                        (Examples.oracleWith [("1", 80); ("SS1", 50)])
                        (Examples.sharpS ++ "1") "ss-1" 100 (Number_ofZ 10) Hkey Hne)).
        exact Hrun.
      - vm_compute in Hrun. now injection Hrun as <-. }
  destruct (checkEligibility Examples.sampleOracle "X1" 199990000 (Number_ofZ 10))
    as [r|e] eqn:Hrun; [|vm_compute in Hrun; discriminate Hrun].
  exists r. split; [reflexivity|].
  assert (Hkey : normalizeOracleProductId "X1" = normalizeOracleProductId " x_1 ")
    by (vm_compute; reflexivity).
  assert (Hne : nonEmpty (normalizeOracleProductId "X1") = true)
    by (vm_compute; reflexivity).
  apply (proj2 (checkEligibility_same_key_same_result Examples.sampleOracle "X1" " x_1 "
                  199990000 (Number_ofZ 10) Hkey Hne)).
  exact Hrun.
Defined.

End EligibilityMoreExamples.

(* ===================================================================== *)
(** * More on the policy store                                         *)
(* ===================================================================== *)

Section PolicyStoreMore.

Import PolicyManager.

Lemma findIndex_None (pid : string) (l : list PolicyData) :
  findIndex pid l = None <-> (forall p, In p l -> policyId p <> pid).
Proof.
  induction l as [|q l IH]; simpl.
  - split; [intros _ p []|reflexivity].
  - destruct (String.eqb_spec (policyId q) pid) as [Heq|Hne].
    + split; [discriminate|]. intros H. exfalso. apply (H q); auto.
    + destruct (findIndex pid l) as [j|] eqn:Ej.
      * split; [discriminate|]. intros H.
        assert (Hn : Some j = None); [|discriminate Hn].
        apply IH. intros p Hp. apply H. now right.
      * split; [|reflexivity]. intros _ p [<-|Hp]; [exact Hne|].
        now apply (proj1 IH eq_refl).
Qed.

Lemma findIndex_first (pid : string) (l : list PolicyData) (i : nat) :
  findIndex pid l = Some i ->
  forall j p, (j < i)%nat -> l !! j = Some p -> policyId p <> pid.
Proof.
  revert i. induction l as [|q l IH]; intros i H j p Hlt Hj; [discriminate H|].
  simpl in H. destruct (String.eqb_spec (policyId q) pid) as [Heq|Hne].
  - injection H as <-. lia.
  - destruct (findIndex pid l) as [k|] eqn:Ek; [|discriminate H].
    injection H as <-. destruct j as [|j'].
    + injection Hj as <-. exact Hne.
    + apply (IH k eq_refl j' p); [lia|exact Hj].
Qed.

(** X14.  What an update returns.  It returns nothing exactly when no record
    under the address (an address with no stored array included) has the
    policy id, and the store is then left as it was.  Otherwise it returns
    the updater's result on the first record with that id, the records before
    it having other ids. *)
Theorem updatePolicyForAddress_result (st : Storage) (a pid : string)
    (u : PolicyData -> PolicyData) :
  match snd (updatePolicyForAddress st a pid u) with
  | None =>
      (forall p, In p (getPoliciesForAddress st a) -> policyId p <> pid)
      /\ fst (updatePolicyForAddress st a pid u) = st
  | Some q' =>
      exists i q,
        getPoliciesForAddress st a !! i = Some q
        /\ policyId q = pid
        /\ q' = u q
        /\ (forall j p, (j < i)%nat -> getPoliciesForAddress st a !! j = Some p ->
                        policyId p <> pid)
        /\ getPoliciesForAddress (fst (updatePolicyForAddress st a pid u)) a !! i = Some q'
  end.
Proof.
  pose proof (getPolicies_update st a a pid u) as Hget.
  rewrite decide_True in Hget by reflexivity.
  unfold updatePolicyForAddress in *.
  destruct (findIndex pid (getPoliciesForAddress st a)) as [i|] eqn:Ei.
  - destruct (findIndex_lookup _ _ _ Ei) as (q & Hq & Hid).
    rewrite Hq in *. cbn [fst snd] in *.
    exists i, q. split; [exact Hq|]. split; [exact Hid|]. split; [reflexivity|].
    split; [apply (findIndex_first _ _ _ Ei)|].
    rewrite Hget, list_lookup_alter_eq, Hq. reflexivity.
  - cbn [fst snd]. split; [now apply findIndex_None|reflexivity].
Qed.

Lemma mergeUpdater_policyId (updates : Updates.t) (p : PolicyData) :
  Updates.policyId updates = None -> policyId (mergeUpdater updates p) = policyId p.
Proof. intros H. unfold mergeUpdater. cbn [policyId]. now rewrite H. Qed.

Lemma mergeUpdater_transactionHash (updates : Updates.t) (p : PolicyData) :
  Updates.transactionHash updates = None ->
  transactionHash (mergeUpdater updates p) = transactionHash p.
Proof. intros H. unfold mergeUpdater. cbn [transactionHash]. now rewrite H. Qed.

Lemma map_alter_same {A B : Type} (f : A -> B) (u : A -> A) (i : nat) (l : list A) :
  (forall x, f (u x) = f x) -> map f (alter u i l) = map f l.
Proof.
  intros H. revert i. induction l as [|x l IH]; intros [|i]; simpl; try reflexivity.
  - now rewrite H.
  - f_equal. apply IH.
Qed.

Lemma length_alter_list {A : Type} (u : A -> A) (i : nat) (l : list A) :
  length (alter u i l) = length l.
Proof. apply length_alter. Qed.

(** The records kept under every address after a merge that names neither
    the policy id nor the transaction hash have the ids and hashes they had. *)
Lemma merge_keeps_ids (st : Storage) (a pid : string) (updates : Updates.t) (b : string) :
  Updates.policyId updates = None ->
  Updates.transactionHash updates = None ->
  let st' := fst (mergePolicyForAddress st a pid updates) in
  map policyId (getPoliciesForAddress st' b) = map policyId (getPoliciesForAddress st b)
  /\ hashes (getPoliciesForAddress st' b) = hashes (getPoliciesForAddress st b).
Proof.
  intros Hid Hh st'. subst st'. unfold mergePolicyForAddress, hashes.
  rewrite getPolicies_update. case_decide; [|now split].
  destruct (findIndex pid (getPoliciesForAddress st b)); [|now split].
  split; apply map_alter_same; intros x;
    [now apply mergeUpdater_policyId|now apply mergeUpdater_transactionHash].
Qed.

(** X15.  Updates and merges never add or remove a record: under every
    address the number of records stays the same.  A merge that names neither
    the policy id nor the transaction hash moreover leaves every record's id
    and hash in place, and so keeps the invariant that no two records under an
    address share a transaction hash; a save adds at most one record, at the
    end. *)
Theorem store_operations_keep_shape (st : Storage) (a pid : string)
    (u : PolicyData -> PolicyData) (updates : Updates.t) (p : PolicyData) (b : string) :
  length (getPoliciesForAddress (fst (updatePolicyForAddress st a pid u)) b)
    = length (getPoliciesForAddress st b)
  /\ length (getPoliciesForAddress (fst (mergePolicyForAddress st a pid updates)) b)
     = length (getPoliciesForAddress st b)
  /\ (Updates.policyId updates = None -> Updates.transactionHash updates = None ->
      map policyId (getPoliciesForAddress (fst (mergePolicyForAddress st a pid updates)) b)
        = map policyId (getPoliciesForAddress st b)
      /\ hashes (getPoliciesForAddress (fst (mergePolicyForAddress st a pid updates)) b)
         = hashes (getPoliciesForAddress st b)
      /\ (uniqueHashes st -> uniqueHashes (fst (mergePolicyForAddress st a pid updates))))
  /\ (getPoliciesForAddress (savePolicyForAddress st a p) b = getPoliciesForAddress st b
      \/ getPoliciesForAddress (savePolicyForAddress st a p) b
         = (getPoliciesForAddress st b ++ [p])%list).
Proof.
  assert (Hlen : forall v, length (getPoliciesForAddress (fst (updatePolicyForAddress st a pid v)) b)
                           = length (getPoliciesForAddress st b)).
  { intros v. rewrite getPolicies_update. case_decide; [|reflexivity].
    destruct (findIndex pid (getPoliciesForAddress st b)); [|reflexivity].
    apply length_alter_list. }
  split; [apply Hlen|]. split; [apply Hlen|]. split.
  - intros Hid Hh. destruct (merge_keeps_ids st a pid updates b Hid Hh) as [H1 H2].
    split; [exact H1|]. split; [exact H2|].
    intros Hu c. destruct (merge_keeps_ids st a pid updates c Hid Hh) as [_ H3].
    rewrite H3. apply Hu.
  - rewrite getPolicies_save. case_decide; [|now left].
    destruct (existsb _ _); [now left|now right].
Qed.

(** X16.  The store is keyed by the address in lower case: two spellings of
    an address that differ only in letter case read the same records, and
    saving, updating or merging through either spelling gives the same store
    and the same returned record. *)
Theorem store_address_case_insensitive (st : Storage) (a a' : string) :
  toLowerCase a = toLowerCase a' ->
  getPoliciesForAddress st a = getPoliciesForAddress st a'
  /\ (forall p, savePolicyForAddress st a p = savePolicyForAddress st a' p)
  /\ (forall pid u, updatePolicyForAddress st a pid u = updatePolicyForAddress st a' pid u)
  /\ (forall pid updates,
        mergePolicyForAddress st a pid updates = mergePolicyForAddress st a' pid updates).
Proof.
  intros H. apply policiesKey_eq in H.
  assert (Hget : getPoliciesForAddress st a = getPoliciesForAddress st a')
    by now apply getPolicies_key.
  assert (Hupd : forall pid u,
             updatePolicyForAddress st a pid u = updatePolicyForAddress st a' pid u).
  { intros pid u. unfold updatePolicyForAddress. now rewrite Hget, H. }
  split; [exact Hget|]. split; [|split].
  - intros p. unfold savePolicyForAddress. now rewrite Hget, H.
  - exact Hupd.
  - intros pid updates. apply Hupd.
Qed.

Lemma store_address_case_insensitive_witness :
  getPoliciesForAddress Examples.sampleStorage "0xABC"
  = getPoliciesForAddress Examples.sampleStorage "0xabc".
Proof.
  exact (proj1 (store_address_case_insensitive Examples.sampleStorage "0xABC" "0xabc" eq_refl)).
Defined.

Lemma spreadEligibility_idem (old : option Eligibility.t) (e : Eligibility.t) :
  spreadEligibility (Some (spreadEligibility old e)) e = spreadEligibility old e.
Proof.
  unfold spreadEligibility.
  cbn [Eligibility.checkedAt Eligibility.dropPercentage Eligibility.dropAmount
       Eligibility.currentPrice Eligibility.merkleRoot Eligibility.proof
       Eligibility.payoutAmount mbind option_bind].
  destruct (Eligibility.merkleRoot e), (Eligibility.proof e), (Eligibility.payoutAmount e);
    reflexivity.
Qed.

Lemma mergeUpdater_none (p : PolicyData) : mergeUpdater Updates.none p = p.
Proof. destruct p. reflexivity. Qed.

Lemma mergeUpdater_idem (updates : Updates.t) (p : PolicyData) :
  mergeUpdater updates (mergeUpdater updates p) = mergeUpdater updates p.
Proof.
  destruct updates as [u1 u2 u3 u4 u5 u6 u7 u8 u9 u10 u11 u12 u13 u14 u15].
  unfold mergeUpdater.
  cbn [Updates.policyId Updates.transactionHash Updates.blockNumber
       Updates.policyPurchaseDate Updates.purchaseDetails Updates.secretCommitment
       Updates.premium Updates.tier Updates.contracts Updates.createdAt Updates.network
       Updates.status Updates.eligibility Updates.claimTxHash Updates.claimedAt
       policyId transactionHash blockNumber policyPurchaseDate purchaseDetails
       secretCommitment premium tier contracts createdAt network status eligibility
       claimTxHash claimedAt].
  f_equal;
    try (match goal with |- context [default _ ?o] => destruct o; reflexivity end);
    try (match goal with |- context [match ?o with _ => _ end] => destruct o; try reflexivity end).
  f_equal. apply spreadEligibility_idem.
Qed.

(** X17.  Merging is a shallow overlay with one nested level.  Merging the
    empty update changes no record and leaves the store as it is; merging the
    same update into a record twice gives what merging it once gives; and an
    update whose eligibility omits the optional root, proof or payout keeps
    the ones the record had, while the four required members are replaced. *)
Theorem mergePolicyForAddress_overlay (st : Storage) (a pid : string)
    (updates : Updates.t) (p : PolicyData) (e : Eligibility.t) :
  mergeUpdater Updates.none p = p
  /\ fst (mergePolicyForAddress st a pid Updates.none) = st
  /\ mergeUpdater updates (mergeUpdater updates p) = mergeUpdater updates p
  /\ (Updates.eligibility updates = Some e ->
      exists e', eligibility (mergeUpdater updates p) = Some e'
        /\ Eligibility.checkedAt e' = Eligibility.checkedAt e
        /\ Eligibility.dropPercentage e' = Eligibility.dropPercentage e
        /\ Eligibility.dropAmount e' = Eligibility.dropAmount e
        /\ Eligibility.currentPrice e' = Eligibility.currentPrice e
        /\ (Eligibility.merkleRoot e = None ->
            Eligibility.merkleRoot e' = eligibility p ≫= Eligibility.merkleRoot)
        /\ (Eligibility.proof e = None ->
            Eligibility.proof e' = eligibility p ≫= Eligibility.proof)
        /\ (Eligibility.payoutAmount e = None ->
            Eligibility.payoutAmount e' = eligibility p ≫= Eligibility.payoutAmount))
  /\ (Updates.eligibility updates = None ->
      eligibility (mergeUpdater updates p) = eligibility p).
Proof.
  split; [apply mergeUpdater_none|]. split; [|split; [apply mergeUpdater_idem|split]].
  - unfold mergePolicyForAddress, updatePolicyForAddress.
    destruct (findIndex pid (getPoliciesForAddress st a)) as [i|] eqn:Ei; [|reflexivity].
    destruct (findIndex_lookup _ _ _ Ei) as (q & Hq & _). rewrite Hq. cbn [fst].
    rewrite mergeUpdater_none, list_insert_id by exact Hq.
    unfold getPoliciesForAddress in *.
    destruct (st !! policiesKey a) as [l|] eqn:El; simpl in *.
    + now apply insert_id.
    + rewrite lookup_nil in Hq. discriminate Hq.
  - intros He. unfold mergeUpdater. cbn [eligibility]. rewrite He.
    eexists. split; [reflexivity|].
    unfold spreadEligibility.
    cbn [Eligibility.checkedAt Eligibility.dropPercentage Eligibility.dropAmount
         Eligibility.currentPrice Eligibility.merkleRoot Eligibility.proof
         Eligibility.payoutAmount].
    repeat (split; [reflexivity|]).
    split; [|split]; intros ->; reflexivity.
  - intros He. unfold mergeUpdater. cbn [eligibility]. now rewrite He.
Qed.

Lemma toLowerCase_of_key (a b : string) :
  policiesKey a = policiesKey b -> toLowerCase a = toLowerCase b.
Proof. unfold policiesKey. apply append_inj_l. Qed.

(** X18.  Wallets are isolated: whatever is saved, updated or merged under
    one address, the records read under an address that differs from it in
    more than letter case are the same as before. *)
Theorem store_wallets_isolated (st : Storage) (a b : string) :
  toLowerCase a <> toLowerCase b ->
  (forall p, getPoliciesForAddress (savePolicyForAddress st a p) b
             = getPoliciesForAddress st b)
  /\ (forall pid u, getPoliciesForAddress (fst (updatePolicyForAddress st a pid u)) b
                    = getPoliciesForAddress st b)
  /\ (forall pid updates,
        getPoliciesForAddress (fst (mergePolicyForAddress st a pid updates)) b
        = getPoliciesForAddress st b).
Proof.
  intros Hne.
  assert (Hk : policiesKey a <> policiesKey b)
    by (intros Hk; apply Hne, toLowerCase_of_key, Hk).
  split; [|split].
  - intros p. rewrite getPolicies_save. now rewrite decide_False.
  - intros pid u. rewrite getPolicies_update. now rewrite decide_False.
  - intros pid updates. unfold mergePolicyForAddress. rewrite getPolicies_update.
    now rewrite decide_False.
Qed.

Lemma store_wallets_isolated_witness :
  getPoliciesForAddress
    (savePolicyForAddress Examples.sampleStorage "0xdef" Examples.samplePolicy) "0xabc"
  = getPoliciesForAddress Examples.sampleStorage "0xabc".
Proof.
  apply (proj1 (store_wallets_isolated Examples.sampleStorage "0xdef" "0xabc"
                  ltac:(discriminate))).
Defined.

End PolicyStoreMore.

(* ===================================================================== *)
(** * The commitment store, and clearing an address                    *)
(* ===================================================================== *)

Section CommitmentStore.

Import PolicyManager.






End CommitmentStore.

(* ===================================================================== *)
(** * More on claim submission                                         *)
(* ===================================================================== *)

Section ClaimSubmissionMore.

Import InvoiceWidget.

Ltac reduce_eff := repeat (progress (cbv beta iota zeta; cbn [fst snd negb])).

Ltac thrown_branch :=
  reduce_eff; rewrite <- ?app_assoc;
  first [ exists []; rewrite app_nil_r; split; [reflexivity|]
        | eexists; split; [simpl; reflexivity|] ];
  left; split; [eexists; reflexivity|];
  first [ left; reflexivity
        | right; left; split; [reflexivity|first [assumption|reflexivity]]
        | right; right; eexists; split; [reflexivity|first [eassumption|reflexivity]] ].

(** Every run of the [try] block: either it throws after ledger reads only,
    or it passed the three checks and sent one payout call, whose outcome is
    the outcome of the block. *)
Lemma submitClaimTry_cases (env : Env) (signer : Signer) (policy : PolicyManager.PolicyData)
    (eligibility : ClaimEligibilityState.t) (proof : OracleClient.OracleMerkleProof.t)
    (log : list LedgerCall) :
  exists new,
    fst (submitClaimTry env signer policy eligibility proof log) = (log ++ new)%list
    /\ (((exists e, snd (submitClaimTry env signer policy eligibility proof log) = Throw e)
         /\ (new = []
             \/ (new = [CallPriceMerkleRoot]
                 /\ BigInt_ofString (PolicyManager.policyId policy) = None)
             \/ exists n, new = [CallPriceMerkleRoot; CallPolicies n]
                          /\ BigInt_ofString (PolicyManager.policyId policy) = Some n))
        \/ (exists n args,
              new = [CallPriceMerkleRoot; CallPolicies n; CallClaimPayout args]
              /\ BigInt_ofString (PolicyManager.policyId policy) = Some n
              /\ ClaimPayoutArgs.policyId args = n
              /\ ClaimPayoutArgs.merkleRoot args
                 = ClaimProof.formatMerkleRoot (ClaimEligibilityState.merkleRoot eligibility)
              /\ BigInt_ofString (PolicyManager.premium policy)
                 = Some (ClaimPayoutArgs.premiumPaid args)
              /\ guardsPassed env signer policy eligibility
              /\ snd (submitClaimTry env signer policy eligibility proof log)
                 = (tx ← claimPayout env args;
                    receiptNullable ← tx;
                    match receiptNullable with
                    | None => Throw NoReceiptError
                    | Some receipt => Ok receipt
                    end))).
Proof.
  unfold submitClaimTry, andThen, lift, issue, guard, ret, throw, orThrow.
  destruct (ClaimProof.generateClaimProof _ _ _ _) as [proofResult|e]; [|thrown_branch].
  destruct (getInsuranceVaultContractWithSigner env) as [vault|e]; [|thrown_branch].
  destruct (BigInt_ofString (PolicyManager.policyId policy)) as [policyIdBig|] eqn:Epid;
    [|thrown_branch].
  destruct (priceMerkleRoot env) as [onChainRoot|e] eqn:Eroot; [|thrown_branch].
  reduce_eff.
  destruct (policies env policyIdBig) as [storedPolicy|e] eqn:Epol; [|thrown_branch].
  destruct (String.eqb_spec (toLowerCase onChainRoot)
              (toLowerCase (ClaimProof.formatMerkleRoot
                              (ClaimEligibilityState.merkleRoot eligibility))))
    as [Hroot|_]; [|thrown_branch].
  destruct (getAddress signer) as [walletAddress|e] eqn:Eaddr; [|thrown_branch].
  destruct (String.eqb_spec (toLowerCase (LedgerPolicy.buyer storedPolicy))
              (toLowerCase walletAddress)) as [Hbuyer|_]; [|thrown_branch].
  destruct (LedgerPolicy.alreadyClaimed storedPolicy) eqn:Eclaimed; [thrown_branch|].
  assert (Hguards : guardsPassed env signer policy eligibility).
  { exists onChainRoot, storedPolicy, walletAddress, policyIdBig. repeat split; assumption. }
  clear Eroot Epol Eaddr.
  reduce_eff.
  destruct (zeroPadValue env _ _); [|thrown_branch].
  destruct (BigInt_ofString (PolicyManager.premium policy)) eqn:Eprem; [|thrown_branch].
  destruct (ClaimProof.formatPublicSignals _); [|thrown_branch].
  destruct (BigInt_ofNumber _); [|thrown_branch].
  reduce_eff. rewrite <- !app_assoc. cbn [app].
  eexists. split.
  - destruct (claimPayout env _) as [[[receipt|]|e]|e]; reduce_eff; reflexivity.
  - right. eexists _, _. split; [reflexivity|].
    split; [reflexivity|]. split; [reflexivity|]. split; [reflexivity|].
    split; [reflexivity|]. split; [exact Hguards|].
    cbn [mbind result_bind bind].
    destruct (claimPayout env _) as [[[receipt|]|e]|e]; reflexivity.
Qed.

Lemma recordClaimed_status (env : Env) (a : string) (policy : PolicyManager.PolicyData)
    (el : ClaimEligibilityState.t) (receipt : Receipt) (w : World) :
  claimStatus (recordClaimed env a policy el receipt w) (PolicyManager.policyId policy)
    = Some claimed
  /\ claimStates (recordClaimed env a policy el receipt w) !! PolicyManager.policyId policy
       ≫= ClaimState.txHash = Some (hash receipt)
  /\ alerts (recordClaimed env a policy el receipt w) = alerts w
  /\ ledgerCalls (recordClaimed env a policy el receipt w) = ledgerCalls w.
Proof.
  unfold claimStatus, recordClaimed, updateClaimState.
  cbn [claimStates alerts ledgerCalls ClaimStatePartial.status ClaimStatePartial.txHash].
  rewrite lookup_insert_eq. repeat split.
Qed.

(** The calls one submission adds to the log. *)
Lemma handleSubmitClaim_calls (env : Env) (address : option string)
    (signer : option Signer) (policy : PolicyManager.PolicyData) (w : World) :
  let policyId := PolicyManager.policyId policy in
  let w' := handleSubmitClaim env address signer policy w in
  exists new,
    ledgerCalls w' = (ledgerCalls w ++ new)%list
    /\ (new = []
        \/ (exists n, new = [CallPriceMerkleRoot; CallPolicies n]
                      /\ BigInt_ofString policyId = Some n)
        \/ (exists n args signer' el,
              new = [CallPriceMerkleRoot; CallPolicies n; CallClaimPayout args]
              /\ signer = Some signer'
              /\ claimStates w !! policyId ≫= ClaimState.eligibility = Some el
              /\ BigInt_ofString policyId = Some n
              /\ ClaimPayoutArgs.policyId args = n
              /\ ClaimPayoutArgs.merkleRoot args
                 = ClaimProof.formatMerkleRoot (ClaimEligibilityState.merkleRoot el)
              /\ guardsPassed env signer' policy el)).
Proof.
  intros policyId w'. subst policyId w'. unfold handleSubmitClaim.
  assert (Halert : forall message,
    exists new, ledgerCalls (alert message w) = (ledgerCalls w ++ new)%list
      /\ (new = []
          \/ (exists n, new = [CallPriceMerkleRoot; CallPolicies n]
                /\ BigInt_ofString (PolicyManager.policyId policy) = Some n)
          \/ (exists n args signer' el,
                new = [CallPriceMerkleRoot; CallPolicies n; CallClaimPayout args]
                /\ signer = Some signer'
                /\ claimStates w !! PolicyManager.policyId policy ≫= ClaimState.eligibility
                   = Some el
                /\ BigInt_ofString (PolicyManager.policyId policy) = Some n
                /\ ClaimPayoutArgs.policyId args = n
                /\ ClaimPayoutArgs.merkleRoot args
                   = ClaimProof.formatMerkleRoot (ClaimEligibilityState.merkleRoot el)
                /\ guardsPassed env signer' policy el))).
  { intros message. exists []. simpl. rewrite app_nil_r. split; [reflexivity|now left]. }
  destruct address as [address'|]; [|apply Halert].
  destruct signer as [signer'|]; [|apply Halert].
  destruct (nonEmpty address'); cbn [negb]; [|apply Halert].
  destruct (claimStates w !! PolicyManager.policyId policy ≫= ClaimState.eligibility)
    as [el|] eqn:Eel; [|apply Halert].
  destruct (ClaimEligibilityState.proof el) as [proof|]; [|apply Halert].
  destruct (isDecimalDigits (PolicyManager.policyId policy)) eqn:Eid; cbn [negb];
    [|apply Halert].
  clear Halert.
  change (ledgerCalls (updateClaimState _ _ w)) with (ledgerCalls w).
  destruct (submitClaimTry_cases env signer' policy el proof (ledgerCalls w))
    as (new & Hlog & Hcases).
  destruct (submitClaimTry env signer' policy el proof (ledgerCalls w)) as [log outcome].
  cbn [fst snd] in Hlog, Hcases. subst log.
  exists new. split.
  { destruct outcome as [receipt|e]; [|reflexivity].
    now destruct (recordClaimed_status env address' policy el receipt
      {| claimStates := claimStates (updateClaimState (PolicyManager.policyId policy)
                          {| ClaimStatePartial.status := Some claiming;
                             ClaimStatePartial.eligibility := None;
                             ClaimStatePartial.error := Some None;
                             ClaimStatePartial.txHash := None |} w);
         policiesView := policiesView w; localStorage := localStorage w;
         ledgerCalls := (ledgerCalls w ++ new)%list; alerts := alerts w |})
      as (_ & _ & _ & H). }
  destruct Hcases as [[_ [->|[[-> Hnone]|(n & -> & Hn)]]]
                     |(n & args & -> & Hn & Hid & Hroot & _ & Hguards & _)].
  - now left.
  - exfalso. destruct (isDecimalDigits_parses _ Eid) as (n & Hn & _). congruence.
  - right. left. exists n. now split.
  - right. right. exists n, args, signer', el. repeat (split; [assumption || reflexivity|]).
    exact Hguards.
Qed.

(** X20.  The ledger traffic of one submission, whatever the inputs: the
    handler adds to the log nothing, or the two reads [priceMerkleRoot()] and
    [policies(policyId)], or the two reads followed by exactly one payout
    call.  The payout call comes last, carries the policy id and the
    formatted root of the snapshot, and is only sent when the three checks
    against the ledger passed. *)
Theorem handleSubmitClaim_ledger_traffic (env : Env) (address : option string)
    (signer : option Signer) (policy : PolicyManager.PolicyData) (w : World) :
  let policyId := PolicyManager.policyId policy in
  let w' := handleSubmitClaim env address signer policy w in
  exists new,
    ledgerCalls w' = (ledgerCalls w ++ new)%list
    /\ (length (List.filter (fun c => negb (isReadCall c)) new) <= 1)%nat
    /\ (forall args, In (CallClaimPayout args) new ->
          new = [CallPriceMerkleRoot; CallPolicies (ClaimPayoutArgs.policyId args);
                 CallClaimPayout args]
          /\ BigInt_ofString policyId = Some (ClaimPayoutArgs.policyId args)
          /\ exists signer' el,
               signer = Some signer'
               /\ claimStates w !! policyId ≫= ClaimState.eligibility = Some el
               /\ ClaimPayoutArgs.merkleRoot args
                  = ClaimProof.formatMerkleRoot (ClaimEligibilityState.merkleRoot el)
               /\ guardsPassed env signer' policy el)
    /\ ((forall args, ~ In (CallClaimPayout args) new) ->
        new = []
        \/ exists n, new = [CallPriceMerkleRoot; CallPolicies n]
                     /\ BigInt_ofString policyId = Some n).
Proof.
  intros policyId w'.
  destruct (handleSubmitClaim_calls env address signer policy w) as (new & Hlog & Hcases).
  fold policyId w' in Hlog, Hcases.
  exists new. split; [exact Hlog|].
  destruct Hcases as [->|[(n & -> & Hn)
                         |(n & args' & signer' & el & -> & Hs & Hel & Hn & Hid & Hroot & Hg)]].
  - split; [simpl; lia|]. split; [intros args []|]. intros _. now left.
  - split; [simpl; lia|]. split.
    + intros args [H|[H|[]]]; discriminate H.
    + intros _. right. exists n. now split.
  - split; [simpl; lia|]. split.
    + intros args [H|[H|[H|[]]]]; try discriminate H. injection H as <-.
      subst n. split; [reflexivity|]. split; [exact Hn|].
      exists signer', el. repeat split; assumption.
    + intros Hno. exfalso. apply (Hno args'). simpl. auto.
Qed.

(** X21.  How a submission ends.  When a precondition is missing (no
    wallet address, no signer, no eligibility snapshot with a proof for the
    policy, or a policy id that is not a decimal number) the handler shows one
    alert and changes nothing else.  Otherwise it shows no alert and leaves
    the policy in one of two states, never in the claiming state: the error
    state with a message, the store and the list of policies being as before;
    or the claimed state, and then a payout call was sent, the ledger answered
    it with a receipt, and the claim state carries the hash of that
    receipt. *)
Theorem handleSubmitClaim_outcome (env : Env) (address : option string)
    (signer : option Signer) (policy : PolicyManager.PolicyData) (w : World) :
  let policyId := PolicyManager.policyId policy in
  let w' := handleSubmitClaim env address signer policy w in
  let ready :=
    exists a s el p,
      address = Some a /\ nonEmpty a = true /\ signer = Some s
      /\ claimStates w !! policyId ≫= ClaimState.eligibility = Some el
      /\ ClaimEligibilityState.proof el = Some p
      /\ isDecimalDigits policyId = true in
  (~ ready /\ exists message, w' = alert message w)
  \/ (ready
      /\ alerts w' = alerts w
      /\ ((claimStatus w' policyId = Some error
           /\ (exists message, claimError w' policyId = Some message)
           /\ localStorage w' = localStorage w
           /\ policiesView w' = policiesView w)
          \/ (claimStatus w' policyId = Some claimed
              /\ exists receipt args,
                   In (CallClaimPayout args) (ledgerCalls w')
                   /\ claimPayout env args = Ok (Ok (Some receipt))
                   /\ claimStates w' !! policyId ≫= ClaimState.txHash
                      = Some (hash receipt)))).
Proof.
  intros policyId w' ready. subst policyId w' ready. unfold handleSubmitClaim.
  destruct address as [address'|];
    [|left; split; [intros (a & s & el & p & H & _); discriminate H|eauto]].
  destruct signer as [signer'|];
    [|left; split; [intros (a & s & el & p & _ & _ & H & _); discriminate H|eauto]].
  destruct (nonEmpty address') eqn:Ea; cbn [negb];
    [|left; split; [intros (a & s & el & p & H & Hn & _); injection H as <-; congruence|eauto]].
  destruct (claimStates w !! PolicyManager.policyId policy ≫= ClaimState.eligibility)
    as [el|] eqn:Eel;
    [|left; split; [intros (a & s & el & p & _ & _ & _ & H & _); discriminate H|eauto]].
  destruct (ClaimEligibilityState.proof el) as [proof|] eqn:Ep;
    [|left; split; [intros (a & s & el' & p & _ & _ & _ & H & Hp & _);
                    injection H as <-; congruence|eauto]].
  destruct (isDecimalDigits (PolicyManager.policyId policy)) eqn:Eid; cbn [negb];
    [|left; split; [intros (a & s & el' & p & _ & _ & _ & _ & _ & H); discriminate H|eauto]].
  right. split; [exists address', signer', el, proof; repeat split; assumption|].
  change (ledgerCalls (updateClaimState _ _ w)) with (ledgerCalls w).
  destruct (submitClaimTry_cases env signer' policy el proof (ledgerCalls w))
    as (new & Hlog & Hcases).
  destruct (submitClaimTry env signer' policy el proof (ledgerCalls w)) as [log outcome].
  cbn [fst snd] in Hlog, Hcases. subst log.
  destruct outcome as [receipt|e].
  - match goal with
    | |- context [recordClaimed env address' policy el receipt ?w2] =>
        destruct (recordClaimed_status env address' policy el receipt w2)
          as (Hst & Htx & Hal & Hlc)
    end.
    split; [exact Hal|]. right. split; [exact Hst|].
    destruct Hcases as [[[e He] _]|(n & args & -> & _ & _ & _ & _ & _ & Hout)];
      [discriminate He|].
    exists receipt, args. split; [|split; [|exact Htx]].
    + rewrite Hlc. cbn [ledgerCalls]. apply in_or_app. right. simpl. auto.
    + destruct (claimPayout env args) as [[[r|]|e]|e]; try discriminate Hout.
      cbn in Hout. now injection Hout as <-.
  - split; [reflexivity|]. left.
    split; [now apply claimStatus_updateClaimState|].
    split; [|split; reflexivity].
    exists (exn_message e). now apply claimError_updateClaimState.
Qed.

(** X22.  What a successful submission records.  When the [try] block
    returns a receipt, the policy is shown as claimed and the ledger log is
    the one of the block.  In the store, the first record with the policy id
    under the wallet address becomes claimed, with the hash of the receipt,
    the time of the claim in seconds and the payout and the root of the
    snapshot, while its id, transaction hash, commitment, premium and purchase
    details stay as they were; every other record, under this or any other
    address, is left as it was; and no two records under an address come to
    share a transaction hash. *)
Theorem handleSubmitClaim_records_claim (env : Env) (a : string) (signer : Signer)
    (policy : PolicyManager.PolicyData) (w : World) (el : ClaimEligibilityState.t)
    (proof : OracleClient.OracleMerkleProof.t) (log : list LedgerCall) (receipt : Receipt) :
  nonEmpty a = true ->
  claimStates w !! PolicyManager.policyId policy ≫= ClaimState.eligibility = Some el ->
  ClaimEligibilityState.proof el = Some proof ->
  isDecimalDigits (PolicyManager.policyId policy) = true ->
  submitClaimTry env signer policy el proof (ledgerCalls w) = (log, Ok receipt) ->
  let policyId := PolicyManager.policyId policy in
  let w' := handleSubmitClaim env (Some a) (Some signer) policy w in
  let stored := fun st b => PolicyManager.getPoliciesForAddress st b in
  claimStatus w' policyId = Some claimed
  /\ ledgerCalls w' = log
  /\ (forall i q,
        stored (localStorage w) a !! i = Some q ->
        PolicyManager.findIndex policyId (stored (localStorage w) a) = Some i ->
        exists q' e',
          stored (localStorage w') a !! i = Some q'
          /\ PolicyManager.status q' = Some PolicyManager.claimed
          /\ PolicyManager.claimTxHash q' = Some (hash receipt)
          /\ PolicyManager.claimedAt q' = Some (Math_floor (div (now env) (Number_ofZ 1000)))
          /\ PolicyManager.eligibility q' = Some e'
          /\ PolicyManager.Eligibility.payoutAmount e'
             = Some (ClaimEligibilityState.payoutAmount el)
          /\ PolicyManager.Eligibility.merkleRoot e'
             = Some (ClaimEligibilityState.merkleRoot el)
          /\ PolicyManager.policyId q' = PolicyManager.policyId q
          /\ PolicyManager.transactionHash q' = PolicyManager.transactionHash q
          /\ PolicyManager.secretCommitment q' = PolicyManager.secretCommitment q
          /\ PolicyManager.premium q' = PolicyManager.premium q
          /\ PolicyManager.purchaseDetails q' = PolicyManager.purchaseDetails q)
  /\ (forall b i q,
        stored (localStorage w) b !! i = Some q ->
        toLowerCase b <> toLowerCase a
        \/ PolicyManager.findIndex policyId (stored (localStorage w) b) <> Some i ->
        stored (localStorage w') b !! i = Some q)
  /\ (PolicyManager.uniqueHashes (localStorage w) ->
      PolicyManager.uniqueHashes (localStorage w')).
Proof.
  intros Ha Hel Hproof Hid Htry policyId w' stored. subst policyId w' stored.
  unfold handleSubmitClaim.
  rewrite Ha, Hel, Hproof, Hid. cbn [negb].
  change (ledgerCalls (updateClaimState _ _ w)) with (ledgerCalls w).
  rewrite Htry.
  match goal with
  | |- context [recordClaimed env a policy el receipt ?w2] =>
      destruct (recordClaimed_status env a policy el receipt w2) as (Hst & _ & _ & Hlc)
  end.
  split; [exact Hst|]. split; [exact Hlc|].
  unfold recordClaimed. cbn [localStorage].
  change (localStorage (updateClaimState _ _ _)) with (localStorage w).
  unfold PolicyManager.mergePolicyForAddress.
  split; [|split].
  - intros i q Hq Hi. rewrite getPolicies_update, decide_True, Hi by reflexivity.
    rewrite list_lookup_alter_eq, Hq. cbn [fmap option_fmap option_map].
    eexists _, _. split; [reflexivity|].
    unfold PolicyManager.mergeUpdater.
    cbn [PolicyManager.status PolicyManager.claimTxHash PolicyManager.claimedAt
         PolicyManager.eligibility PolicyManager.policyId PolicyManager.transactionHash
         PolicyManager.secretCommitment PolicyManager.premium PolicyManager.purchaseDetails
         PolicyManager.Updates.status PolicyManager.Updates.claimTxHash
         PolicyManager.Updates.claimedAt PolicyManager.Updates.eligibility
         PolicyManager.Updates.policyId PolicyManager.Updates.transactionHash
         PolicyManager.Updates.secretCommitment PolicyManager.Updates.premium
         PolicyManager.Updates.purchaseDetails default].
    repeat (split; [reflexivity|]). reflexivity.
  - intros b i q Hq Hother. rewrite getPolicies_update.
    case_decide as Hk; [|exact Hq].
    destruct (PolicyManager.findIndex _ (PolicyManager.getPoliciesForAddress (localStorage w) b))
      as [j|] eqn:Ej; [|exact Hq].
    destruct (decide (j = i)) as [->|Hne].
    + exfalso. destruct Hother as [Hb|Hi]; [|now apply Hi].
      apply Hb. symmetry. now apply policiesKey_eq.
    + now rewrite list_lookup_alter_ne.
  - intros Hu b. unfold PolicyManager.hashes. rewrite getPolicies_update.
    case_decide; [|apply Hu].
    destruct (PolicyManager.findIndex _ _); [|apply Hu].
    rewrite map_alter_same; [apply Hu|]. intros x. reflexivity.
Qed.

Lemma handleSubmitClaim_records_claim_witness :
  let w' := handleSubmitClaim (Examples.ledgerEnv (hex64 18) false) (Some "0xAbC")
              (Some Examples.sampleSigner)
              (Examples.policyWithStatus PolicyManager.eligible) Examples.sampleWorld in
  claimStatus w' "7" = Some claimed
  /\ exists q', PolicyManager.getPoliciesForAddress (localStorage w') "0xAbC" !! 0%nat = Some q'
                /\ PolicyManager.status q' = Some PolicyManager.claimed
                /\ PolicyManager.claimTxHash q' = Some "0xc1a1".
Proof.
  intros w'.
  destruct (submitClaimTry (Examples.ledgerEnv (hex64 18) false) Examples.sampleSigner
              (Examples.policyWithStatus PolicyManager.eligible) Examples.sampleEligibility
              Examples.sampleProof (ledgerCalls Examples.sampleWorld))
    as [log [receipt|e]] eqn:Htry; [|vm_compute in Htry; discriminate Htry].
  destruct (handleSubmitClaim_records_claim (Examples.ledgerEnv (hex64 18) false) "0xAbC"
              Examples.sampleSigner (Examples.policyWithStatus PolicyManager.eligible)
              Examples.sampleWorld Examples.sampleEligibility Examples.sampleProof
              log receipt eq_refl eq_refl eq_refl eq_refl Htry)
    as (Hst & _ & Hrec & _).
  split; [exact Hst|].
  destruct (Hrec 0%nat (Examples.policyWithStatus PolicyManager.eligible))
    as (q' & e' & Hq' & Hs & Hh & _).
  - unfold Examples.sampleWorld. cbn [localStorage]. rewrite getPolicies_save.
    rewrite decide_True by reflexivity.
    unfold PolicyManager.getPoliciesForAddress. rewrite lookup_empty. reflexivity.
  - unfold Examples.sampleWorld. cbn [localStorage]. rewrite getPolicies_save.
    rewrite decide_True by reflexivity.
    unfold PolicyManager.getPoliciesForAddress. rewrite lookup_empty. reflexivity.
  - exists q'. split; [exact Hq'|]. split; [exact Hs|].
    rewrite Hh. vm_compute in Htry. injection Htry as _ <-. reflexivity.
Defined.

Lemma submitClaimTry_not_owner (env : Env) (signer : Signer)
    (policy : PolicyManager.PolicyData) (el : ClaimEligibilityState.t)
    (proof : OracleClient.OracleMerkleProof.t) (log : list LedgerCall)
    (proofResult : ClaimProof.GeneratedClaimProof.t) (n : Z) (onChainRoot : string)
    (storedPolicy : LedgerPolicy.t) (walletAddress : string) :
  ClaimProof.generateClaimProof (fullProve env) policy proof
    (ClaimEligibilityState.merkleRoot el) = Ok proofResult ->
  getInsuranceVaultContractWithSigner env = Ok tt ->
  BigInt_ofString (PolicyManager.policyId policy) = Some n ->
  priceMerkleRoot env = Ok onChainRoot ->
  policies env n = Ok storedPolicy ->
  toLowerCase onChainRoot
    = toLowerCase (ClaimProof.formatMerkleRoot (ClaimEligibilityState.merkleRoot el)) ->
  getAddress signer = Ok walletAddress ->
  toLowerCase (LedgerPolicy.buyer storedPolicy) <> toLowerCase walletAddress ->
  submitClaimTry env signer policy el proof log
  = ((log ++ [CallPriceMerkleRoot; CallPolicies n])%list, Throw OwnershipError).
Proof.
  intros Hproof Hvault Hpid Hroot Hpol Hsame Haddr Hbuyer.
  unfold submitClaimTry, andThen, lift, issue, guard, ret, throw, orThrow.
  rewrite Hproof, Hvault, Hpid, Hroot. reduce_eff. rewrite Hpol.
  apply String.eqb_eq in Hsame. apply String.eqb_neq in Hbuyer. rewrite Hsame. reduce_eff.
  rewrite Haddr, Hbuyer. reduce_eff.
  now rewrite <- app_assoc.
Qed.

(** X23.  A claim submitted from a wallet that is not the buyer registered
    on the ledger (addresses compared without regard to letter case) is
    turned down without a payout transaction: the only ledger calls are reads,
    the store is unchanged, and the user sees an alert or the error state.
    When the submission passes the checks that come before (proof generated,
    root current), the error is the one that says the policy belongs to
    another wallet, and this also when the ledger marks the policy claimed. *)
Theorem handleSubmitClaim_other_wallet (env : Env) (address : option string)
    (signer : Signer) (policy : PolicyManager.PolicyData) (w : World)
    (n : Z) (storedPolicy : LedgerPolicy.t) (walletAddress : string) :
  BigInt_ofString (PolicyManager.policyId policy) = Some n ->
  policies env n = Ok storedPolicy ->
  getAddress signer = Ok walletAddress ->
  toLowerCase (LedgerPolicy.buyer storedPolicy) <> toLowerCase walletAddress ->
  let policyId := PolicyManager.policyId policy in
  let w' := handleSubmitClaim env address (Some signer) policy w in
  (exists new, ledgerCalls w' = (ledgerCalls w ++ new)%list
               /\ forallb isReadCall new = true
               /\ forall args, ~ In (CallClaimPayout args) new)
  /\ localStorage w' = localStorage w
  /\ ((exists message, alerts w' = (alerts w ++ [message])%list
                       /\ claimStates w' = claimStates w)
      \/ claimStatus w' policyId = Some error)
  /\ (forall address' el proof proofResult onChainRoot,
        address = Some address' -> nonEmpty address' = true ->
        claimStates w !! policyId ≫= ClaimState.eligibility = Some el ->
        ClaimEligibilityState.proof el = Some proof ->
        isDecimalDigits policyId = true ->
        ClaimProof.generateClaimProof (fullProve env) policy proof
          (ClaimEligibilityState.merkleRoot el) = Ok proofResult ->
        getInsuranceVaultContractWithSigner env = Ok tt ->
        priceMerkleRoot env = Ok onChainRoot ->
        toLowerCase onChainRoot
          = toLowerCase (ClaimProof.formatMerkleRoot (ClaimEligibilityState.merkleRoot el)) ->
        claimStatus w' policyId = Some error
        /\ claimError w' policyId = Some (exn_message OwnershipError)
        /\ ledgerCalls w' = (ledgerCalls w ++ [CallPriceMerkleRoot; CallPolicies n])%list).
Proof.
  intros Hpid Hpol Hwallet Hbuyer policyId w'.
  assert (Hno : forall signer' el',
            Some signer = Some signer' ->
            claimStates w !! PolicyManager.policyId policy ≫= ClaimState.eligibility
              = Some el' ->
            ~ guardsPassed env signer' policy el').
  { intros signer' el' Hs _ (r & sp & wa & n' & _ & Hn' & Hsp & Hwa & _ & Hb & _).
    injection Hs as <-.
    rewrite Hpid in Hn'. injection Hn' as <-.
    rewrite Hpol in Hsp. injection Hsp as <-.
    rewrite Hwallet in Hwa. injection Hwa as <-. exact (Hbuyer Hb). }
  destruct (handleSubmitClaim_rejected env address (Some signer) policy w Hno)
    as ((new & Hlog & Hread) & Hstore & _ & Hseen).
  fold w' in Hlog, Hstore, Hseen. fold policyId in Hseen.
  split.
  { exists new. split; [exact Hlog|]. split; [exact Hread|].
    now apply forallb_read_no_payout. }
  split; [exact Hstore|].
  split.
  - destruct Hseen as [Halert|[Herr _]]; [left; exact Halert|right; exact Herr].
  - intros address' el proof proofResult onChainRoot
      -> Haddr Hel Hproof Hid Hgen Hvault Hroot Hsame.
    pose proof (submitClaimTry_not_owner env signer policy el proof (ledgerCalls w)
                  proofResult n onChainRoot storedPolicy walletAddress
                  Hgen Hvault Hpid Hroot Hpol Hsame Hwallet Hbuyer) as Htry.
    exact (handleSubmitClaim_failed env address' signer policy w el proof _ _
             Haddr Hel Hproof Hid Htry).
Qed.

Lemma handleSubmitClaim_other_wallet_witness :
  let w' := handleSubmitClaim (Examples.ledgerEnv (hex64 18) true) (Some "0xdef")
              (Some {| getAddress := Ok "0xDEF" |})
              (Examples.policyWithStatus PolicyManager.eligible) Examples.sampleWorld in
  claimStatus w' "7" = Some error
  /\ claimError w' "7" = Some "This policy belongs to another wallet."
  /\ ledgerCalls w' = [CallPriceMerkleRoot; CallPolicies 7]
  /\ localStorage w' = localStorage Examples.sampleWorld.
Proof.
  intros w'.
  destruct (handleSubmitClaim_other_wallet (Examples.ledgerEnv (hex64 18) true)
              (Some "0xdef") {| getAddress := Ok "0xDEF" |}
              (Examples.policyWithStatus PolicyManager.eligible) Examples.sampleWorld
              7 {| LedgerPolicy.buyer := "0xabc";
                   LedgerPolicy.commitment := "0x0d";
                   LedgerPolicy.premiumPaid := 3000000;
                   LedgerPolicy.purchaseDate := 1700000000;
                   LedgerPolicy.alreadyClaimed := true |} "0xDEF"
              eq_refl eq_refl eq_refl ltac:(discriminate))
    as (_ & Hstore & _ & Hrun).
  destruct (Hrun "0xdef" Examples.sampleEligibility
              Examples.sampleProof (ClaimProof.formatProof Examples.sampleFullProof)
              (hex64 18)
              eq_refl eq_refl eq_refl eq_refl eq_refl eq_refl eq_refl eq_refl eq_refl)
    as (Hstatus & Herror & Hcalls).
  split; [exact Hstatus|]. split; [exact Herror|]. split; [exact Hcalls|exact Hstore].
Defined.

End ClaimSubmissionMore.

(* ===================================================================== *)
(** * The eligibility check of the widget, and the policy card         *)
(* ===================================================================== *)

Section ClaimCheck.

Import InvoiceWidget.

Context {engine : CaseConversion}.

Lemma truthy_Some (v : option string) (s : string) :
  PolicyManager.truthy v = Some s <-> v = Some s /\ nonEmpty s = true.
Proof.
  unfold PolicyManager.truthy. destruct v as [t|]; [|split; [discriminate|intros [H _]; discriminate H]].
  destruct (nonEmpty t) eqn:E; split.
  - intros H. injection H as <-. now split.
  - intros [H _]. exact H.
  - discriminate.
  - intros [H Hn]. injection H as <-. congruence.
Qed.

Lemma recordChecked_state (env : CheckEnv) (a : string) (policy : PolicyManager.PolicyData)
    (n : string) (r : OracleClient.EligibilityResult.t) (w : World) :
  let w' := recordChecked env a policy n r w in
  claimStatus w' (PolicyManager.policyId policy)
    = Some (if OracleClient.EligibilityResult.eligible r then eligible else ineligible)
  /\ (exists el,
        claimStates w' !! PolicyManager.policyId policy ≫= ClaimState.eligibility = Some el
        /\ ClaimEligibilityState.proof el = Some (OracleClient.EligibilityResult.proof r)
        /\ ClaimEligibilityState.merkleRoot el = OracleClient.EligibilityResult.merkleRoot r
        /\ ClaimEligibilityState.payoutAmount el = OracleClient.EligibilityResult.payoutAmount r
        /\ ClaimEligibilityState.dropAmountMicros el = OracleClient.EligibilityResult.dropAmount r)
  /\ alerts w' = alerts w
  /\ ledgerCalls w' = ledgerCalls w.
Proof.
  unfold claimStatus, recordChecked, updateClaimState.
  cbn [claimStates alerts ledgerCalls ClaimStatePartial.status ClaimStatePartial.eligibility].
  rewrite lookup_insert_eq. cbn [fmap option_fmap option_map mbind option_bind
                                 ClaimState.status ClaimState.eligibility].
  split; [reflexivity|]. split; [|split; reflexivity].
  eexists. split; [reflexivity|]. repeat split.
Qed.

(** X24.  How an eligibility check ends.  When a precondition is missing
    (no wallet address, a product id that is empty or the placeholder
    [unknown], or a policy id that is not a decimal number) the handler shows
    one alert and changes nothing else.  Otherwise it shows no alert, and the
    policy ends in the error state with the message of the failure, the store
    and the list of policies being as before, or in the state of the verdict:
    eligible or ineligible as the oracle client decided, with a snapshot that
    carries the proof, the Merkle root and the payout of that result.  A check
    never calls the ledger. *)
Theorem handleCheckClaim_outcome (env : CheckEnv) (address : option string)
    (policy : PolicyManager.PolicyData) (w : World) :
  let policyId := PolicyManager.policyId policy in
  let productId :=
    PolicyManager.StoredPurchaseDetails.productId (PolicyManager.purchaseDetails policy) in
  let w' := handleCheckClaim env address policy w in
  let ready :=
    (exists a, address = Some a /\ nonEmpty a = true)
    /\ nonEmpty productId = true /\ productId <> "unknown"
    /\ isDecimalDigits policyId = true in
  ledgerCalls w' = ledgerCalls w
  /\ ((~ ready /\ exists message, w' = alert message w)
      \/ (ready
          /\ alerts w' = alerts w
          /\ ((exists e,
                 checkClaimTry env policy = Throw e
                 /\ claimStatus w' policyId = Some error
                 /\ claimError w' policyId = Some (exn_message e)
                 /\ localStorage w' = localStorage w
                 /\ policiesView w' = policiesView w)
              \/ (exists n r el,
                    checkClaimTry env policy = Ok (n, r)
                    /\ claimStatus w' policyId
                       = Some (if OracleClient.EligibilityResult.eligible r
                               then eligible else ineligible)
                    /\ claimStates w' !! policyId ≫= ClaimState.eligibility = Some el
                    /\ ClaimEligibilityState.proof el
                       = Some (OracleClient.EligibilityResult.proof r)
                    /\ ClaimEligibilityState.merkleRoot el
                       = OracleClient.EligibilityResult.merkleRoot r
                    /\ ClaimEligibilityState.payoutAmount el
                       = OracleClient.EligibilityResult.payoutAmount r)))).
Proof.
  intros policyId productId w' ready. subst policyId productId w' ready.
  unfold handleCheckClaim.
  destruct (PolicyManager.truthy address) as [a|] eqn:Ea.
  2:{ split; [reflexivity|]. left. split; [|eauto].
      intros ((a & Ha & Hn) & _).
      assert (H : PolicyManager.truthy address = Some a) by now apply truthy_Some.
      congruence. }
  apply truthy_Some in Ea as [-> Hn].
  destruct (nonEmpty (PolicyManager.StoredPurchaseDetails.productId
                        (PolicyManager.purchaseDetails policy))) eqn:Ep; cbn [negb orb].
  2:{ split; [reflexivity|]. left. split; [|eauto]. intros (_ & H & _). discriminate H. }
  destruct (String.eqb_spec (PolicyManager.StoredPurchaseDetails.productId
                               (PolicyManager.purchaseDetails policy)) "unknown") as [Hu|Hu].
  { split; [reflexivity|]. left. split; [|eauto]. intros (_ & _ & H & _). exact (H Hu). }
  destruct (isDecimalDigits (PolicyManager.policyId policy)) eqn:Eid; cbn [negb].
  2:{ split; [reflexivity|]. left. split; [|eauto]. intros (_ & _ & _ & H). discriminate H. }
  assert (Hready : (exists a0, Some a = Some a0 /\ nonEmpty a0 = true)
                   /\ true = true
                   /\ PolicyManager.StoredPurchaseDetails.productId
                        (PolicyManager.purchaseDetails policy) <> "unknown"
                   /\ true = true) by (repeat split; eauto).
  destruct (checkClaimTry env policy) as [[n r]|e].
  - match goal with
    | |- context [recordChecked env a policy n r ?w1] =>
        destruct (recordChecked_state env a policy n r w1) as (Hst & (el & Hel & H1 & H2 & H3 & _) & Hal & Hlc)
    end.
    split; [exact Hlc|]. right. split; [exact Hready|]. split; [exact Hal|].
    right. exists n, r, el. repeat (split; [assumption || reflexivity|]). assumption.
  - split; [reflexivity|]. right. split; [exact Hready|]. split; [reflexivity|].
    left. exists e. split; [reflexivity|].
    split; [now apply claimStatus_updateClaimState|].
    split; [now apply claimError_updateClaimState|]. split; reflexivity.
Qed.

(** The identifier the widget passes on selects the same catalog entries as
    the recorded one. *)
Lemma normalizeProductId_same_lookup (productId : string) (entry : OracleClient.OraclePrice.t) :
  OracleClient.matchesProduct (default productId (normalizeProductId (Some productId))) entry
  = OracleClient.matchesProduct productId entry.
Proof.
  unfold normalizeProductId, PolicyManager.truthy.
  destruct (nonEmpty productId); [|reflexivity].
  fold (OracleClient.key productId).
  destruct (nonEmpty (OracleClient.key productId)) eqn:Ek; [|reflexivity].
  cbn [default]. unfold id. rewrite !matchesProduct_spec.
  rewrite key_idem, Ek. reflexivity.
Qed.

Lemma checkEligibility_ext (oracle : OracleClient.Oracle) (a b : string)
    (originalPrice : Z) (threshold : number) (r : OracleClient.EligibilityResult.t) :
  (forall entry, OracleClient.matchesProduct a entry = OracleClient.matchesProduct b entry) ->
  OracleClient.checkEligibility oracle a originalPrice threshold = Ok r ->
  OracleClient.checkEligibility oracle b originalPrice threshold = Ok r.
Proof.
  intros Hm. unfold OracleClient.checkEligibility.
  destruct (OracleClient.getOraclePrices oracle) as [response|e]; [|discriminate].
  cbn [mbind result_bind bind].
  rewrite (find_ext _ _ _ Hm).
  destruct (List.find _ _) as [entry|]; [|discriminate].
  cbn [mbind result_bind bind orThrow]. intros H. exact H.
Qed.

(** X25.  What the check asks the oracle.  The insured price is the
    recorded invoice price read as [BigInt] reads a text, white space of any
    kind around it removed: a text that is no integer fails with a syntax
    error, and a price of zero or less fails with the invalid-price error,
    both before the oracle is consulted.  The product identifier is passed on
    in its normalised form, the letters A to Z and the digits of the
    identifier as the engine converts it to upper case, or as it is when
    nothing is left of it; this form selects the same catalog entry as the
    recorded identifier, so a successful check is the result of the
    eligibility check for the recorded product and price.  An
    eligible verdict promises a positive payout, equal to the insured price
    minus the current price, and at most the insured price when the current
    price is not negative. *)
Theorem checkClaimTry_asks_for_recorded_policy (env : CheckEnv)
    (policy : PolicyManager.PolicyData) :
  let details := PolicyManager.purchaseDetails policy in
  let price := BigInt_ofString (PolicyManager.StoredPurchaseDetails.invoicePrice details) in
  let productId := PolicyManager.StoredPurchaseDetails.productId details in
  (price = None -> checkClaimTry env policy = Throw SyntaxError)
  /\ (forall originalPrice, price = Some originalPrice -> originalPrice <= 0 ->
        checkClaimTry env policy = Throw InvalidPriceError)
  /\ (forall n r, checkClaimTry env policy = Ok (n, r) ->
        exists originalPrice,
          price = Some originalPrice /\ 0 < originalPrice
          /\ n = default productId (normalizeProductId (Some productId))
          /\ OracleClient.checkEligibility (oracle env) productId originalPrice
               (dropThresholdPercent env) = Ok r
          /\ (OracleClient.EligibilityResult.eligible r = true ->
              exists currentPrice payout,
                BigInt_ofString (OracleClient.EligibilityResult.currentPrice r)
                  = Some currentPrice
                /\ BigInt_ofString (OracleClient.EligibilityResult.payoutAmount r)
                   = Some payout
                /\ payout = originalPrice - currentPrice
                /\ 0 < payout
                /\ (0 <= currentPrice -> payout <= originalPrice))).
Proof.
  intros details price productId. subst details price productId.
  unfold checkClaimTry.
  destruct (BigInt_ofString _) as [originalPrice|] eqn:Eprice.
  2:{ split; [reflexivity|]. split; [discriminate|]. discriminate. }
  cbn [mbind result_bind bind orThrow].
  split; [discriminate|]. split.
  - intros o Ho Hle. injection Ho as <-.
    destruct (Z.leb_spec originalPrice 0); [reflexivity|lia].
  - intros n r. destruct (Z.leb_spec originalPrice 0) as [|Hpos]; [discriminate|].
    cbn [mbind result_bind bind].
    destruct (OracleClient.checkEligibility _ _ _ _) as [r'|e] eqn:Echeck; [|discriminate].
    cbn [mbind result_bind bind]. intros H. injection H as <- <-.
    exists originalPrice. split; [reflexivity|]. split; [exact Hpos|].
    split; [reflexivity|].
    split.
    + apply (checkEligibility_ext _ _ _ _ _ _ (normalizeProductId_same_lookup _) Echeck).
    + intros Hel.
      destruct (checkEligibility_Ok_inv _ _ _ _ _ Echeck)
        as (response & entry & proof & currentPrice & E1 & E2 & E3 & E4 & Hdef).
      rewrite Echeck in Hdef. cbv zeta in Hdef. injection Hdef as ->.
      cbn [OracleClient.EligibilityResult.eligible OracleClient.EligibilityResult.currentPrice
           OracleClient.EligibilityResult.payoutAmount] in *.
      apply andb_true_iff in Hel as [Hdrop _]. apply Z.gtb_lt in Hdrop.
      rewrite drop_is_max in *.
      exists currentPrice, (Z.max 0 (originalPrice - currentPrice)).
      rewrite !BigInt_ofString_toString.
      split; [reflexivity|]. split; [reflexivity|]. lia.
Qed.

(** X26.  A check makes a submission possible, whatever its verdict.  After
    a check that succeeded, a submission of the same policy from the same
    wallet raises no alert: it runs its ledger checks against the snapshot of
    that check and leaves the policy in the error state or in the claimed
    state.  A payout call, if one is sent, carries the formatted Merkle root
    that the oracle reported with the prices, and is only sent when the
    ledger publishes that root. *)
Theorem handleCheckClaim_then_submit (checkEnv : CheckEnv) (env : Env) (a : string)
    (signer : Signer) (policy : PolicyManager.PolicyData) (w : World)
    (n : string) (r : OracleClient.EligibilityResult.t) :
  nonEmpty a = true ->
  nonEmpty (PolicyManager.StoredPurchaseDetails.productId
              (PolicyManager.purchaseDetails policy)) = true ->
  PolicyManager.StoredPurchaseDetails.productId (PolicyManager.purchaseDetails policy)
    <> "unknown" ->
  isDecimalDigits (PolicyManager.policyId policy) = true ->
  checkClaimTry checkEnv policy = Ok (n, r) ->
  let policyId := PolicyManager.policyId policy in
  let root := ClaimProof.formatMerkleRoot (OracleClient.EligibilityResult.merkleRoot r) in
  let w1 := handleCheckClaim checkEnv (Some a) policy w in
  let w2 := handleSubmitClaim env (Some a) (Some signer) policy w1 in
  alerts w2 = alerts w
  /\ (claimStatus w2 policyId = Some error \/ claimStatus w2 policyId = Some claimed)
  /\ exists new,
       ledgerCalls w2 = (ledgerCalls w ++ new)%list
       /\ forall args, In (CallClaimPayout args) new ->
            ClaimPayoutArgs.merkleRoot args = root
            /\ exists onChainRoot,
                 priceMerkleRoot env = Ok onChainRoot
                 /\ toLowerCase onChainRoot = toLowerCase root.
Proof.
  intros Ha Hp Hu Hid Htry policyId root w1 w2. subst policyId root.
  assert (Hw1 : w1 = recordChecked checkEnv a policy n r
                       (updateClaimState (PolicyManager.policyId policy)
                          {| ClaimStatePartial.status := Some checking;
                             ClaimStatePartial.eligibility := None;
                             ClaimStatePartial.error := Some None;
                             ClaimStatePartial.txHash := None |} w)).
  { subst w1. unfold handleCheckClaim, PolicyManager.truthy.
    rewrite Ha, Hp, Hid, Htry. cbn [negb orb].
    apply String.eqb_neq in Hu. rewrite Hu. reflexivity. }
  match type of Hw1 with
  | _ = recordChecked _ _ _ _ _ ?w0 =>
      destruct (recordChecked_state checkEnv a policy n r w0)
        as (_ & (el & Hel & Hproof & Hroot & _) & Hal & Hlc)
  end.
  rewrite <- Hw1 in Hel, Hal, Hlc.
  change (alerts (updateClaimState _ _ w)) with (alerts w) in Hal.
  change (ledgerCalls (updateClaimState _ _ w)) with (ledgerCalls w) in Hlc.
  clearbody w1. clear Hw1. subst w2. unfold handleSubmitClaim.
  rewrite Ha, Hel, Hproof, Hid. cbn [negb].
  change (ledgerCalls (updateClaimState _ _ w1)) with (ledgerCalls w1).
  destruct (submitClaimTry_cases env signer policy el
              (OracleClient.EligibilityResult.proof r) (ledgerCalls w1))
    as (new & Hlog & Hcases).
  destruct (submitClaimTry env signer policy el _ (ledgerCalls w1)) as [log outcome].
  cbn [fst snd] in Hlog, Hcases. subst log.
  assert (Hpay : forall args, In (CallClaimPayout args) new ->
            ClaimPayoutArgs.merkleRoot args
              = ClaimProof.formatMerkleRoot (OracleClient.EligibilityResult.merkleRoot r)
            /\ exists onChainRoot,
                 priceMerkleRoot env = Ok onChainRoot
                 /\ toLowerCase onChainRoot
                    = toLowerCase (ClaimProof.formatMerkleRoot
                                     (OracleClient.EligibilityResult.merkleRoot r))).
  { intros args Hin. rewrite <- Hroot.
    destruct Hcases as [[_ [->|[[-> _]|(k & -> & _)]]]
                       |(k & args' & -> & _ & _ & Hr & _ & Hguards & _)].
    - destruct Hin.
    - destruct Hin as [H|[]]; discriminate H.
    - destruct Hin as [H|[H|[]]]; discriminate H.
    - destruct Hin as [H|[H|[H|[]]]]; try discriminate H. injection H as <-.
      split; [exact Hr|].
      destruct Hguards as (onChainRoot & _ & _ & _ & Hpr & _ & _ & _ & Hsame & _).
      exists onChainRoot. now split. }
  destruct outcome as [receipt|e].
  - match goal with
    | |- context [recordClaimed env a policy el receipt ?w2] =>
        destruct (recordClaimed_status env a policy el receipt w2)
          as (Hst & _ & Hal2 & Hlc2)
    end.
    split; [rewrite Hal2; exact Hal|]. split; [right; exact Hst|].
    exists new. split; [rewrite Hlc2; cbn [ledgerCalls]; now rewrite Hlc|exact Hpay].
  - split; [exact Hal|].
    split; [left; now apply claimStatus_updateClaimState|].
    exists new. split; [cbn [ledgerCalls]; now rewrite Hlc|exact Hpay].
Qed.

Lemma handleCheckClaim_calls (env : CheckEnv) (address : option string)
    (policy : PolicyManager.PolicyData) (w : World) :
  ledgerCalls (handleCheckClaim env address policy w) = ledgerCalls w.
Proof.
  unfold handleCheckClaim.
  destruct (PolicyManager.truthy address) as [a|]; [|reflexivity].
  destruct (negb _ || _); [reflexivity|].
  destruct (negb _); [reflexivity|].
  destruct (checkClaimTry env policy) as [[n r]|e]; [|reflexivity].
  match goal with
  | |- context [recordChecked env a policy n r ?w1] =>
      now destruct (recordChecked_state env a policy n r w1) as (_ & _ & _ & Hlc)
  end.
Qed.

Lemma ClaimStatus_eqb_eq (a b : ClaimStatus) : ClaimStatus_eqb a b = true <-> a = b.
Proof. destruct a, b; simpl; split; intros H; try reflexivity; discriminate H. Qed.

Lemma shownStatus_claimStatus (w : World) (policy : PolicyManager.PolicyData)
    (el : ClaimEligibilityState.t) :
  claimStates w !! PolicyManager.policyId policy ≫= ClaimState.eligibility = Some el ->
  claimStatus w (PolicyManager.policyId policy) = Some (shownStatus w policy).
Proof.
  unfold claimStatus, shownStatus.
  destruct (claimStates w !! PolicyManager.policyId policy); [reflexivity|discriminate].
Qed.

(** X27.  The button of a policy card.  It submits a claim exactly when the
    status shown is eligible and the stored record is not claimed; it is
    without effect exactly when the policy is being checked or is claimed; in
    every other case, the claiming state included, it starts an eligibility
    check.  So a click sends a payout call only for a policy whose claim state
    in memory is eligible and whose ledger checks passed, a click on a claimed
    policy changes nothing, and a policy that is only stored as eligible, with
    no claim state in memory, shows the claim button, but a click raises an
    alert and sends nothing. *)
Theorem clickPolicyAction_gates_payout (checkEnv : CheckEnv) (env : Env)
    (address : option string) (signer : option Signer)
    (policy : PolicyManager.PolicyData) (w : World) :
  let policyId := PolicyManager.policyId policy in
  let w' := clickPolicyAction checkEnv env address signer policy w in
  let storedClaimed := PolicyManager.status policy = Some PolicyManager.claimed in
  (policyActionButtons w policy = SubmitClaim
     <-> shownStatus w policy = eligible /\ ~ storedClaimed)
  /\ (policyActionButtons w policy = NoAction
        <-> shownStatus w policy = checking \/ shownStatus w policy = claimed \/ storedClaimed)
  /\ (exists new,
        ledgerCalls w' = (ledgerCalls w ++ new)%list
        /\ forall args, In (CallClaimPayout args) new ->
             claimStatus w policyId = Some eligible
             /\ ~ storedClaimed
             /\ exists signer' el,
                  signer = Some signer'
                  /\ claimStates w !! policyId ≫= ClaimState.eligibility = Some el
                  /\ guardsPassed env signer' policy el)
  /\ (shownStatus w policy = claimed \/ storedClaimed -> w' = w)
  /\ (claimStates w !! policyId = None ->
      PolicyManager.status policy = Some PolicyManager.eligible ->
      policyActionButtons w policy = SubmitClaim
      /\ exists message, w' = alert message w).
Proof.
  intros policyId w' storedClaimed. subst policyId w' storedClaimed.
  assert (Hbuttons :
    (policyActionButtons w policy = SubmitClaim
       <-> shownStatus w policy = eligible
           /\ PolicyManager.status policy <> Some PolicyManager.claimed)
    /\ (policyActionButtons w policy = NoAction
          <-> shownStatus w policy = checking \/ shownStatus w policy = claimed
              \/ PolicyManager.status policy = Some PolicyManager.claimed)).
  { unfold policyActionButtons, isEligible, isClaimed, isChecking, isClaiming.
    set (sc := match PolicyManager.status policy with
               | Some PolicyManager.claimed => true
               | _ => false
               end).
    assert (Hsc : sc = true <-> PolicyManager.status policy = Some PolicyManager.claimed).
    { subst sc. destruct (PolicyManager.status policy) as [[]|]; split; congruence. }
    destruct sc.
    - assert (Hc : PolicyManager.status policy = Some PolicyManager.claimed) by now apply Hsc.
      destruct (shownStatus w policy); cbn; split; split; intros H;
        try discriminate H; try tauto; try (destruct H as [_ H]; congruence).
    - assert (Hc : PolicyManager.status policy <> Some PolicyManager.claimed).
      { intros H. apply Hsc in H. discriminate H. }
      destruct (shownStatus w policy); cbn; split; split; intros H;
        try discriminate H; try tauto; try (destruct H as [H _]; discriminate H);
        try (destruct H as [H|[H|H]]; congruence). }
  destruct Hbuttons as [Hsubmit Hnone].
  split; [exact Hsubmit|]. split; [exact Hnone|].
  unfold clickPolicyAction.
  split; [|split].
  - destruct (policyActionButtons w policy) eqn:Eb.
    + destruct (handleSubmitClaim_calls env address signer policy w) as (new & Hlog & Hcases).
      cbv zeta in Hlog, Hcases. exists new. split; [exact Hlog|].
      intros args Hin.
      destruct Hcases as [->|[(n & -> & _)
                             |(n & args' & signer' & el & -> & Hs & Hel & _ & _ & _ & Hg)]].
      * destruct Hin.
      * destruct Hin as [H|[H|[]]]; discriminate H.
      * destruct (proj1 Hsubmit eq_refl) as [Hshown Hns].
        split; [rewrite (shownStatus_claimStatus _ _ _ Hel); now rewrite Hshown|].
        split; [exact Hns|]. exists signer', el. repeat split; assumption.
    + exists []. rewrite app_nil_r. split; [apply handleCheckClaim_calls|intros args []].
    + exists []. rewrite app_nil_r. split; [reflexivity|intros args []].
  - intros H.
    assert (Hb : policyActionButtons w policy = NoAction) by (apply Hnone; tauto).
    now rewrite Hb.
  - intros Hnostate Hst.
    assert (Hb : policyActionButtons w policy = SubmitClaim).
    { apply Hsubmit. unfold shownStatus. rewrite Hnostate, Hst. split; [reflexivity|discriminate]. }
    split; [exact Hb|]. rewrite Hb. unfold handleSubmitClaim.
    rewrite Hnostate. cbn [mbind option_bind].
    destruct address as [a|]; [|eauto]. destruct signer as [s|]; [|eauto].
    destruct (negb (nonEmpty a)); eauto.
Qed.

End ClaimCheck.

Section ClaimCheckExamples.

Import InvoiceWidget.

#[local] Existing Instance Examples.asciiCase.

Lemma handleCheckClaim_then_submit_witness :
  let policy := Examples.policyWithStatus PolicyManager.active in
  let w1 := handleCheckClaim Examples.sampleCheckEnv (Some "0xAbC") policy Examples.freshWorld in
  let w2 := handleSubmitClaim (Examples.ledgerEnv (hex64 18) false) (Some "0xAbC")
              (Some Examples.sampleSigner) policy w1 in
  alerts w2 = []
  /\ (claimStatus w2 "7" = Some error \/ claimStatus w2 "7" = Some claimed).
Proof.
  intros policy w1 w2.
  destruct (checkClaimTry Examples.sampleCheckEnv policy) as [[n r]|e] eqn:Htry;
    [|vm_compute in Htry; discriminate Htry].
  destruct (handleCheckClaim_then_submit Examples.sampleCheckEnv
              (Examples.ledgerEnv (hex64 18) false) "0xAbC" Examples.sampleSigner policy
              Examples.freshWorld n r eq_refl eq_refl ltac:(discriminate) eq_refl Htry)
    as (Hal & Hst & _).
  split; [exact Hal|exact Hst].
Defined.

(** A policy whose product identifier is a sharp s followed by 1 and whose
    price text is padded with no-break spaces: the price reads as 100, and
    with a conversion that turns the sharp s into SS the identifier passed on
    is SS1, which selects the catalog entry SS1 as the recorded identifier
    does. *)
Lemma checkClaimTry_asks_for_recorded_policy_witness :
  let policy :=
    Examples.policyFor (Examples.sharpS ++ "1") (Examples.nbsp ++ "100" ++ Examples.nbsp) in
  let env := Examples.checkEnvWith (Examples.oracleWith [("1", 80); ("SS1", 50)]) in
  exists r,
    checkClaimTry (engine := Examples.sharpCase) env policy = Ok ("SS1", r)
    /\ OracleClient.checkEligibility (engine := Examples.sharpCase) (oracle env)
         (Examples.sharpS ++ "1") 100 (dropThresholdPercent env) = Ok r
    /\ OracleClient.EligibilityResult.currentPrice r = "50".
Proof.
  intros policy env.
  destruct (checkClaimTry (engine := Examples.sharpCase) env policy) as [[n r]|e] eqn:Htry;
    [|vm_compute in Htry; discriminate Htry].
  pose proof (checkClaimTry_asks_for_recorded_policy (engine := Examples.sharpCase) env policy)
    as H.
  cbv zeta in H. destruct H as (_ & _ & H).
  destruct (H n r Htry) as (originalPrice & Hprice & _ & Hn & Hcheck & _).
  vm_compute in Hprice. injection Hprice as <-.
  vm_compute in Hn. subst n.
  exists r. split; [reflexivity|]. split; [exact Hcheck|].
  vm_compute in Htry. now injection Htry as <-.
Defined.

End ClaimCheckExamples.

(* ===================================================================== *)
(** * From purchase to claim                                           *)
(* ===================================================================== *)

Section PurchaseToClaim.

Import InvoiceWidget.

Lemma toFieldString_hex (z : Z) :
  0 <= z ->
  ClaimProof.toFieldString (ClaimProof.VString ("0x" ++ BigInt_toString 16 z))
  = Ok (BigInt_toString 10 z).
Proof.
  intros Hz. unfold ClaimProof.toFieldString.
  assert (Hto : BigInt_toString 16 z = digitsOf 16 (Z.to_N z))
    by (destruct z; [reflexivity|reflexivity|lia]).
  assert (Hns : allChars notSpace ("0x" ++ BigInt_toString 16 z) = true).
  { rewrite allChars_append, Hto, digitsOf_notSpace. reflexivity. }
  rewrite trim_id by exact Hns.
  rewrite (BigInt_ofString_hex z Hz). reflexivity.
Qed.

Lemma toFieldString_number (z : Z) :
  Z.abs z < 2 ^ 53 ->
  ClaimProof.toFieldString (ClaimProof.VNumber (Number_ofZ z)) = Ok (BigInt_toString 10 z).
Proof.
  intros Hz. unfold ClaimProof.toFieldString. now rewrite BigInt_ofNumber_ofZ.
Qed.

(** One step of a chain of conversions that succeeded as a whole. *)
Ltac head_step H :=
  match type of H with
  | @mbind _ _ _ _ _ ?x = Ok _ =>
      let e := fresh "e" in
      destruct x as [?|e]; [|discriminate H];
      cbn [mbind result_bind bind] in H
  end.

Variable keccak256 : string -> Z.
Variable poseidon : list Z -> Z.
Variable Date_getTime : string -> number.

Hypothesis keccak256_range : forall s, 0 <= keccak256 s.
Hypothesis poseidon_range : forall xs, 0 <= poseidon xs.

(** X28.  From purchase to claim.  Take a commitment built for an invoice,
    the record the purchase handler derives from it, the policy generated from
    that record, and the circuit inputs assembled from the policy.  Then the
    inputs for the order hash, the price, the product hash, the salt, the
    tier and the commitment are the decimal texts of exactly the integers of
    the opening and of its Poseidon hash, the premium input is the premium of
    the tier table, and the policy starts as active with the product id it
    was given.  (The invoice date of the policy is not taken from the opening:
    it is derived again from the purchase date passed for the policy.) *)
Theorem circuit_inputs_match_opening
    (invoiceData : Commitment.InvoiceData) (saltArray : list byte)
    (r : Commitment.CommitmentResult)
    (now : number) (nowISOString : string) (chainId : option string)
    (transactionHash : string) (blockNumber : number) (policyId : string)
    (invoiceDataForPolicy : PolicyManager.InvoiceDataForPolicy.t)
    (contractAddresses : PolicyManager.Contracts.t)
    (proof : OracleClient.OracleMerkleProof.t) (merkleRoot : string)
    (inputs : ClaimProof.CircuitInputs.t) :
  Commitment.buildCommitment keccak256 poseidon Date_getTime invoiceData saltArray = Ok r ->
  let policy :=
    PolicyManager.generatePolicyData Date_getTime now nowISOString chainId
      transactionHash blockNumber policyId (commitmentData r) invoiceDataForPolicy
      contractAddresses in
  ClaimProof.buildCircuitInputs policy proof merkleRoot = Ok inputs ->
  let details := Commitment.details r in
  exists orderHashBig date,
    BigInt_ofString (Commitment.orderHash details) = Some orderHashBig
    /\ BigInt_ofNumber (Commitment.invoiceDate details) = Some date
    /\ ClaimProof.CircuitInputs.orderHash inputs = BigInt_toString 10 orderHashBig
    /\ ClaimProof.CircuitInputs.invoicePrice inputs
       = BigInt_toString 10 (Commitment.invoicePrice details)
    /\ ClaimProof.CircuitInputs.productHash inputs
       = BigInt_toString 10 (Commitment.productHash details)
    /\ ClaimProof.CircuitInputs.salt inputs = BigInt_toString 10 (Commitment.salt details)
    /\ ClaimProof.CircuitInputs.selectedTier inputs
       = BigInt_toString 10 (Commitment.selectedTier details)
    /\ ClaimProof.CircuitInputs.commitment inputs
       = BigInt_toString 10
           (poseidon [orderHashBig; Commitment.invoicePrice details; date;
                      Commitment.productHash details; Commitment.salt details;
                      Commitment.selectedTier details])
    /\ ClaimProof.CircuitInputs.paidPremium inputs
       = BigInt_toString 10 (Commitment.resultPremium r)
    /\ Commitment.calculateTierAndPremium (Commitment.invoicePrice details)
       = Ok (Commitment.selectedTier details, Commitment.resultPremium r)
    /\ PolicyManager.status policy = Some PolicyManager.active
    /\ PolicyManager.StoredPurchaseDetails.productId (PolicyManager.purchaseDetails policy)
       = default "unknown"
           (PolicyManager.truthy (PolicyManager.InvoiceDataForPolicy.productId
                                    invoiceDataForPolicy)).
Proof.
  intros Hbuild policy Hinputs details. subst policy details.
  destruct (buildCommitment_Ok_inv _ _ _ _ _ _ Hbuild)
    as (price & date & saltBig & ohb & phb & tp & Hprice & Hprod & Hsalt & Htier & Horder
        & Hdate & ->).
  assert (Hohb : ohb = keccak256 (Commitment.orderNumber invoiceData)).
  { unfold Commitment.keccak256Hex in Horder.
    change ("0x" ++ padStart0 64 (BigInt_toString 16 (keccak256 (Commitment.orderNumber invoiceData))))
      with (hex64 (keccak256 (Commitment.orderNumber invoiceData))) in Horder.
    rewrite BigInt_ofString_hex64 in Horder by apply keccak256_range. congruence. }
  assert (Hsaltpos : 0 <= saltBig).
  { destruct saltArray as [|b rest]; [vm_compute in Hsalt; discriminate Hsalt|].
    destruct (salt_parses (b :: rest)) as (s' & Hs' & Hpos); [discriminate|]. congruence. }
  assert (Htierbound : Z.abs (fst tp) < 2 ^ 53).
  { pose proof Htier as Hin. apply classifyIn_Ok_inv in Hin as (b & Hin & _ & ->).
    simpl in Hin. repeat (destruct Hin as [<-|Hin]; [simpl; lia|]). contradiction. }
  exists ohb, date.
  cbn [Commitment.details Commitment.orderHash Commitment.invoiceDate Commitment.invoicePrice
       Commitment.productHash Commitment.salt Commitment.selectedTier
       Commitment.resultPremium Commitment.resultTier Commitment.commitment] in *.
  split; [exact Horder|]. split; [exact Hdate|].
  unfold ClaimProof.buildCircuitInputs, PolicyManager.generatePolicyData, commitmentData in Hinputs.
  cbn [PolicyManager.purchaseDetails PolicyManager.secretCommitment PolicyManager.premium
       PolicyManager.policyPurchaseDate
       PolicyManager.StoredPurchaseDetails.orderHash
       PolicyManager.StoredPurchaseDetails.invoicePrice
       PolicyManager.StoredPurchaseDetails.invoiceDate
       PolicyManager.StoredPurchaseDetails.productHash
       PolicyManager.StoredPurchaseDetails.salt
       PolicyManager.StoredPurchaseDetails.selectedTier
       PolicyManager.CommitmentData.orderHash PolicyManager.CommitmentData.invoicePrice
       PolicyManager.CommitmentData.productHash PolicyManager.CommitmentData.salt
       PolicyManager.CommitmentData.tier PolicyManager.CommitmentData.commitment
       PolicyManager.CommitmentData.premium
       Commitment.details Commitment.orderHash Commitment.invoiceDate Commitment.invoicePrice
       Commitment.productHash Commitment.salt Commitment.selectedTier
       Commitment.resultPremium Commitment.resultTier Commitment.commitment] in Hinputs.
  unfold Commitment.keccak256Hex in Hinputs.
  change ("0x" ++ padStart0 64 (BigInt_toString 16 (keccak256 (Commitment.orderNumber invoiceData))))
    with (hex64 (keccak256 (Commitment.orderNumber invoiceData))) in Hinputs.
  rewrite (toFieldString_hex64 (keccak256 _)) in Hinputs by apply keccak256_range.
  cbn [mbind result_bind bind] in Hinputs.
  rewrite (toFieldString_decimal price) in Hinputs. cbn [mbind result_bind bind] in Hinputs.
  head_step Hinputs.
  rewrite (toFieldString_hex (poseidon [phb])) in Hinputs by apply poseidon_range.
  cbn [mbind result_bind bind] in Hinputs.
  rewrite (toFieldString_hex saltBig) in Hinputs by exact Hsaltpos.
  cbn [mbind result_bind bind] in Hinputs.
  rewrite (toFieldString_number (fst tp)) in Hinputs by exact Htierbound.
  cbn [mbind result_bind bind] in Hinputs.
  do 3 head_step Hinputs.
  rewrite (toFieldString_hex64 (poseidon _)) in Hinputs by apply poseidon_range.
  cbn [mbind result_bind bind] in Hinputs.
  do 2 head_step Hinputs.
  rewrite (toFieldString_decimal (snd tp)) in Hinputs. cbn [mbind result_bind bind] in Hinputs.
  injection Hinputs as <-.
  cbn [ClaimProof.CircuitInputs.orderHash ClaimProof.CircuitInputs.invoicePrice
       ClaimProof.CircuitInputs.productHash ClaimProof.CircuitInputs.salt
       ClaimProof.CircuitInputs.selectedTier ClaimProof.CircuitInputs.commitment
       ClaimProof.CircuitInputs.paidPremium].
  subst ohb.
  repeat (split; [reflexivity|]).
  split; [now rewrite Htier, <- surjective_pairing|].
  split; reflexivity.
Qed.

End PurchaseToClaim.

Lemma circuit_inputs_match_opening_witness :
  let items :=
    {| PolicyManager.InvoiceDataForPolicy.purchaseDate := Some "2023-11-14T22:13:20Z";
       PolicyManager.InvoiceDataForPolicy.productId := Some "X1" |} in
  let contracts :=
    {| PolicyManager.Contracts.vault := "0xv"; PolicyManager.Contracts.token := "0xt";
       PolicyManager.Contracts.verifier := "0xr" |} in
  exists r inputs,
    Commitment.buildCommitment Examples.sampleKeccak256 Examples.samplePoseidon
      Examples.sampleDate_getTime Examples.sampleInvoice (repeat x2a 32) = Ok r
    /\ ClaimProof.buildCircuitInputs
         (PolicyManager.generatePolicyData Examples.sampleDate_getTime
            (Number_ofZ 1700000100000) "2023-11-14T22:15:00.000Z" (Some "31337")
            "0xfeed" (Number_ofZ 12) "7" (InvoiceWidget.commitmentData r) items contracts)
         Examples.sampleProof "0x12" = Ok inputs
    /\ ClaimProof.CircuitInputs.invoicePrice inputs
       = BigInt_toString 10 (Commitment.invoicePrice (Commitment.details r))
    /\ ClaimProof.CircuitInputs.salt inputs
       = BigInt_toString 10 (Commitment.salt (Commitment.details r)).
Proof.
  intros items contracts.
  destruct (Commitment.buildCommitment Examples.sampleKeccak256 Examples.samplePoseidon
              Examples.sampleDate_getTime Examples.sampleInvoice (repeat x2a 32))
    as [r|e] eqn:Hrun; [|vm_compute in Hrun; discriminate Hrun].
  destruct (ClaimProof.buildCircuitInputs
              (PolicyManager.generatePolicyData Examples.sampleDate_getTime
                 (Number_ofZ 1700000100000) "2023-11-14T22:15:00.000Z" (Some "31337")
                 "0xfeed" (Number_ofZ 12) "7" (InvoiceWidget.commitmentData r) items contracts)
              Examples.sampleProof "0x12") as [inputs|e] eqn:Hin.
  2:{ vm_compute in Hrun. injection Hrun as <-. vm_compute in Hin. discriminate Hin. }
  exists r, inputs. split; [reflexivity|]. split; [first [exact Hin|reflexivity]|].
  destruct (circuit_inputs_match_opening Examples.sampleKeccak256 Examples.samplePoseidon
              Examples.sampleDate_getTime
              (fun s => Nat2Z.is_nonneg (String.length s))
              (fun xs => proj1 (Z.mod_pos_bound (fold_right Z.add 0 xs) (2 ^ 256) eq_refl))
              Examples.sampleInvoice (repeat x2a 32) r
              (Number_ofZ 1700000100000) "2023-11-14T22:15:00.000Z" (Some "31337")
              "0xfeed" (Number_ofZ 12) "7" items contracts Examples.sampleProof "0x12" inputs
              Hrun Hin)
    as (ohb & date & _ & _ & _ & Hprice & _ & Hsalt & _).
  split; [exact Hprice|exact Hsalt].
Defined.

(* ===================================================================== *)
(** * What a payout call carries, and new policies                     *)
(* ===================================================================== *)

Section PayoutArguments.

Import InvoiceWidget.

Ltac reduce_eff := repeat (progress (cbv beta iota zeta; cbn [fst snd negb])).

Ltac reads_only :=
  reduce_eff; rewrite <- ?app_assoc;
  first [ exists []; rewrite app_nil_r; split; [reflexivity|]
        | eexists; split; [simpl; reflexivity|] ];
  intros args Hin; simpl in Hin; exfalso;
  repeat (destruct Hin as [Hin|Hin]; [discriminate Hin|]); exact Hin.

(** What a payout call carries, when the [try] block sends one. *)
Lemma submitClaimTry_payout_args (env : Env) (signer : Signer)
    (policy : PolicyManager.PolicyData) (el : ClaimEligibilityState.t)
    (proof : OracleClient.OracleMerkleProof.t) (log : list LedgerCall) :
  exists new,
    fst (submitClaimTry env signer policy el proof log) = (log ++ new)%list
    /\ forall args, In (CallClaimPayout args) new ->
         exists inputs fullProof,
           ClaimProof.buildCircuitInputs policy proof (ClaimEligibilityState.merkleRoot el)
             = Ok inputs
           /\ fullProve env inputs = Ok fullProof
           /\ ClaimPayoutArgs.proofA args = ClaimProof.FullProof.pi_a fullProof
           /\ ClaimPayoutArgs.proofB args
              = (let pi_b := ClaimProof.FullProof.pi_b fullProof in
                 ((snd (fst pi_b), fst (fst pi_b)), (snd (snd pi_b), fst (snd pi_b))))
           /\ ClaimPayoutArgs.proofC args = ClaimProof.FullProof.pi_c fullProof
           /\ ClaimProof.formatPublicSignals (ClaimProof.FullProof.publicSignals fullProof)
              = Ok (ClaimPayoutArgs.publicSignals args)
           /\ zeroPadValue env (PolicyManager.secretCommitment policy) 32
              = Ok (ClaimPayoutArgs.commitment args)
           /\ BigInt_ofString (PolicyManager.premium policy)
              = Some (ClaimPayoutArgs.premiumPaid args)
           /\ BigInt_ofNumber (PolicyManager.policyPurchaseDate policy)
              = Some (ClaimPayoutArgs.policyPurchaseDate args)
           /\ BigInt_ofString (PolicyManager.policyId policy)
              = Some (ClaimPayoutArgs.policyId args).
Proof.
  unfold submitClaimTry, andThen, lift, issue, guard, ret, throw, orThrow.
  unfold ClaimProof.generateClaimProof.
  destruct (ClaimProof.buildCircuitInputs _ _ _) as [inputs|e] eqn:Einputs;
    cbn [mbind result_bind bind]; [|reads_only].
  destruct (fullProve env inputs) as [fullProof|e] eqn:Eprove;
    cbn [mbind result_bind bind]; [|reads_only].
  destruct (getInsuranceVaultContractWithSigner env) as [vault|e]; [|reads_only].
  destruct (BigInt_ofString (PolicyManager.policyId policy)) as [policyIdBig|] eqn:Epid;
    [|reads_only].
  destruct (priceMerkleRoot env) as [onChainRoot|e]; [|reads_only].
  reduce_eff.
  destruct (policies env policyIdBig) as [storedPolicy|e]; [|reads_only].
  destruct (String.eqb _ _); [|reads_only].
  destruct (getAddress signer) as [walletAddress|e]; [|reads_only].
  destruct (String.eqb _ _); [|reads_only].
  destruct (LedgerPolicy.alreadyClaimed storedPolicy); [reads_only|].
  reduce_eff.
  destruct (zeroPadValue env _ _) as [commitmentHex|e] eqn:Epad; [|reads_only].
  destruct (BigInt_ofString (PolicyManager.premium policy)) as [premiumBig|] eqn:Eprem;
    [|reads_only].
  destruct (ClaimProof.formatPublicSignals _) as [signals|e] eqn:Esig; [|reads_only].
  destruct (BigInt_ofNumber _) as [dateBig|] eqn:Edate; [|reads_only].
  reduce_eff. rewrite <- !app_assoc. cbn [app].
  eexists. split.
  - destruct (claimPayout env _) as [[[receipt|]|e]|e]; reduce_eff; reflexivity.
  - intros args Hin. destruct Hin as [Hin|[Hin|[Hin|[]]]]; try discriminate Hin.
    injection Hin as <-. exists inputs, fullProof.
    cbn [ClaimPayoutArgs.proofA ClaimPayoutArgs.proofB ClaimPayoutArgs.proofC
         ClaimPayoutArgs.publicSignals ClaimPayoutArgs.commitment
         ClaimPayoutArgs.premiumPaid ClaimPayoutArgs.policyPurchaseDate
         ClaimPayoutArgs.policyId ClaimProof.formatProof
         ClaimProof.GeneratedClaimProof.a ClaimProof.GeneratedClaimProof.b
         ClaimProof.GeneratedClaimProof.c ClaimProof.GeneratedClaimProof.publicSignals] in *.
    repeat (split; [reflexivity || assumption|]). reflexivity.
Qed.

(** X29.  What goes to the ledger with a payout call.  Whenever a
    submission sends a payout call, its arguments come from the snapshot and
    the stored policy alone: the proof points are those the prover returned
    for the circuit inputs of this policy and this snapshot, with the two
    coordinates of each point of [b] exchanged and [a] and [c] as returned;
    the public signals are the prover's, read as integers; the commitment is
    the policy's, padded to 32 bytes; and the premium, the purchase date and
    the policy id are the recorded ones, read as integers. *)
Theorem handleSubmitClaim_payout_arguments (env : Env) (address : option string)
    (signer : option Signer) (policy : PolicyManager.PolicyData) (w : World) :
  let policyId := PolicyManager.policyId policy in
  let w' := handleSubmitClaim env address signer policy w in
  exists new,
    ledgerCalls w' = (ledgerCalls w ++ new)%list
    /\ forall args, In (CallClaimPayout args) new ->
         exists el proof inputs fullProof,
           claimStates w !! policyId ≫= ClaimState.eligibility = Some el
           /\ ClaimEligibilityState.proof el = Some proof
           /\ ClaimProof.buildCircuitInputs policy proof (ClaimEligibilityState.merkleRoot el)
              = Ok inputs
           /\ fullProve env inputs = Ok fullProof
           /\ ClaimPayoutArgs.proofA args = ClaimProof.FullProof.pi_a fullProof
           /\ ClaimPayoutArgs.proofB args
              = (let pi_b := ClaimProof.FullProof.pi_b fullProof in
                 ((snd (fst pi_b), fst (fst pi_b)), (snd (snd pi_b), fst (snd pi_b))))
           /\ ClaimPayoutArgs.proofC args = ClaimProof.FullProof.pi_c fullProof
           /\ ClaimProof.formatPublicSignals (ClaimProof.FullProof.publicSignals fullProof)
              = Ok (ClaimPayoutArgs.publicSignals args)
           /\ zeroPadValue env (PolicyManager.secretCommitment policy) 32
              = Ok (ClaimPayoutArgs.commitment args)
           /\ BigInt_ofString (PolicyManager.premium policy)
              = Some (ClaimPayoutArgs.premiumPaid args)
           /\ BigInt_ofNumber (PolicyManager.policyPurchaseDate policy)
              = Some (ClaimPayoutArgs.policyPurchaseDate args)
           /\ BigInt_ofString policyId = Some (ClaimPayoutArgs.policyId args).
Proof.
  intros policyId w'. subst policyId w'. unfold handleSubmitClaim.
  assert (Halert : forall message (P : ClaimPayoutArgs.t -> Prop),
    exists new, ledgerCalls (alert message w) = (ledgerCalls w ++ new)%list
                /\ forall args, In (CallClaimPayout args) new -> P args).
  { intros message P. exists []. simpl. rewrite app_nil_r. split; [reflexivity|intros args []]. }
  destruct address as [address'|]; [|apply Halert].
  destruct signer as [signer'|]; [|apply Halert].
  destruct (nonEmpty address'); cbn [negb]; [|apply Halert].
  destruct (claimStates w !! PolicyManager.policyId policy ≫= ClaimState.eligibility)
    as [el|] eqn:Eel; [|apply Halert].
  destruct (ClaimEligibilityState.proof el) as [proof|] eqn:Ep; [|apply Halert].
  destruct (isDecimalDigits (PolicyManager.policyId policy)); cbn [negb]; [|apply Halert].
  clear Halert.
  change (ledgerCalls (updateClaimState _ _ w)) with (ledgerCalls w).
  destruct (submitClaimTry_payout_args env signer' policy el proof (ledgerCalls w))
    as (new & Hlog & Hargs).
  destruct (submitClaimTry env signer' policy el proof (ledgerCalls w)) as [log outcome].
  cbn [fst] in Hlog. subst log.
  exists new. split.
  - destruct outcome as [receipt|e]; [|reflexivity].
    match goal with
    | |- context [recordClaimed env address' policy el receipt ?w2] =>
        now destruct (recordClaimed_status env address' policy el receipt w2)
          as (_ & _ & _ & Hlc)
    end.
  - intros args Hin. destruct (Hargs args Hin) as (inputs & fullProof & H).
    exists el, proof, inputs, fullProof. split; [reflexivity|]. split; [exact Ep|exact H].
Qed.

End PayoutArguments.

Section GeneratedPolicy.

Import InvoiceWidget.

Context {engine : CaseConversion}.

(** X30.  A policy as the purchase generates it.  It starts as active, with
    no eligibility and no claim recorded, so its card offers the eligibility
    check when no claim state is in memory.  Its product id is never empty:
    it is the one passed in, or the placeholder [unknown] when none was
    passed, and in that case a check only raises the alert that the product
    cannot be determined.  With a product id, a policy id that is not a
    decimal number (the event of the purchase was not found) only raises the
    alert that the policy id is invalid.  Saved under the buyer's address, the
    policy is found there under its transaction hash. *)
Theorem generatePolicyData_starts_active
    (Date_getTime : string -> number) (now : number) (nowISOString : string)
    (chainId : option string) (transactionHash : string) (blockNumber : number)
    (policyId : string) (commitmentData : PolicyManager.CommitmentData.t)
    (invoiceData : PolicyManager.InvoiceDataForPolicy.t)
    (contractAddresses : PolicyManager.Contracts.t)
    (env : CheckEnv) (a : string) (w : World) (st : PolicyManager.Storage) :
  nonEmpty a = true ->
  let policy :=
    PolicyManager.generatePolicyData Date_getTime now nowISOString chainId
      transactionHash blockNumber policyId commitmentData invoiceData contractAddresses in
  let productId :=
    PolicyManager.StoredPurchaseDetails.productId (PolicyManager.purchaseDetails policy) in
  let given := PolicyManager.truthy (PolicyManager.InvoiceDataForPolicy.productId invoiceData) in
  PolicyManager.status policy = Some PolicyManager.active
  /\ PolicyManager.eligibility policy = None
  /\ PolicyManager.claimTxHash policy = None
  /\ (claimStates w !! policyId = None -> policyActionButtons w policy = CheckClaim)
  /\ nonEmpty productId = true
  /\ (given = None ->
      productId = "unknown"
      /\ handleCheckClaim env (Some a) policy w
         = alert "Unable to determine product ID for this policy." w)
  /\ (forall p, given = Some p -> p <> "unknown" -> isDecimalDigits policyId = false ->
      productId = p
      /\ handleCheckClaim env (Some a) policy w = alert "Policy ID is invalid." w)
  /\ (exists stored,
        In stored (PolicyManager.getPoliciesForAddress
                     (PolicyManager.savePolicyForAddress st a policy) a)
        /\ PolicyManager.transactionHash stored = transactionHash).
Proof.
  intros Ha policy productId given. subst policy productId given.
  cbn [PolicyManager.generatePolicyData PolicyManager.status PolicyManager.eligibility
       PolicyManager.claimTxHash PolicyManager.purchaseDetails
       PolicyManager.StoredPurchaseDetails.productId].
  split; [reflexivity|]. split; [reflexivity|]. split; [reflexivity|].
  split; [|split; [|split; [|split]]].
  - intros Hnone. unfold policyActionButtons, isEligible, isClaimed, isChecking, isClaiming,
      shownStatus.
    cbn [PolicyManager.generatePolicyData PolicyManager.policyId PolicyManager.status].
    rewrite Hnone. reflexivity.
  - unfold PolicyManager.truthy.
    destruct (PolicyManager.InvoiceDataForPolicy.productId invoiceData) as [p|]; [|reflexivity].
    destruct (nonEmpty p) eqn:E; [exact E|reflexivity].
  - intros Hgiven. rewrite Hgiven. split; [reflexivity|].
    unfold handleCheckClaim, PolicyManager.truthy at 1. rewrite Ha.
    cbn [PolicyManager.generatePolicyData PolicyManager.purchaseDetails
         PolicyManager.StoredPurchaseDetails.productId].
    rewrite Hgiven. reflexivity.
  - intros p Hgiven Hp Hid. rewrite Hgiven. split; [reflexivity|].
    unfold handleCheckClaim, PolicyManager.truthy at 1. rewrite Ha.
    cbn [PolicyManager.generatePolicyData PolicyManager.purchaseDetails
         PolicyManager.StoredPurchaseDetails.productId PolicyManager.policyId].
    rewrite Hgiven. cbn [default from_option id].
    assert (Hne : nonEmpty p = true).
    { unfold PolicyManager.truthy in Hgiven.
      destruct (PolicyManager.InvoiceDataForPolicy.productId invoiceData) as [q|];
        [|discriminate Hgiven].
      destruct (nonEmpty q) eqn:E; [|discriminate Hgiven]. now injection Hgiven as <-. }
    apply String.eqb_neq in Hp. rewrite Hne, Hp, Hid. reflexivity.
  - pose proof (save_stores_hash st a
                  (PolicyManager.generatePolicyData Date_getTime now nowISOString chainId
                     transactionHash blockNumber policyId commitmentData invoiceData
                     contractAddresses)) as Hin.
    unfold PolicyManager.hashes in Hin. apply list_elem_of_In, in_map_iff in Hin.
    destruct Hin as (stored & Hh & Hin). exists stored. split; [exact Hin|exact Hh].
Qed.

End GeneratedPolicy.

Section GeneratedPolicyExamples.

Import InvoiceWidget.

#[local] Existing Instance Examples.asciiCase.

Lemma generatePolicyData_starts_active_witness :
  let policy :=
    PolicyManager.generatePolicyData Examples.sampleDate_getTime
      (Number_ofZ 1700000100000) "2023-11-14T22:15:00.000Z" (Some "31337")
      "0xfeed" (Number_ofZ 12) "7"
      (InvoiceWidget.commitmentData
         {| Commitment.commitment := "0x0d";
            Commitment.details :=
              {| Commitment.orderHash := "0x0a"; Commitment.invoicePrice := 199990000;
                 Commitment.invoiceDate := Number_ofZ 1700000000;
                 Commitment.productHash := 11; Commitment.salt := 12;
                 Commitment.selectedTier := 2 |};
            Commitment.resultTier := 2; Commitment.resultPremium := 3000000 |})
      {| PolicyManager.InvoiceDataForPolicy.purchaseDate := None;
         PolicyManager.InvoiceDataForPolicy.productId := None |}
      {| PolicyManager.Contracts.vault := "0xv"; PolicyManager.Contracts.token := "0xt";
         PolicyManager.Contracts.verifier := "0xr" |} in
  PolicyManager.status policy = Some PolicyManager.active
  /\ handleCheckClaim Examples.sampleCheckEnv (Some "0xAbC") policy Examples.freshWorld
     = alert "Unable to determine product ID for this policy." Examples.freshWorld.
Proof.
  intros policy.
  destruct (generatePolicyData_starts_active Examples.sampleDate_getTime
              (Number_ofZ 1700000100000) "2023-11-14T22:15:00.000Z" (Some "31337")
              "0xfeed" (Number_ofZ 12) "7"
              (InvoiceWidget.commitmentData
                 {| Commitment.commitment := "0x0d";
                    Commitment.details :=
                      {| Commitment.orderHash := "0x0a"; Commitment.invoicePrice := 199990000;
                         Commitment.invoiceDate := Number_ofZ 1700000000;
                         Commitment.productHash := 11; Commitment.salt := 12;
                         Commitment.selectedTier := 2 |};
                    Commitment.resultTier := 2; Commitment.resultPremium := 3000000 |})
              {| PolicyManager.InvoiceDataForPolicy.purchaseDate := None;
                 PolicyManager.InvoiceDataForPolicy.productId := None |}
              {| PolicyManager.Contracts.vault := "0xv"; PolicyManager.Contracts.token := "0xt";
                 PolicyManager.Contracts.verifier := "0xr" |}
              Examples.sampleCheckEnv "0xAbC" Examples.freshWorld ∅ eq_refl)
    as (Hst & _ & _ & _ & _ & Hunknown & _).
  split; [exact Hst|]. exact (proj2 (Hunknown eq_refl)).
Defined.

End GeneratedPolicyExamples.
